(** * The sandboxed pseudo-shells of the portfolio: a shallow embedding

    Two React components carry the command interpreters of the site:

    - [Terminal]  (the general-purpose shell: [cd], [pwd], [ls], [cat], ...)
      with its static virtual filesystem, and
    - [CTFChallenge] in [CyberPanel.tsx] (the capture-the-flag shell with the
      password phase, the hidden file, the flag and the best-time record).

    Around them, the keyboard handler of [Terminal] (history, completion),
    the way its renderer reads a listing line back, the badge and the
    celebration of the puzzle panel, and [generateSimCipher] of the
    encryption visualizer, whose output the puzzle asks for.

    A React handler reads the component state from the snapshot of the render
    that created it and queues its updates; the updates the handlers queue are
    either constants or functional ([setLines(l => [...l, x])]), so one
    handler call is a function from the snapshot (and the outside world) to
    the next state.  That function is what is embedded here. *)

From Stdlib Require Import List NArith ZArith Bool String Ascii Lia Sorted.
Import ListNotations.

Set Implicit Arguments.

(* ===================================================================== *)
(** ** JavaScript strings *)
(* ===================================================================== *)

Module JS.

(** A JavaScript string is a sequence of UTF-16 code units. *)
Definition jsstring := list N.

(** Source literals are written as Rocq strings (UTF-8 bytes) and decoded to
    code units; a code point above the basic plane becomes a surrogate pair. *)
Fixpoint utf8 (bs : list N) : jsstring :=
  match bs with
  | [] => []
  | b0 :: r0 =>
    if (b0 <? 128)%N then b0 :: utf8 r0
    else
      match r0 with
      | [] => []
      | b1 :: r1 =>
        if (b0 <? 224)%N then ((b0 mod 32) * 64 + b1 mod 64)%N :: utf8 r1
        else
          match r1 with
          | [] => []
          | b2 :: r2 =>
            if (b0 <? 240)%N
            then ((b0 mod 16) * 4096 + (b1 mod 64) * 64 + b2 mod 64)%N :: utf8 r2
            else
              match r2 with
              | [] => []
              | b3 :: r3 =>
                let cp := ((b0 mod 8) * 262144 + (b1 mod 64) * 4096
                           + (b2 mod 64) * 64 + b3 mod 64)%N in
                let v := (cp - 65536)%N in
                (55296 + v / 1024)%N :: (56320 + v mod 1024)%N :: utf8 r3
              end
          end
      end
  end.

Definition lit (s : string) : jsstring :=
  utf8 (map N_of_ascii (list_ascii_of_string s)).

Arguments lit s%_string.

(** The double quote, which the password and a few texts contain. *)
Definition dquote : jsstring := [34%N].

(** The line feed of the template literals. *)
Definition nl : jsstring := [10%N].

(** [a === b] on strings. *)
Fixpoint eqb (a b : jsstring) : bool :=
  match a, b with
  | [], [] => true
  | x :: a', y :: b' => (x =? y)%N && eqb a' b'
  | _, _ => false
  end.

(** A string is falsy exactly when it is empty. *)
Definition truthy (s : jsstring) : bool :=
  match s with [] => false | _ :: _ => true end.

(** WhiteSpace and LineTerminator code units: what [\s] matches and what
    [String.prototype.trim] strips. *)
Definition is_space (c : N) : bool :=
  ((9 <=? c) && (c <=? 13) || (c =? 32) || (c =? 160) || (c =? 5760)
   || (8192 <=? c) && (c <=? 8202) || (c =? 8232) || (c =? 8233)
   || (c =? 8239) || (c =? 8287) || (c =? 12288) || (c =? 65279))%N.

Fixpoint trimStart (s : jsstring) : jsstring :=
  match s with
  | [] => []
  | c :: s' => if is_space c then trimStart s' else s
  end.

Definition trimEnd (s : jsstring) : jsstring := rev (trimStart (rev s)).

Definition trim (s : jsstring) : jsstring := trimEnd (trimStart s).

(** [s.split(/\s+/)]: the pieces between maximal runs of white space; a run
    at either end leaves an empty piece there, and the empty string splits
    into one empty piece. *)
Fixpoint split_go (in_sep : bool) (cur : jsstring) (s : jsstring)
  : list jsstring :=
  match s with
  | [] => [cur]
  | c :: s' =>
    if is_space c then
      if in_sep then split_go true cur s' else cur :: split_go true [] s'
    else split_go false (cur ++ [c]) s'
  end.

Definition split_ws (s : jsstring) : list jsstring := split_go false [] s.

(** [s.split(ch)] for a one-unit separator. *)
Fixpoint split_on_go (sep : N) (cur : jsstring) (s : jsstring)
  : list jsstring :=
  match s with
  | [] => [cur]
  | c :: s' =>
    if (c =? sep)%N then cur :: split_on_go sep [] s'
    else split_on_go sep (cur ++ [c]) s'
  end.

Definition split_on (sep : N) (s : jsstring) : list jsstring :=
  split_on_go sep [] s.

(** [xs.join(sep)]. *)
Fixpoint join (sep : jsstring) (xs : list jsstring) : jsstring :=
  match xs with
  | [] => []
  | [x] => x
  | x :: xs' => x ++ sep ++ join sep xs'
  end.

(** [s.startsWith(p)]. *)
Fixpoint startsWith (p s : jsstring) : bool :=
  match p, s with
  | [], _ => true
  | x :: p', y :: s' => (x =? y)%N && startsWith p' s'
  | _ :: _, [] => false
  end.

(** [s.includes(p)]. *)
Fixpoint includes (p s : jsstring) : bool :=
  startsWith p s || match s with [] => false | _ :: s' => includes p s' end.

(** [xs.includes(x)] on an array of strings. *)
Definition arrayIncludes (x : jsstring) (xs : list jsstring) : bool :=
  existsb (eqb x) xs.

(** [s.slice(n)] for [0 <= n]. *)
Definition slice_from (n : nat) (s : jsstring) : jsstring := skipn n s.

(** [s.toLowerCase()].  Only [A]..[Z] are mapped; the interpreters compare
    the result with ASCII command names that hold no letter another code
    unit lowers to, so the comparisons come out as in the engine.  The
    result itself is the engine's for a text whose upper-case letters are
    all among [A]..[Z]; for other texts the one place that shows it, the
    [Command not found] line of [executeCommand], may read otherwise. *)
Definition lowerUnit (c : N) : N :=
  if ((65 <=? c) && (c <=? 90))%N then (c + 32)%N else c.

Definition toLowerCase (s : jsstring) : jsstring := map lowerUnit s.

(** [a.localeCompare(b)], by code units.  On every pair of names the
    filesystem holds in one directory this is the order the collation
    gives: the names differ first at an ASCII letter or digit of one case. *)
Fixpoint localeCompare (a b : jsstring) : Z :=
  match a, b with
  | [], [] => 0%Z
  | [], _ :: _ => (-1)%Z
  | _ :: _, [] => 1%Z
  | x :: a', y :: b' =>
    if (x <? y)%N then (-1)%Z
    else if (y <? x)%N then 1%Z
    else localeCompare a' b'
  end.

(** [xs.sort(cmp)]: the sort of the engine is stable; with a comparator
    that is a total preorder every stable sort returns this list. *)
Section Sort.

Variable A : Type.
Variable cmp : A -> A -> Z.

Fixpoint insert_sorted (x : A) (l : list A) : list A :=
  match l with
  | [] => [x]
  | y :: l' => if (cmp x y <=? 0)%Z then x :: l else y :: insert_sorted x l'
  end.

Definition sort (l : list A) : list A := fold_right insert_sorted [] l.

End Sort.

End JS.

(* ===================================================================== *)
(** ** The general-purpose shell: [Terminal] *)
(* ===================================================================== *)

Module Terminal.
Import JS.

(** *** Transcript lines

    The [id] and [timestamp] of a line are drawn from the clock and are read
    by the renderer only; they are left out. *)
Inductive LineType := command | output | error.

Record TerminalLine := {
  type : LineType;
  content : jsstring;
  animate : option bool
}.

(** *** The virtual filesystem *)

Definition directorySet : list jsstring := [
  lit "~";
  lit "~/projects";
  lit "~/certifications";
  lit "~/certifications/cloud";
  lit "~/certifications/cybersecurity";
  lit "~/certifications/leadership";
  lit "~/certifications/participations";
  lit "~/certifications/programming"
].

(** [directorySet.has(p)]. *)
Definition has (p : jsstring) : bool := arrayIncludes p directorySet.

Record CertFile := {
  cf_name : jsstring;
  category : jsstring;
  cf_content : jsstring
}.

Definition certificationFiles : list CertFile := [
  {| cf_name := lit "cloudCertificate1.txt"; category := lit "cloud";
     cf_content := lit "Migrate MySQL Databases to Cloud SQL – Verified credential." |};
  {| cf_name := lit "leadershipCertificate1.txt"; category := lit "leadership";
     cf_content := lit "Leadership Certificate 1 – Core team leadership principles, communication, and strategic planning." |};
  {| cf_name := lit "leadershipCertificate2.txt"; category := lit "leadership";
     cf_content := lit "Leadership Certificate 2 – Advanced leadership focusing on decision-making and organizational impact." |};
  {| cf_name := lit "participationCertificate1.txt"; category := lit "participations";
     cf_content := lit "Participation Certificate 1 – Event / workshop acknowledgment." |};
  {| cf_name := lit "participationCertificate2.txt"; category := lit "participations";
     cf_content := lit "Participation Certificate 2 – Recognized contribution to program/event." |};
  {| cf_name := lit "participationCertificate3.txt"; category := lit "participations";
     cf_content := lit "Participation Certificate 3 – Recognized contribution to program/event." |};
  {| cf_name := lit "participationCertificate4.txt"; category := lit "participations";
     cf_content := lit "Participation Certificate 4 – Recognized contribution to program/event." |};
  {| cf_name := lit "on-going.txt"; category := lit "cloud";
     cf_content := lit "Additional cloud certifications in progress." |};
  {| cf_name := lit "on-going.txt"; category := lit "cybersecurity";
     cf_content := lit "Cybersecurity certifications / labs in progress." |};
  {| cf_name := lit "on-going.txt"; category := lit "leadership";
     cf_content := lit "Leadership development & training on-going." |};
  {| cf_name := lit "on-going.txt"; category := lit "participations";
     cf_content := lit "Community & event participation on-going." |};
  {| cf_name := lit "on-going.txt"; category := lit "programming";
     cf_content := lit "Advanced programming / specialization certifications in progress." |}
].

Record ProjectFile := { pf_name : jsstring; pf_content : jsstring }.

Definition projectFiles : list ProjectFile := [
  {| pf_name := lit "portfolio-terminal.md";
     pf_content := lit "Interactive portfolio terminal + CTF micro puzzle + encryption visualizer." |};
  {| pf_name := lit "guilds.md";
     pf_content := lit "GDG On Campus UIC Guilds Platform - https://guilds.gdgocuic.org"
                   ++ nl ++ lit "For the University Club Fair" |}
].

(** The [path -> content] object, in the order its literal lists the keys. *)
Definition fileContents : list (jsstring * jsstring) :=
  [ (lit "~/about",
     lit "This portfolio looks like a Kali terminal because that's where I think, experiment, and (carefully) break things. I like breaking concepts down, solving puzzles, and hiding a few of my own."
     ++ nl ++
     lit "There's a tiny CTF woven in—wander the filesystem, read files, and see what you can uncover."
     ++ nl ++
     lit "Current focus: cybersecurity, automation, AI, and relentless learning."
     ++ nl);
    (lit "~/experience",
     lit "• CCTV Technician and Administrator" ++ nl
     ++ lit "• Freelancing Projects" ++ nl);
    (lit "~/contact",
     lit "Email: mailto:geoffrey@diapana.dev" ++ nl
     ++ lit "GitHub: https://github.com/yyerf" ++ nl);
    (lit "~/password.txt",
     lit "Geof" ++ dquote ++ lit "fr3y" ++ dquote ++ lit "!@yyerf" ++ nl
     ++ lit "for the CTF(?)" ++ nl) ]
  ++ map (fun f => (lit "~/certifications/" ++ category f ++ lit "/" ++ cf_name f,
                    cf_content f)) certificationFiles
  ++ map (fun f => (lit "~/projects/" ++ pf_name f, pf_content f)) projectFiles.

(** [obj[key]] on an object built from a literal: the last entry written
    under a key is the one read. *)
Fixpoint lookup (V : Type) (k : jsstring) (o : list (jsstring * V))
  : option V :=
  match o with
  | [] => None
  | (k', v) :: o' =>
    match lookup k o' with
    | Some v' => Some v'
    | None => if eqb k k' then Some v else None
    end
  end.

Definition normalizePath (path : jsstring) : jsstring :=
  if eqb path (lit "~") then lit "~"
  else rev (let fix strip (r : jsstring) : jsstring :=
                  match r with
                  | c :: r' => if (c =? 47)%N then strip r' else r
                  | [] => []
                  end
            in strip (rev path)).

Inductive Kind := dir | file.

Record Entry := { name : jsstring; kind : Kind }.

(** The comparator of the category listings. *)
Definition ongoingLast (a b : Entry) : Z :=
  let aOngoing := eqb (name a) (lit "on-going.txt") in
  let bOngoing := eqb (name b) (lit "on-going.txt") in
  if aOngoing && negb bOngoing then 1%Z
  else if bOngoing && negb aOngoing then (-1)%Z
  else localeCompare (name a) (name b).

Definition byName (a b : Entry) : Z := localeCompare (name a) (name b).

(** [/^~\/certifications\/(cloud|cybersecurity|leadership|participations|programming)$/.test(p)] *)
Definition isCategoryPath (p : jsstring) : bool :=
  existsb (fun c => eqb p (lit "~/certifications/" ++ c))
          [lit "cloud"; lit "cybersecurity"; lit "leadership";
           lit "participations"; lit "programming"].

Definition listDirectory (path : jsstring) : list Entry :=
  let normalized := normalizePath path in
  if eqb normalized (lit "~") then
    let baseEntries := [
      {| name := lit "about"; kind := file |};
      {| name := lit "certifications"; kind := dir |};
      {| name := lit "contact"; kind := file |};
      {| name := lit "experience"; kind := file |};
      {| name := lit "password.txt"; kind := file |};
      {| name := lit "projects"; kind := dir |} ] in
    map (fun e => {| name := name e; kind := kind e |}) (sort byName baseEntries)
  else if eqb normalized (lit "~/certifications") then
    let subDirs :=
      map (fun d => {| name := d; kind := dir |})
          [lit "cloud"; lit "cybersecurity"; lit "leadership";
           lit "participations"; lit "programming"] in
    sort byName subDirs
  else if isCategoryPath normalized then
    let category' := nth_error (split_on 47 normalized) 2 in
    let files :=
      map (fun f => {| name := cf_name f; kind := file |})
          (filter (fun f => match category' with
                            | Some c => eqb (category f) c
                            | None => false
                            end) certificationFiles) in
    sort ongoingLast files
  else if eqb normalized (lit "~/projects") then
    sort byName (map (fun f => {| name := pf_name f; kind := file |}) projectFiles)
  else [].

(** *** Path resolution for [cd] *)

(** [current === '~' ? [] : current.replace(/^~\//, '').split('/')] *)
Definition currentSegments (current : jsstring) : list jsstring :=
  if eqb current (lit "~") then []
  else split_on 47 (if startsWith (lit "~/") current
                    then slice_from 2 current else current).

(** The candidate path built for a target other than [~], [.] and [..]. *)
Definition candidateAbs (current trimmed : jsstring) : jsstring :=
  let fromHome := if startsWith (lit "~/") trimmed
                  then slice_from 2 trimmed else trimmed in
  if startsWith (lit "~/") trimmed
  then (if truthy fromHome then lit "~/" ++ fromHome else lit "~")
  else lit "~/" ++ join (lit "/") (currentSegments current ++ [fromHome]).

(** ['~/<first>'] of a candidate. *)
Definition firstLevel (candidate : jsstring) : jsstring :=
  join (lit "/") (firstn 2 (split_on 47 candidate)).

Definition resolvePath (current target : jsstring) : jsstring :=
  let trimmed := trim target in
  if negb (truthy trimmed) then current
  else if eqb trimmed (lit "~") then lit "~"
  else if eqb trimmed (lit ".") then current
  else if eqb trimmed (lit "..") then
    match currentSegments current with
    | [] => lit "~"
    | segs =>
      let popped := removelast segs in
      match popped with
      | [] => lit "~"
      | _ => lit "~/" ++ join (lit "/") popped
      end
    end
  else
    let candidate := candidateAbs current trimmed in
    if eqb candidate (lit "~") then lit "~"
    else
      let parts := split_on 47 candidate in
      if has (firstLevel candidate) then
        if match nth_error parts 1 with
           | Some p1 => eqb p1 (lit "certifications")
           | None => false
           end
           && (List.length parts =? 3)%nat
        then
          let subPath := join (lit "/") (firstn 3 parts) in
          if has subPath then subPath else firstLevel candidate
        else firstLevel candidate
      else current.

(** *** The interpreter *)

Record State := {
  lines : list TerminalLine;
  currentInput : jsstring;
  commandHistory : list jsstring;
  currentPath : jsstring;
  historyIndex : Z
}.

Definition setLines (f : list TerminalLine -> list TerminalLine) (s : State) :=
  {| lines := f (lines s); currentInput := currentInput s;
     commandHistory := commandHistory s; currentPath := currentPath s;
     historyIndex := historyIndex s |}.

Definition setCurrentInput (v : jsstring) (s : State) :=
  {| lines := lines s; currentInput := v;
     commandHistory := commandHistory s; currentPath := currentPath s;
     historyIndex := historyIndex s |}.

Definition setCommandHistory (f : list jsstring -> list jsstring) (s : State) :=
  {| lines := lines s; currentInput := currentInput s;
     commandHistory := f (commandHistory s); currentPath := currentPath s;
     historyIndex := historyIndex s |}.

Definition setCurrentPath (v : jsstring) (s : State) :=
  {| lines := lines s; currentInput := currentInput s;
     commandHistory := commandHistory s; currentPath := v;
     historyIndex := historyIndex s |}.

Definition setHistoryIndex (v : Z) (s : State) :=
  {| lines := lines s; currentInput := currentInput s;
     commandHistory := commandHistory s; currentPath := currentPath s;
     historyIndex := v |}.

(** [setLines(prev => [...prev, ...more])] *)
Definition pushLines (more : list TerminalLine) (s : State) : State :=
  setLines (fun prev => prev ++ more) s.

(** An entry of the [commands] table; [execute] may queue a state update
    ([clear] does) and returns the lines to print. *)
Record Command := {
  cmd_name : jsstring;
  description : jsstring;
  execute : State -> list jsstring * State
}.

Definition commands : list (jsstring * Command) := [
  (lit "help",
   {| cmd_name := lit "help";
      description := lit "Show available commands";
      execute := fun s =>
        ([ lit "Available commands:";
           lit "  cat <name>   - Show file ";
           lit "  cd <dir>     - Change directory ";
           lit "  clear        - Clear the terminal";
           lit "  help         - Show this help message";
           lit "  ls [path]    - List directory contents";
           lit "  pwd          - Print current directory";
           lit "  whoami       - Display user info";
           lit "" ], s) |});
  (lit "whoami",
   {| cmd_name := lit "whoami";
      description := lit "Display current user info";
      execute := fun s =>
        ([ lit "__avatar__";
           lit "Hi, I'm Geoffrey – a 3rd Year Computer Science student.";
           dquote ++ lit "Builder by passion, breaker by curiosity." ++ dquote;
           lit "Current Focus: Cloud (GCP), Cybersecurity fundamentals, TypeScript, Python + AI tooling.";
           lit "Core Skills: React · TypeScript · Python · Networking · Linux · Git · (currently learning Laravel)";
           lit "Legacy GitHub Pages: https://diapz.github.io";
           lit "Current GitHub: https://github.com/yyerf";
           lit "Type 'help' to see all commands.";
           lit "" ], s) |});
  (lit "clear",
   {| cmd_name := lit "clear";
      description := lit "Clear the terminal";
      execute := fun s => ([], setLines (fun _ => []) s) |})
].

Definition kindName (k : Kind) : jsstring :=
  match k with dir => lit "dir" | file => lit "file" end.

Definition outLine (c : jsstring) : TerminalLine :=
  {| type := output; content := c; animate := Some true |}.

Definition errLine (c : jsstring) : TerminalLine :=
  {| type := error; content := c; animate := Some true |}.

(** One call of [executeCommand]: [st] is the state of the render the
    handler closes over (what [currentPath] reads), the result is the state
    once the queued updates are applied.  [commands] is a plain object, so
    [commands[trimmedInput]] is also truthy at the two lower-case names it
    inherits from [Object.prototype], [constructor] and [__proto__]; what is
    found there has no [execute], the call raises [TypeError], and the
    handler ends with the updates queued so far (the history and its
    cursor) and nothing else: no echo, no error line, the input box left
    as it is. *)
Definition executeCommand (st : State) (input : jsstring) : State :=
  let raw := trim input in
  match split_ws raw with
  | [] => st
  | cmd :: args =>
    let trimmedInput := toLowerCase cmd in
    if negb (truthy trimmedInput) then st
    else
      let s := setHistoryIndex (-1)
                 (setCommandHistory (fun prev => prev ++ [raw]) st) in
      let promptTop :=
        {| type := command;
           content := lit "┌──(yyerf㉿portfolio)-[" ++ currentPath st ++ lit "]";
           animate := Some false |} in
      let promptBottom :=
        {| type := command; content := lit "└─$ " ++ raw;
           animate := Some false |} in
      if eqb trimmedInput (lit "cd") then
        let target := join (lit " ") args in
        let next := resolvePath (currentPath st) target in
        if eqb next (currentPath st) then
          if truthy target && negb (eqb target (lit "."))
             && negb (eqb target (lit "~"))
          then
            let err := lit "bash: cd: " ++ target
                       ++ lit ": No such file or directory" in
            setCurrentInput []
              (pushLines [promptTop; promptBottom;
                          {| type := error; content := err; animate := None |}] s)
          else setCurrentInput [] (pushLines [promptTop; promptBottom] s)
        else
          setCurrentInput []
            (pushLines [promptTop; promptBottom] (setCurrentPath next s))
      else if eqb trimmedInput (lit "pwd") then
        setCurrentInput []
          (pushLines [promptTop; promptBottom; outLine (currentPath st)] s)
      else if eqb trimmedInput (lit "ls") then
        let targetArg := join (lit " ") args in
        let targetPath := if truthy targetArg
                          then resolvePath (currentPath st) targetArg
                          else currentPath st in
        let normalized := normalizePath targetPath in
        let entries := listDirectory normalized in
        let encoded :=
          join (lit " ")
               (map (fun e => name e ++ lit "|" ++ kindName (kind e)) entries) in
        let marker := lit "__ls__:" ++ encoded in
        let outputLines := match entries with
                           | [] => []
                           | _ :: _ => [outLine marker]
                           end in
        setCurrentInput []
          (pushLines ([promptTop; promptBottom] ++ outputLines) s)
      else if eqb trimmedInput (lit "cat") then
        let targetArg := join (lit " ") args in
        if negb (truthy targetArg) then
          setCurrentInput []
            (pushLines [promptTop; promptBottom;
                        errLine (lit "cat: missing operand")] s)
        else
          let candidate :=
            if startsWith (lit "~/") targetArg then targetArg
            else if eqb (currentPath st) (lit "~") then lit "~/" ++ targetArg
            else currentPath st ++ lit "/" ++ targetArg in
          let normalized := normalizePath candidate in
          let content := lookup normalized fileContents in
          if match content with Some c => truthy c | None => false end then
            setCurrentInput []
              (pushLines ([promptTop; promptBottom]
                          ++ map outLine
                               (split_on 10 (match content with
                                             | Some c => c
                                             | None => []
                                             end))) s)
          else
            let err := lit "cat: " ++ targetArg ++ lit ": No such file" in
            setCurrentInput []
              (pushLines [promptTop; promptBottom; errLine err] s)
      else
        match lookup trimmedInput commands with
        | Some c =>
          if eqb trimmedInput (lit "clear") then
            setCurrentInput [] (snd (execute c s))
          else if arrayIncludes trimmedInput
                    [lit "about"; lit "experience"; lit "contact"; lit "skills";
                     lit "projects"; lit "certifications"; lit "password.txt"]
          then
            let err := trimmedInput ++ lit ": command not found" in
            setCurrentInput []
              (pushLines [promptTop; promptBottom; errLine err] s)
          else
            let (out, s') := execute c s in
            setCurrentInput []
              (pushLines ([promptTop; promptBottom]
                          ++ map (fun c => {| type := output; content := c;
                                              animate := Some true |}) out) s')
        | None =>
          if arrayIncludes trimmedInput [lit "constructor"; lit "__proto__"]
          then s
          else
            let errorLine :=
              errLine (lit "Command not found: " ++ trimmedInput
                       ++ lit ". Type 'help' for available commands.") in
            setCurrentInput []
              (pushLines [promptTop; promptBottom; errorLine] s)
        end
  end.

(** The two prompt lines a command is echoed with. *)
Definition echo (st : State) (input : jsstring) : list TerminalLine :=
  [ {| type := command;
       content := lit "┌──(yyerf㉿portfolio)-[" ++ currentPath st ++ lit "]";
       animate := Some false |};
    {| type := command; content := lit "└─$ " ++ trim input;
       animate := Some false |} ].

(** The state after the mount effect has printed the introduction. *)
Definition init : State :=
  {| lines :=
       [ {| type := command; content := lit "┌──(yyerf㉿portfolio)-[whoami]";
            animate := None |};
         {| type := command; content := lit "└─$ whoami";
            animate := Some false |} ]
       ++ map (fun c => {| type := output; content := c; animate := Some false |})
              (match lookup (lit "whoami") commands with
               | Some c => fst (execute c
                                  {| lines := []; currentInput := [];
                                     commandHistory := []; currentPath := lit "~";
                                     historyIndex := (-1)%Z |})
               | None => []
               end);
     currentInput := [];
     commandHistory := [];
     currentPath := lit "~";
     historyIndex := (-1)%Z |}.

End Terminal.

(* ===================================================================== *)
(** ** The capture-the-flag shell: [CTFChallenge] *)
(* ===================================================================== *)

Module CTF.
Import JS.

(** *** Numbers, the clock and the persisted record

    A time is a number of milliseconds; the fraction of a millisecond a
    timestamp may carry is not represented.  A number read back from the
    store may be any value [parseFloat] returns, also [NaN] or an infinity. *)
Inductive number := NaN | NegInfinity | Num (ms : Z) | Infinity.

(** [a < b] on numbers. *)
Definition lt (a b : number) : bool :=
  match a, b with
  | NaN, _ => false
  | _, NaN => false
  | NegInfinity, NegInfinity => false
  | NegInfinity, _ => true
  | Num _, NegInfinity => false
  | Num x, Num y => (x <? y)%Z
  | Num _, Infinity => true
  | Infinity, _ => false
  end.

(** What [performance.now()] returns. *)
Definition timestamp := Z.

Bind Scope Z_scope with timestamp.

(** [localStorage], reduced to the one key the component touches
    ([BEST_KEY = 'ctf_best_time_ms']).  Access may be refused (reading) and a
    write may be rejected (quota); both raise in the browser. *)
Record Storage := {
  item : option jsstring;
  readable : bool;
  writable : bool
}.

(** [localStorage.getItem(BEST_KEY)]: [None] is the exception, [Some None]
    is [null]. *)
Definition getItem (w : Storage) : option (option jsstring) :=
  if readable w then Some (item w) else None.

(** [localStorage.setItem(BEST_KEY, v)]: [None] is the exception. *)
Definition setItem (w : Storage) (v : jsstring) : option Storage :=
  if writable w
  then Some {| item := Some v; readable := readable w; writable := writable w |}
  else None.

(** *** Constants *)

Definition FINAL_FLAG : jsstring := lit "FLAG{ur_cr@ck3d_brUh}".
Definition HIDDEN_FILENAME : jsstring := lit ".shadow".
Definition READ_ME : jsstring := lit "readme.txt".
Definition FINAL_CIPHER : jsstring := lit "c3Nz.blk".

Definition firstGreeting : jsstring :=
  lit "There is a puzzle buried in this sandboxed shell. Escalate, enumerate, observe.".

Definition rootRiddle : jsstring :=
  lit "I hide in plain sight yet ls ignores me. Reveal all and you'll see me. Then read what I whisper.".

Definition escalateRiddle : jsstring :=
  lit "I speak before the crown is worn:" ++ nl
  ++ lit "The path to secrets stays withdrawn." ++ nl
  ++ lit "Ascend with ritual (two words, both short)," ++ nl
  ++ lit "Then list again for a hidden report.".

Definition cipherRiddle : jsstring :=
  lit "Three roles rotate above: count their first initials then compress them. Present the cipher where S is the key. (use the encryption with the binary of 100000000)".

Definition PASSWORD : jsstring :=
  lit "Geof" ++ dquote ++ lit "fr3y" ++ dquote ++ lit "!@yyerf".

(** [const [cwd] = useState('~')]: no setter is ever taken. *)
Definition cwd : jsstring := lit "~".

(** *** Transcript and component state

    The [id] of a line is random and only keys the rendered list. *)
Inductive LineKind := kOut | kSys | kErr | kRoot.

Record PuzzleLine := { content : jsstring; kind : LineKind }.

Record State := {
  lines : list PuzzleLine;
  input : jsstring;
  solved : bool;
  root : bool;
  revealedHidden : bool;
  awaitingPassword : bool;
  startTime : option timestamp;
  bestTime : option number;
  celebrated : bool
}.

Definition setLines (f : list PuzzleLine -> list PuzzleLine) (s : State) :=
  {| lines := f (lines s); input := input s; solved := solved s;
     root := root s; revealedHidden := revealedHidden s;
     awaitingPassword := awaitingPassword s; startTime := startTime s;
     bestTime := bestTime s; celebrated := celebrated s |}.

Definition setInput (v : jsstring) (s : State) :=
  {| lines := lines s; input := v; solved := solved s;
     root := root s; revealedHidden := revealedHidden s;
     awaitingPassword := awaitingPassword s; startTime := startTime s;
     bestTime := bestTime s; celebrated := celebrated s |}.

Definition setSolved (v : bool) (s : State) :=
  {| lines := lines s; input := input s; solved := v;
     root := root s; revealedHidden := revealedHidden s;
     awaitingPassword := awaitingPassword s; startTime := startTime s;
     bestTime := bestTime s; celebrated := celebrated s |}.

Definition setRoot (v : bool) (s : State) :=
  {| lines := lines s; input := input s; solved := solved s;
     root := v; revealedHidden := revealedHidden s;
     awaitingPassword := awaitingPassword s; startTime := startTime s;
     bestTime := bestTime s; celebrated := celebrated s |}.

Definition setRevealedHidden (v : bool) (s : State) :=
  {| lines := lines s; input := input s; solved := solved s;
     root := root s; revealedHidden := v;
     awaitingPassword := awaitingPassword s; startTime := startTime s;
     bestTime := bestTime s; celebrated := celebrated s |}.

Definition setAwaitingPassword (v : bool) (s : State) :=
  {| lines := lines s; input := input s; solved := solved s;
     root := root s; revealedHidden := revealedHidden s;
     awaitingPassword := v; startTime := startTime s;
     bestTime := bestTime s; celebrated := celebrated s |}.

Definition setStartTime (v : option timestamp) (s : State) :=
  {| lines := lines s; input := input s; solved := solved s;
     root := root s; revealedHidden := revealedHidden s;
     awaitingPassword := awaitingPassword s; startTime := v;
     bestTime := bestTime s; celebrated := celebrated s |}.

Definition setBestTime (v : option number) (s : State) :=
  {| lines := lines s; input := input s; solved := solved s;
     root := root s; revealedHidden := revealedHidden s;
     awaitingPassword := awaitingPassword s; startTime := startTime s;
     bestTime := v; celebrated := celebrated s |}.

Definition setCelebrated (v : bool) (s : State) :=
  {| lines := lines s; input := input s; solved := solved s;
     root := root s; revealedHidden := revealedHidden s;
     awaitingPassword := awaitingPassword s; startTime := startTime s;
     bestTime := bestTime s; celebrated := v |}.

(** The component as first rendered. *)
Definition init : State :=
  {| lines := [ {| content := firstGreeting; kind := kSys |} ];
     input := []; solved := false; root := false; revealedHidden := false;
     awaitingPassword := false; startTime := None; bestTime := None;
     celebrated := false |}.

(** [append(content, kind = 'out')] *)
Definition append (c : jsstring) (k : LineKind) (s : State) : State :=
  setLines (fun l => l ++ [ {| content := c; kind := k |} ]) s.

(** The prompt reads [root] from the render the handler closes over. *)
Definition promptTop (st : State) : jsstring :=
  if root st then lit "┌──(root㉿yyerf)-[" ++ cwd ++ lit "]"
  else lit "┌──(yyerf㉿portfolio)-[" ++ cwd ++ lit "]".

Definition promptBottom (st : State) : jsstring :=
  if root st then lit "└─$" else lit "└─$".

Definition help (s : State) : State :=
  append (lit "clear          clear screen") kOut
  (append (lit "submit <flag>  submit flag") kOut
  (append (lit "cipher <val>   attempt final cipher") kOut
  (append (lit "cat <file>     read file") kOut
  (append (lit "ls [-a]        list files") kOut
  (append (lit "help           show this help") kOut s))))).

(** In the next three, [st] is the render's snapshot and [s] the state the
    queued updates have built so far. *)
Definition doLs (all : bool) (st s : State) : State :=
  let base := [READ_ME] in
  if root st && all then
    append (join (lit "  ") (base ++ [HIDDEN_FILENAME])) kOut
           (setRevealedHidden true s)
  else append (join (lit "  ") base) kOut s.

(** The listing target of the specification's [ls [-a] [path]]: the first
    argument token that is not an option, and the working directory when
    there is none.  It follows the words of the specification; the shell
    has no counterpart, [doLs] receives the flag and nothing else. *)
Definition specLsTarget (rest : list jsstring) : jsstring :=
  match filter (fun a => negb (startsWith (lit "-") a)) rest with
  | [] => cwd
  | p :: _ => p
  end.

Definition doCat (file : jsstring) (st s : State) : State :=
  if eqb file READ_ME then append escalateRiddle kOut s
  else if eqb file HIDDEN_FILENAME then
    if negb (root st) then
      append (lit "cat: " ++ file ++ lit ": No such file or directory") kErr s
    else if negb (revealedHidden st) then
      append (lit "Permission denied (list with -a after escalation).") kErr s
    else append cipherRiddle kOut s
  else append (lit "cat: " ++ file ++ lit ": No such file or directory") kErr s.

Definition tryCipher (val : jsstring) (s : State) : State :=
  if eqb val FINAL_CIPHER then
    append (lit "Use submission: FLAG{ur_cr@ck3d_brUh}") kOut
           (append (lit "Cipher accepted. Decrypting ...") kOut s)
  else append (lit "Invalid cipher") kErr s.

Section Host.

(** The conversions of the engine between numbers and their text. *)
Variable parseFloat : jsstring -> number.
Variable numberToString : number -> jsstring.

(** The best time a solve is compared with: the one in memory or, when
    there is none, the one read from the store. *)
Definition existingBest (w : Storage) (st : State) : option number :=
  match bestTime st with
  | Some b => Some b
  | None =>
    match getItem w with
    | Some (Some stored) =>
      if truthy stored then Some (parseFloat stored) else None
    | _ => None
    end
  end.

(** One call of [onCommand] at clock reading [now], with store [w] and the
    render's state [st]. *)
Definition onCommand (now : timestamp) (w : Storage) (st : State)
           (raw : jsstring) : State * Storage :=
  let t := trim raw in
  if negb (truthy t) then (st, w)
  else
    let s := setInput [] st in
    let s := match startTime st with
             | None => setStartTime (Some now) s
             | Some _ => s
             end in
    if awaitingPassword st then
      if eqb t PASSWORD then
        (append rootRiddle kOut
           (append (lit "Privilege escalation successful. Welcome root.") kRoot
              (setRoot true (setAwaitingPassword false s))), w)
      else (append (lit "Sorry, try again.") kErr s, w)
    else
      let s := append (promptBottom st ++ lit " " ++ t) kSys
                 (append (promptTop st) kSys s) in
      let parts := split_ws t in
      let cmd := hd_error parts in
      let rest := tl parts in
      let arg := join (lit " ") rest in
      let case c := match cmd with Some x => eqb x c | None => false end in
      if case (lit "help") then (help s, w)
      else if case (lit "clear") then (setLines (fun _ => []) s, w)
      else if case (lit "sudo") then
        if match hd_error rest with
           | Some r0 => eqb r0 (lit "su")
           | None => false
           end
        then
          if root st then (append (lit "Already root.") kErr s, w)
          else (append (lit "[sudo] password for yyerf:") kSys
                  (setAwaitingPassword true s), w)
        else (append (lit "usage: sudo su") kErr s, w)
      else if case (lit "ls") then
        (doLs (arrayIncludes (lit "-a") rest) st s, w)
      else if case (lit "cat") then
        if negb (truthy arg) then (append (lit "cat: missing operand") kErr s, w)
        else (doCat arg st s, w)
      else if case (lit "submit") then
        if eqb arg FINAL_FLAG then
          let s := setSolved true
                     (append (lit "✔ Correct flag. Challenge complete.") kRoot s) in
          match startTime st with
          | Some t0 =>
            let duration := Num (now - t0) in
            let best := existingBest w st in
            if match best with
               | None => true
               | Some b => lt duration b
               end
            then
              (setBestTime (Some duration) s,
               match setItem w (numberToString duration) with
               | Some w' => w'
               | None => w
               end)
            else (setBestTime best s, w)
          | None => (s, w)
          end
        else (append (lit "Incorrect flag") kErr s, w)
      else if case (lit "cipher") then (tryCipher arg s, w)
      else (append (lit "Unknown command") kErr s, w).

(** The two prompt lines a command is echoed with, outside the password
    phase. *)
Definition echo (st : State) (raw : jsstring) : list PuzzleLine :=
  [ {| content := promptTop st; kind := kSys |};
    {| content := promptBottom st ++ lit " " ++ trim raw; kind := kSys |} ].

(** The state a command starts from: the input box emptied, the timer
    started if it was not running, and the two prompt lines added. *)
Definition echoed (now : timestamp) (st : State) (raw : jsstring) : State :=
  append (promptBottom st ++ lit " " ++ trim raw) kSys
    (append (promptTop st) kSys
       (match startTime st with
        | None => setStartTime (Some now) (setInput [] st)
        | Some _ => setInput [] st
        end)).

(** The mount effect that loads the best time. *)
Definition loadBest (w : Storage) (s : State) : State :=
  match getItem w with
  | Some (Some stored) =>
    if truthy stored then setBestTime (Some (parseFloat stored)) s else s
  | _ => s
  end.

(** The celebration effect, as far as the state goes. *)
Definition celebrate (s : State) : State :=
  if solved s && negb (celebrated s) then setCelebrated true s else s.

(** The Replay button. *)
Definition replay (s : State) : State :=
  setStartTime None
    (setCelebrated false
       (setSolved false
          (setLines (fun _ => [ {| content := firstGreeting; kind := kSys |} ]) s))).

(** What the user can do: type a line and submit it at some clock reading,
    or press Replay.  The effects run after the handler. *)
Inductive Event := Line (now : timestamp) (raw : jsstring) | Replay.

Definition step (c : State * Storage) (e : Event) : State * Storage :=
  match e with
  | Line now raw =>
    let (s, w) := onCommand now (snd c) (setInput raw (fst c)) raw in
    (celebrate s, w)
  | Replay => (celebrate (replay (fst c)), snd c)
  end.

Definition run (c : State * Storage) (es : list Event) : State * Storage :=
  fold_left step es c.

(** The clock reading of the first non-blank line of a run. *)
Fixpoint firstCommandTime (es : list Event) : option timestamp :=
  match es with
  | [] => None
  | Line now raw :: es' =>
    if truthy (trim raw) then Some now else firstCommandTime es'
  | Replay :: es' => firstCommandTime es'
  end.

End Host.

End CTF.

(* ===================================================================== *)
(** ** A host to run the shell on *)
(* ===================================================================== *)

(** Number conversions restricted to what the examples need: a text of
    decimal digits reads as the number it spells and any other text as
    [NaN]; a number prints as its decimal numeral.  The engine agrees on
    digit-only texts, on texts with no numeric prefix, and on integers. *)
Module SampleHost.
Import JS.

Fixpoint digitsValue (acc : Z) (s : jsstring) : option Z :=
  match s with
  | [] => Some acc
  | c :: s' =>
    if ((48 <=? c) && (c <=? 57))%N
    then digitsValue (acc * 10 + Z.of_N (c - 48)) s'
    else None
  end.

Definition parseFloat (s : jsstring) : CTF.number :=
  match s with
  | [] => CTF.NaN
  | _ :: _ =>
    match digitsValue 0 s with
    | Some z => CTF.Num z
    | None => CTF.NaN
    end
  end.

Fixpoint uintUnits (d : Decimal.uint) : jsstring :=
  match d with
  | Decimal.Nil => []
  | Decimal.D0 d' => 48%N :: uintUnits d'
  | Decimal.D1 d' => 49%N :: uintUnits d'
  | Decimal.D2 d' => 50%N :: uintUnits d'
  | Decimal.D3 d' => 51%N :: uintUnits d'
  | Decimal.D4 d' => 52%N :: uintUnits d'
  | Decimal.D5 d' => 53%N :: uintUnits d'
  | Decimal.D6 d' => 54%N :: uintUnits d'
  | Decimal.D7 d' => 55%N :: uintUnits d'
  | Decimal.D8 d' => 56%N :: uintUnits d'
  | Decimal.D9 d' => 57%N :: uintUnits d'
  end.

Definition numberToString (x : CTF.number) : jsstring :=
  match x with
  | CTF.NaN => lit "NaN"
  | CTF.Infinity => lit "Infinity"
  | CTF.NegInfinity => lit "-Infinity"
  | CTF.Num z =>
    match Z.to_int z with
    | Decimal.Pos d => uintUnits d
    | Decimal.Neg d => 45%N :: uintUnits d
    end
  end.

(** A store that holds [v] under the key and accepts reads and writes. *)
Definition storeOf (v : option jsstring) : CTF.Storage :=
  {| CTF.item := v; CTF.readable := true; CTF.writable := true |}.

(** The line that submits the flag. *)
Definition flagLine : jsstring := lit "submit FLAG{ur_cr@ck3d_brUh}".

(** A session on that host: fresh, with nothing stored. *)
Definition fresh : CTF.State * CTF.Storage :=
  (CTF.loadBest parseFloat (storeOf None) CTF.init, storeOf None).

(** The session after [sudo su] has asked for the password. *)
Definition asked : CTF.State * CTF.Storage :=
  CTF.run parseFloat numberToString fresh [CTF.Line 1000 (lit "sudo su")].

(** The session after the password has been given. *)
Definition rooted : CTF.State * CTF.Storage :=
  CTF.run parseFloat numberToString asked [CTF.Line 2000 CTF.PASSWORD].

(** A session that starts with a best time of 5000 ms stored. *)
Definition withBest : CTF.State * CTF.Storage :=
  (CTF.loadBest parseFloat (storeOf (Some (lit "5000"))) CTF.init,
   storeOf (Some (lit "5000"))).

End SampleHost.

(* ===================================================================== *)
(** ** The order of a listing *)
(* ===================================================================== *)

Module Listing.
Import JS.

(** Lexicographic order on names, code unit by code unit. *)
Fixpoint lexleb (a b : jsstring) : bool :=
  match a, b with
  | [], _ => true
  | _ :: _, [] => false
  | x :: a', y :: b' => (x <? y)%N || ((x =? y)%N && lexleb a' b')
  end.

Definition lex_le (a b : jsstring) : Prop := lexleb a b = true.

(** [names] is in lexicographic order, except that [sentinel], when it is
    listed, comes after every other name. *)
Definition sentinelLast (sentinel : jsstring) (names : list jsstring) : Prop :=
  exists body,
    (names = body \/ names = body ++ [sentinel])
    /\ ~ In sentinel body
    /\ StronglySorted lex_le body.

(** A checker for [sentinelLast]. *)
Fixpoint sortedb (l : list jsstring) : bool :=
  match l with
  | [] => true
  | x :: l' => forallb (lexleb x) l' && sortedb l'
  end.

Definition stripLast (sentinel : jsstring) (names : list jsstring)
  : list jsstring :=
  match rev names with
  | x :: r => if eqb x sentinel then rev r else names
  | [] => names
  end.

Definition sentinelLastb (sentinel : jsstring) (names : list jsstring) : bool :=
  let body := stripLast sentinel names in
  negb (arrayIncludes sentinel body) && sortedb body.

End Listing.

(* ===================================================================== *)
(** ** The keyboard and the renderer of the general-purpose shell *)
(* ===================================================================== *)

Module Keys.
Import JS Terminal.

(** [xs[i]]; [None] is [undefined]. *)
Definition arrayAt (xs : list jsstring) (i : Z) : option jsstring :=
  if (i <? 0)%Z then None else nth_error xs (Z.to_nat i).

(** [commandHistory[commandHistory.length - 1 - newIndex]].  The handlers
    read inside the bounds of the history, so [undefined] is never stored
    in the input box; it is written here as the empty string. *)
Definition recall (st : State) (newIndex : Z) : jsstring :=
  match arrayAt (commandHistory st)
                (Z.of_nat (List.length (commandHistory st)) - 1 - newIndex) with
  | Some v => v
  | None => []
  end.

(** The keys [handleKeyDown] tells apart. *)
Inductive Key := Enter | ArrowUp | ArrowDown | Tab | OtherKey.

Definition handleKeyDown (st : State) (k : Key) : State :=
  match k with
  | Enter => executeCommand st (currentInput st)
  | ArrowUp =>
    if (0 <? List.length (commandHistory st))%nat then
      let newIndex := (historyIndex st + 1)%Z in
      if (newIndex <? Z.of_nat (List.length (commandHistory st)))%Z then
        setCurrentInput (recall st newIndex) (setHistoryIndex newIndex st)
      else st
    else st
  | ArrowDown =>
    if (0 <? historyIndex st)%Z then
      let newIndex := (historyIndex st - 1)%Z in
      setCurrentInput (recall st newIndex) (setHistoryIndex newIndex st)
    else if (historyIndex st =? 0)%Z then
      setCurrentInput [] (setHistoryIndex (-1) st)
    else st
  | Tab =>
    let matches :=
      filter (fun cmd => startsWith (toLowerCase (currentInput st)) cmd)
             (map fst commands) in
    match matches with
    | [m] => setCurrentInput m st
    | _ => st
    end
  | OtherKey => st
  end.

(** What reaches the component from the input box: a key, or a change of
    the text ([onChange]). *)
Inductive Action := Press (k : Key) | Change (v : jsstring).

Definition act (st : State) (a : Action) : State :=
  match a with
  | Press k => handleKeyDown st k
  | Change v => setCurrentInput v st
  end.

Definition session (st : State) (acts : list Action) : State :=
  fold_left act acts st.

(** *** How the renderer reads a listing line back *)

(** [line.content.replace(/^__ls__:/, '')] *)
Definition stripMarker (content : jsstring) : jsstring :=
  if startsWith (lit "__ls__:") content then slice_from 7 content else content.

(** The items of a listing line and, for each, [const [name, kind] =
    it.split('|')]; a missing [kind] is [undefined]. *)
Definition decodeLs (content : jsstring) : list (jsstring * option jsstring) :=
  let encoded := stripMarker content in
  let items := if truthy encoded then split_on 32 encoded else [] in
  map (fun it => let parts := split_on 124 it in
                 (hd [] parts, nth_error parts 1)) items.

(** The line [ls] prints for a list of entries. *)
Definition marker (entries : list Entry) : jsstring :=
  lit "__ls__:"
  ++ join (lit " ") (map (fun e => name e ++ lit "|" ++ kindName (kind e)) entries).

(** *** The previews of the certificate files *)

Definition certImageMap : list (jsstring * jsstring) := [
  (lit "cloudCertificate1.txt", lit "/certs/cloud/cloudCertificate1.png");
  (lit "leadershipCertificate1.txt", lit "/certs/leadership/leadershipCertificate1.pdf");
  (lit "leadershipCertificate2.txt", lit "/certs/leadership/leadershipCertificate2.pdf");
  (lit "participationCertificate1.txt", lit "/certs/participations/particiaptionCertificate1.pdf");
  (lit "participationCertificate2.txt", lit "/certs/participations/participationCertificate2.png");
  (lit "participationCertificate3.txt", lit "/certs/participations/participationCertificate3.pdf");
  (lit "participationCertificate4.txt", lit "/certs/participations/participationCertificate4.pdf");
  (lit "on-going.txt", lit "/placeholder.svg")
].

Record CertMeta := {
  display : jsstring;
  verifyUrl : option jsstring;
  ongoing : option bool
}.

Definition certMeta : list (jsstring * CertMeta) := [
  (lit "cloudCertificate1.txt",
   {| display := lit "Migrate MySQL Databases to Cloud SQL";
      verifyUrl := Some (lit "https://www.credly.com/badges/0e49fa80-f092-481f-8a57-083a887eccda/public_url");
      ongoing := None |});
  (lit "leadershipCertificate1.txt",
   {| display := lit "Leadership Certificate 1"; verifyUrl := None; ongoing := None |});
  (lit "leadershipCertificate2.txt",
   {| display := lit "Leadership Certificate 2"; verifyUrl := None; ongoing := None |});
  (lit "participationCertificate1.txt",
   {| display := lit "Participation Certificate 1"; verifyUrl := None; ongoing := None |});
  (lit "participationCertificate2.txt",
   {| display := lit "Participation Certificate 2"; verifyUrl := None; ongoing := None |});
  (lit "participationCertificate3.txt",
   {| display := lit "Participation Certificate 3"; verifyUrl := None; ongoing := None |});
  (lit "participationCertificate4.txt",
   {| display := lit "Participation Certificate 4"; verifyUrl := None; ongoing := None |});
  (lit "on-going.txt",
   {| display := lit "On-going"; verifyUrl := None; ongoing := Some true |})
].

End Keys.

(* ===================================================================== *)
(** ** The encryption visualizer: [generateSimCipher] *)
(* ===================================================================== *)

Module Visualizer.
Import JS.

Inductive Algo := AES256 | RSAOAEP.

(** The UTF-8 bytes of a code point. *)
Definition utf8Bytes (cp : N) : list N :=
  if (cp <? 128)%N then [cp]
  else if (cp <? 2048)%N then [(192 + cp / 64)%N; (128 + cp mod 64)%N]
  else if (cp <? 65536)%N then
    [(224 + cp / 4096)%N; (128 + (cp / 64) mod 64)%N; (128 + cp mod 64)%N]
  else
    [(240 + cp / 262144)%N; (128 + (cp / 4096) mod 64)%N;
     (128 + (cp / 64) mod 64)%N; (128 + cp mod 64)%N].

Definition isHighSurrogate (c : N) : bool := ((55296 <=? c) && (c <=? 56319))%N.
Definition isLowSurrogate (c : N) : bool := ((56320 <=? c) && (c <=? 57343))%N.

(** [unescape(encodeURIComponent(s))]: the string whose code units are the
    UTF-8 bytes of [s].  [None] is the [URIError] that
    [encodeURIComponent] raises on a surrogate without its pair. *)
Fixpoint binaryString (s : jsstring) : option (list N) :=
  match s with
  | [] => Some []
  | c :: s' =>
    if isHighSurrogate c then
      match s' with
      | d :: s'' =>
        if isLowSurrogate d then
          option_map
            (app (utf8Bytes (65536 + (c - 55296) * 1024 + (d - 56320))%N))
            (binaryString s'')
        else None
      | [] => None
      end
    else if isLowSurrogate c then None
    else option_map (app (utf8Bytes c)) (binaryString s')
  end.

Definition alphabet : jsstring :=
  lit "ABCDEFGHIJKLMNOPQRSTUVWXYZabcdefghijklmnopqrstuvwxyz0123456789+/".

Definition b64char (i : N) : N := nth (N.to_nat i) alphabet 0%N.

(** [btoa] on a string of bytes. *)
Fixpoint btoa (bs : list N) : jsstring :=
  match bs with
  | [] => []
  | [a] => [b64char (a / 4); b64char ((a mod 4) * 16); 61; 61]%N
  | [a; b] =>
    [b64char (a / 4); b64char ((a mod 4) * 16 + b / 16);
     b64char ((b mod 16) * 4); 61]%N
  | a :: b :: c :: r =>
    [b64char (a / 4); b64char ((a mod 4) * 16 + b / 16);
     b64char ((b mod 16) * 4 + c / 64); b64char (c mod 64)]%N ++ btoa r
  end.

(** [s.replace(/=+$/, '')] *)
Fixpoint dropEquals (r : jsstring) : jsstring :=
  match r with
  | c :: r' => if (c =? 61)%N then dropEquals r' else r
  | [] => []
  end.

Definition stripPadding (s : jsstring) : jsstring := rev (dropEquals (rev s)).

(** [n.toString(16)] *)
Fixpoint hexUnits (d : Hexadecimal.uint) : jsstring :=
  match d with
  | Hexadecimal.Nil => []
  | Hexadecimal.D0 d' => 48%N :: hexUnits d'
  | Hexadecimal.D1 d' => 49%N :: hexUnits d'
  | Hexadecimal.D2 d' => 50%N :: hexUnits d'
  | Hexadecimal.D3 d' => 51%N :: hexUnits d'
  | Hexadecimal.D4 d' => 52%N :: hexUnits d'
  | Hexadecimal.D5 d' => 53%N :: hexUnits d'
  | Hexadecimal.D6 d' => 54%N :: hexUnits d'
  | Hexadecimal.D7 d' => 55%N :: hexUnits d'
  | Hexadecimal.D8 d' => 56%N :: hexUnits d'
  | Hexadecimal.D9 d' => 57%N :: hexUnits d'
  | Hexadecimal.Da d' => 97%N :: hexUnits d'
  | Hexadecimal.Db d' => 98%N :: hexUnits d'
  | Hexadecimal.Dc d' => 99%N :: hexUnits d'
  | Hexadecimal.Dd d' => 100%N :: hexUnits d'
  | Hexadecimal.De d' => 101%N :: hexUnits d'
  | Hexadecimal.Df d' => 102%N :: hexUnits d'
  end.

Definition toString16 (n : N) : jsstring := hexUnits (N.to_hex_uint n).

(** [s.padStart(2, '0')] *)
Definition padStart2 (s : jsstring) : jsstring :=
  repeat 48%N (2 - List.length s) ++ s.

Definition generateSimCipher (algo : Algo) (input : jsstring) : option jsstring :=
  match binaryString input with
  | None => None
  | Some bytes =>
    let digest := firstn 24 (btoa bytes) in
    Some (match algo with
          | AES256 => stripPadding digest ++ lit ".blk"
          | RSAOAEP =>
            lit "0x"
            ++ firstn 48 (List.concat (map (fun c => padStart2 (toString16 c)) digest))
          end)
  end.

End Visualizer.

(* ===================================================================== *)
(** ** The badge and the celebration of the puzzle panel *)
(* ===================================================================== *)

Module Panel.
Import JS CTF.

(** [n.toString()] for an integer. *)
Definition intToString (z : Z) : jsstring :=
  match Z.to_int z with
  | Decimal.Pos d => SampleHost.uintUnits d
  | Decimal.Neg d => 45%N :: SampleHost.uintUnits d
  end.

Definition pad2 (s : jsstring) : jsstring :=
  repeat 48%N (2 - List.length s) ++ s.

(** [formatTime(ms)]: [Math.floor] of a time in whole milliseconds is the
    flooring division; [%] keeps the sign of the dividend. *)
Definition formatTime (ms : number) : jsstring :=
  match ms with
  | Num z =>
    let total := (z / 1000)%Z in
    let m := (total / 60)%Z in
    let s := Z.rem total 60 in
    pad2 (intToString m) ++ lit ":" ++ pad2 (intToString s)
  | NaN => lit "NaN:NaN"
  | Infinity => lit "Infinity:NaN"
  | NegInfinity => lit "-Infinity:NaN"
  end.

Section Host.

Variable parseFloat : jsstring -> number.
Variable numberToString : number -> jsstring.

(** The state a handler leaves, before the effects run. *)
Definition handled (c : State * Storage) (e : Event) : State * Storage :=
  match e with
  | Line now raw =>
    onCommand parseFloat numberToString now (snd c) (setInput raw (fst c)) raw
  | Replay => (replay (fst c), snd c)
  end.

(** The celebration effect runs its body (chord and confetti) when the
    puzzle is solved and not yet celebrated. *)
Definition fires (s : State) : bool := solved s && negb (celebrated s).

(** How many times the body runs over a sequence of events. *)
Fixpoint celebrations (c : State * Storage) (es : list Event) : nat :=
  match es with
  | [] => 0
  | e :: es' =>
    (if fires (fst (handled c e)) then 1 else 0)
    + celebrations (step parseFloat numberToString c e) es'
  end.

(** How many times Replay is pressed. *)
Fixpoint replays (es : list Event) : nat :=
  match es with
  | [] => 0
  | Replay :: es' => S (replays es')
  | Line _ _ :: es' => replays es'
  end.

End Host.

End Panel.

(* ===================================================================== *)
(** * Properties *)
(* ===================================================================== *)

(** ** Strings *)

Module JSFacts.
Import JS.

Lemma eqb_eq (a b : jsstring) : eqb a b = true <-> a = b.
Proof.
  revert b; induction a as [|x a IH]; intros [|y b]; simpl;
    try (split; [discriminate | discriminate]); try tauto.
  rewrite andb_true_iff, N.eqb_eq, IH.
  split; [intros [-> ->]; reflexivity | intros H; inversion H; auto].
Qed.

Lemma eqb_refl (a : jsstring) : eqb a a = true.
Proof. apply eqb_eq; reflexivity. Qed.

Lemma eqb_neq (a b : jsstring) : eqb a b = false <-> a <> b.
Proof.
  rewrite <- eqb_eq. destruct (eqb a b); split; congruence.
Qed.

Lemma truthy_true (s : jsstring) : truthy s = true <-> s <> [].
Proof. destruct s; simpl; split; congruence. Qed.

Lemma arrayIncludes_In (x : jsstring) (xs : list jsstring) :
  arrayIncludes x xs = true <-> In x xs.
Proof.
  unfold arrayIncludes. rewrite existsb_exists. split.
  - intros (y & Hy & E). apply eqb_eq in E. subst; assumption.
  - intros H. exists x. split; [assumption | apply eqb_refl].
Qed.

Lemma split_on_go_cons (sep : N) (s cur : jsstring) :
  exists p ps, split_on_go sep cur s = p :: ps.
Proof.
  revert cur; induction s as [|c s IH]; intros cur; simpl.
  - eauto.
  - destruct (c =? sep)%N; eauto.
Qed.

Lemma join_cons (sep x : jsstring) (p : jsstring) (ps : list jsstring) :
  join sep (x :: p :: ps) = x ++ sep ++ join sep (p :: ps).
Proof. reflexivity. Qed.

(** Splitting at a separator and joining with it gives the text back. *)
Lemma join_split_on_go (sep : N) (s cur : jsstring) :
  join [sep] (split_on_go sep cur s) = cur ++ s.
Proof.
  revert cur; induction s as [|c s IH]; intros cur; simpl split_on_go.
  - simpl. now rewrite app_nil_r.
  - destruct (c =? sep)%N eqn:E.
    + apply N.eqb_eq in E; subst c.
      destruct (split_on_go_cons sep s []) as (p & ps & Hp).
      specialize (IH []). rewrite Hp in *. rewrite join_cons, IH. reflexivity.
    + rewrite IH, <- app_assoc. reflexivity.
Qed.

Lemma join_split_on (sep : N) (s : jsstring) :
  join [sep] (split_on sep s) = s.
Proof. unfold split_on. now rewrite join_split_on_go. Qed.

(** A line whose first token is a word is not blank. *)
Lemma first_token_not_blank (t c : jsstring) (rest : list jsstring) :
  split_ws t = c :: rest -> c <> [] -> truthy t = true.
Proof.
  destruct t; simpl; [intros H; inversion H; congruence | reflexivity].
Qed.

End JSFacts.

(** ** The virtual filesystem and [cd] *)

Module TerminalFacts.
Import JS JSFacts Terminal.

Lemma has_true (p : jsstring) : has p = true <-> In p directorySet.
Proof. apply arrayIncludes_In. Qed.

Lemma root_registered (c : jsstring) : has c = false -> eqb c (lit "~") = false.
Proof.
  intros H. apply eqb_neq. intros ->. discriminate H.
Qed.

(** On a target that is not blank, [~], [.] or [..], resolution is the
    validation of the candidate. *)
Lemma resolvePath_candidate (current target : jsstring) :
  trim target <> [] -> trim target <> lit "~" ->
  trim target <> lit "." -> trim target <> lit ".." ->
  resolvePath current target =
  let candidate := candidateAbs current (trim target) in
  if eqb candidate (lit "~") then lit "~"
  else
    let parts := split_on 47 candidate in
    if has (firstLevel candidate) then
      if match nth_error parts 1 with
         | Some p1 => eqb p1 (lit "certifications")
         | None => false
         end
         && (List.length parts =? 3)%nat
      then
        let subPath := join (lit "/") (firstn 3 parts) in
        if has subPath then subPath else firstLevel candidate
      else firstLevel candidate
    else current.
Proof.
  intros H0 H1 H2 H3. unfold resolvePath.
  apply truthy_true in H0. apply eqb_neq in H1, H2, H3.
  rewrite H0, H1, H2, H3. reflexivity.
Qed.

(** The three-part prefix of a three-part path is the path. *)
Lemma three_parts_whole (c : jsstring) :
  List.length (split_on 47 c) = 3%nat ->
  join (lit "/") (firstn 3 (split_on 47 c)) = c.
Proof.
  intros H. rewrite <- H, firstn_all. apply (join_split_on 47).
Qed.

(** Whatever the candidate, resolution gives the prior path or a registered
    directory. *)
Lemma candidate_prior_or_registered (current target : jsstring) :
  trim target <> [] -> trim target <> lit "~" ->
  trim target <> lit "." -> trim target <> lit ".." ->
  resolvePath current target = current
  \/ has (resolvePath current target) = true.
Proof.
  intros H0 H1 H2 H3.
  rewrite (resolvePath_candidate current target H0 H1 H2 H3). cbv zeta.
  set (candidate := candidateAbs current (trim target)).
  destruct (eqb candidate (lit "~")); [right; reflexivity |].
  destruct (has (firstLevel candidate)) eqn:Hf; [| left; reflexivity].
  destruct (_ && _); [| right; assumption].
  destruct (has (join _ _)) eqn:Hs; right; assumption.
Qed.

(** C4, as amended: the candidate is validated through its first level.  A
    registered candidate is the result; an unregistered candidate is refused
    (the prior path is kept) when its first-level prefix [~/<first>] is not
    registered, and otherwise falls back to that registered first-level
    directory; the result is always the prior path or a registered
    directory, and the registry goes one level below a first-level
    directory under [certifications] only, so a third level is reached
    only by a candidate that is exactly a registered subpath there. *)
Theorem resolvePath_validation (current target : jsstring) :
  trim target <> [] -> trim target <> lit "~" ->
  trim target <> lit "." -> trim target <> lit ".." ->
  let candidate := candidateAbs current (trim target) in
  let result := resolvePath current target in
  (has candidate = true -> result = candidate)
  /\ (has candidate = false -> has (firstLevel candidate) = false ->
      result = current)
  /\ (has candidate = false -> has (firstLevel candidate) = true ->
      result = firstLevel candidate)
  /\ (result = current \/ has result = true)
  /\ (forall p : jsstring, has p = true ->
      (List.length (split_on 47 p) <= 3)%nat
      /\ (List.length (split_on 47 p) = 3%nat ->
          nth_error (split_on 47 p) 1 = Some (lit "certifications"))).
Proof.
  intros H0 H1 H2 H3 candidate result.
  assert (E : result = _)
    by (apply (resolvePath_candidate current target); assumption).
  fold candidate in E. cbv zeta in E.
  split; [| split; [| split; [| split]]].
  - clearbody candidate result. subst result.
    intros Hc. apply has_true in Hc. unfold directorySet in Hc. simpl in Hc.
    repeat (destruct Hc as [<- | Hc]; [vm_compute; reflexivity |]).
    contradiction.
  - clearbody candidate result. subst result.
    intros Hc Hf. rewrite (root_registered _ Hc), Hf. reflexivity.
  - clearbody candidate result. subst result.
    intros Hc Hf. rewrite (root_registered _ Hc), Hf.
    destruct (match nth_error (split_on 47 candidate) 1 with
              | Some p1 => eqb p1 (lit "certifications")
              | None => false
              end); cbn [andb]; [| reflexivity].
    destruct (List.length (split_on 47 candidate) =? 3)%nat eqn:L;
      [| reflexivity].
    apply Nat.eqb_eq in L. rewrite (three_parts_whole _ L), Hc. reflexivity.
  - exact (candidate_prior_or_registered current target H0 H1 H2 H3).
  - intros p Hp. apply has_true in Hp. unfold directorySet in Hp. simpl in Hp.
    repeat (destruct Hp as [<- | Hp];
            [vm_compute; split;
             [lia | intros E'; first [discriminate E' | reflexivity]] |]).
    contradiction.
Qed.

(** The amended statement at [cd certifications/cloud] from the home
    directory and at the refused [cd nowhere]. *)
Lemma resolvePath_validation_witness :
  resolvePath (lit "~") (lit "certifications/cloud") = lit "~/certifications/cloud"
  /\ resolvePath (lit "~/projects") (lit "~/nowhere") = lit "~/projects".
Proof.
  split.
  - apply (resolvePath_validation (lit "~") (lit "certifications/cloud"));
      vm_compute; congruence.
  - apply (resolvePath_validation (lit "~/projects") (lit "~/nowhere"));
      vm_compute; congruence.
Defined.

(** C4 as stated fails: from the home directory the candidate
    [~/projects/x] is not registered, yet the path becomes [~/projects];
    from [~/certifications/cloud] the unregistered candidate
    [~/certifications/cloud/x] moves the path up to [~/certifications]. *)
Lemma resolvePath_unregistered_counterexample :
  (has (candidateAbs (lit "~") (trim (lit "projects/x"))) = false
   /\ resolvePath (lit "~") (lit "projects/x") = lit "~/projects"
   /\ resolvePath (lit "~") (lit "projects/x") <> lit "~")
  /\ (has (candidateAbs (lit "~/certifications/cloud") (trim (lit "x"))) = false
      /\ resolvePath (lit "~/certifications/cloud") (lit "x")
         = lit "~/certifications"
      /\ resolvePath (lit "~/certifications/cloud") (lit "x")
         <> lit "~/certifications/cloud").
Proof.
  repeat split; vm_compute; congruence.
Qed.

(** *** The [cd] command *)

(** Reads the fields of a state the setters have built, leaving the texts
    alone. *)
Ltac state_fields :=
  cbn [lines currentInput commandHistory currentPath historyIndex
       pushLines setCurrentInput setCurrentPath setHistoryIndex
       setCommandHistory setLines app].

(** What the [cd] branch does.  It takes the result of [resolvePath] being
    the current path as its sign of failure: for a target other than the
    empty one, [.] and [~], when resolution gives back the current path the
    interpreter adds, after the echo, exactly one error line, which reads
    [bash: cd: <target>: No such file or directory], and leaves
    [currentPath] unchanged; when resolution gives another path,
    [currentPath] becomes that path and only the echo is added. *)
Lemma cd_outcomes (st : State) (input cmd : jsstring) (args : list jsstring) :
  split_ws (trim input) = cmd :: args ->
  toLowerCase cmd = lit "cd" ->
  let target := join (lit " ") args in
  let next := resolvePath (currentPath st) target in
  let st' := executeCommand st input in
  (next = currentPath st ->
   target <> [] -> target <> lit "." -> target <> lit "~" ->
   lines st' =
     lines st ++ echo st input
       ++ [ {| type := error;
               content := lit "bash: cd: " ++ target
                          ++ lit ": No such file or directory";
               animate := None |} ]
   /\ currentPath st' = currentPath st)
  /\ (next <> currentPath st ->
      currentPath st' = next /\ lines st' = lines st ++ echo st input).
Proof.
  intros Hs Hc target next st'. subst st'. unfold executeCommand.
  rewrite Hs, Hc.
  change (negb (truthy (lit "cd"))) with false. cbv iota.
  change (eqb (lit "cd") (lit "cd")) with true. cbv iota zeta.
  fold target. fold next. split.
  - intros Hn Ht Hdot Hhome.
    rewrite Hn, eqb_refl.
    apply truthy_true in Ht. apply eqb_neq in Hdot, Hhome.
    rewrite Ht, Hdot, Hhome. cbn [andb negb]. unfold echo. state_fields.
    split; reflexivity.
  - intros Hn. apply eqb_neq in Hn. rewrite Hn. unfold echo. state_fields.
    split; reflexivity.
Qed.

(** [cd nonexistent-dir] typed in the home directory: the part of C7 the
    code keeps, but for the text of the line. *)
Lemma cd_outcomes_witness :
  lines (executeCommand init (lit "cd nonexistent-dir")) =
    lines init ++ echo init (lit "cd nonexistent-dir")
      ++ [ {| type := error;
              content := lit "bash: cd: nonexistent-dir: No such file or directory";
              animate := None |} ]
  /\ currentPath (executeCommand init (lit "cd nonexistent-dir"))
     = currentPath init.
Proof.
  generalize (cd_outcomes init (lit "cd nonexistent-dir") (cmd := lit "cd")
                          (args := [lit "nonexistent-dir"])).
  vm_compute. intros H.
  apply H; solve [reflexivity | discriminate].
Defined.

(** The text of the line: [cd nonexistent-dir] does not resolve, and the
    one error line reads
    [bash: cd: nonexistent-dir: No such file or directory], not
    [cd: nonexistent-dir: No such file or directory]. *)
Lemma cd_error_text_counterexample :
  let st' := executeCommand init (lit "cd nonexistent-dir") in
  resolvePath (currentPath init) (lit "nonexistent-dir") = currentPath init
  /\ filter (fun l => match type l with error => true | _ => false end)
            (skipn (List.length (lines init)) (lines st'))
     = [ {| type := error;
            content := lit "bash: cd: nonexistent-dir: No such file or directory";
            animate := None |} ]
  /\ (forall l, In l (lines st') ->
      content l <> lit "cd: nonexistent-dir: No such file or directory").
Proof.
  vm_compute. split; [reflexivity |]. split; [reflexivity |].
  intros l Hl.
  repeat (destruct Hl as [<- | Hl]; [discriminate |]).
  contradiction.
Qed.

(** A registered directory given by its full path resolves to itself. *)
Lemma resolvePath_self (q : jsstring) :
  has q = true -> resolvePath q q = q.
Proof.
  intros H. apply has_true in H. unfold directorySet in H. cbn [In] in H.
  repeat (destruct H as [<- | H]; [vm_compute; reflexivity |]).
  contradiction H.
Qed.

(** C7 at the failing inputs: a [cd] that resolves, but to the directory
    the shell is already in, is answered as if it had failed.  At home,
    [cd ..] (which pops nothing there) and [cd ~/]; in any other registered
    directory, [cd] to the full path of that directory: resolution gives a
    registered directory, the one the target names, and still the
    interpreter adds the error line
    [bash: cd: <target>: No such file or directory]. *)
Theorem cd_to_current_directory_errors (st : State) (input cmd : jsstring)
        (args : list jsstring) :
  split_ws (trim input) = cmd :: args ->
  toLowerCase cmd = lit "cd" ->
  has (currentPath st) = true ->
  let target := join (lit " ") args in
  (currentPath st = lit "~" /\ (target = lit ".." \/ target = lit "~/"))
  \/ (currentPath st <> lit "~" /\ target = currentPath st) ->
  let st' := executeCommand st input in
  resolvePath (currentPath st) target = currentPath st
  /\ has (resolvePath (currentPath st) target) = true
  /\ lines st' =
       lines st ++ echo st input
         ++ [ {| type := error;
                 content := lit "bash: cd: " ++ target
                            ++ lit ": No such file or directory";
                 animate := None |} ]
  /\ currentPath st' = currentPath st.
Proof.
  intros Hs Hc Hreg target Hcase st'.
  assert (Hres : resolvePath (currentPath st) target = currentPath st).
  { destruct Hcase as [[Hh [Ht | Ht]] | [_ Ht]]; rewrite Ht.
    - rewrite Hh. vm_compute. reflexivity.
    - rewrite Hh. vm_compute. reflexivity.
    - apply resolvePath_self. exact Hreg. }
  assert (Hne : target <> [] /\ target <> lit "." /\ target <> lit "~").
  { destruct Hcase as [[Hh [Ht | Ht]] | [Hh Ht]]; rewrite Ht.
    - repeat split; discriminate.
    - repeat split; discriminate.
    - apply has_true in Hreg. unfold directorySet in Hreg. cbn [In] in Hreg.
      repeat split; try exact Hh;
        repeat (destruct Hreg as [<- | Hreg]; [discriminate |]);
        contradiction Hreg. }
  destruct Hne as (N1 & N2 & N3).
  destruct (cd_outcomes st input Hs Hc) as [Hsame _].
  destruct (Hsame Hres N1 N2 N3) as [Hl Hp].
  split; [exact Hres |]. split; [rewrite Hres; exact Hreg |].
  split; [exact Hl | exact Hp].
Qed.

(** C7 at [cd ..] typed in the home directory. *)
Lemma cd_to_current_directory_errors_witness :
  resolvePath (currentPath init) (lit "..") = currentPath init
  /\ lines (executeCommand init (lit "cd .."))
     = lines init ++ echo init (lit "cd ..")
       ++ [ {| type := error;
               content := lit "bash: cd: ..: No such file or directory";
               animate := None |} ].
Proof.
  pose proof (@cd_to_current_directory_errors init (lit "cd ..") (lit "cd")
                [lit ".."]
                ltac:(vm_compute; reflexivity) ltac:(vm_compute; reflexivity)
                ltac:(vm_compute; reflexivity)
                ltac:(left; split; [vm_compute; reflexivity | left; reflexivity]))
    as (H1 & _ & H3 & _).
  split; [exact H1 |]. rewrite H3. vm_compute. reflexivity.
Defined.

(** *** The working directory stays registered *)

Lemma resolvePath_registered (current target : jsstring) :
  has current = true -> has (resolvePath current target) = true.
Proof.
  intros Hc.
  destruct (truthy (trim target)) eqn:H0;
    [| unfold resolvePath; rewrite H0; exact Hc].
  destruct (eqb (trim target) (lit "~")) eqn:H1;
    [unfold resolvePath; rewrite H0, H1; reflexivity |].
  destruct (eqb (trim target) (lit ".")) eqn:H2;
    [unfold resolvePath; rewrite H0, H1, H2; exact Hc |].
  destruct (eqb (trim target) (lit "..")) eqn:H3.
  - unfold resolvePath. rewrite H0, H1, H2, H3. cbn [negb].
    apply has_true in Hc. unfold directorySet in Hc. simpl in Hc.
    repeat (destruct Hc as [<- | Hc]; [vm_compute; reflexivity |]).
    contradiction.
  - apply truthy_true in H0. apply eqb_neq in H1, H2, H3.
    destruct (candidate_prior_or_registered current target H0 H1 H2 H3)
      as [-> | Hr]; assumption.
Qed.

Lemma command_keeps_path (k : jsstring) (c : Command) (s : State) :
  lookup k commands = Some c ->
  currentPath (snd (execute c s)) = currentPath s.
Proof.
  unfold commands. cbn [lookup].
  destruct (eqb k (lit "clear")); [intros E; inversion E; reflexivity |].
  destruct (eqb k (lit "whoami")); [intros E; inversion E; reflexivity |].
  destruct (eqb k (lit "help")); [intros E; inversion E; reflexivity |].
  discriminate.
Qed.

(** Whatever is typed, a working directory that is registered stays
    registered: only [cd] moves it, and only to what [resolvePath] gives. *)
Lemma executeCommand_path_registered (st : State) (input : jsstring) :
  has (currentPath st) = true ->
  has (currentPath (executeCommand st input)) = true.
Proof.
  intros Hc. unfold executeCommand.
  destruct (split_ws (trim input)) as [|cmd args]; [exact Hc |].
  destruct (negb (truthy (toLowerCase cmd))); [exact Hc |].
  cbv zeta.
  destruct (eqb (toLowerCase cmd) (lit "cd")).
  { destruct (eqb (resolvePath _ _) (currentPath st)) eqn:E.
    - destruct (_ && _); state_fields; exact Hc.
    - state_fields. apply resolvePath_registered. exact Hc. }
  destruct (eqb (toLowerCase cmd) (lit "pwd")); [state_fields; exact Hc |].
  destruct (eqb (toLowerCase cmd) (lit "ls")); [state_fields; exact Hc |].
  destruct (eqb (toLowerCase cmd) (lit "cat")).
  { destruct (negb _); [state_fields; exact Hc |].
    destruct (match lookup _ fileContents with
              | Some c => truthy c | None => false end);
      state_fields; exact Hc. }
  destruct (lookup (toLowerCase cmd) commands) as [c |] eqn:L;
    [| destruct (arrayIncludes _ _); state_fields; exact Hc].
  pose proof (@command_keeps_path _ c
                (setHistoryIndex (-1)
                   (setCommandHistory (fun prev => prev ++ [trim input]) st))
                L) as Hk.
  destruct (eqb (toLowerCase cmd) (lit "clear")).
  { cbn [currentPath setCurrentInput]. rewrite Hk. exact Hc. }
  destruct (arrayIncludes _ _); [state_fields; exact Hc |].
  destruct (execute c _) as [out s'] eqn:E. cbn [snd] in Hk.
  state_fields. rewrite Hk. exact Hc.
Qed.

(** *** Some runs of the resolver and of the listing *)

Example resolve_into_category :
  resolvePath (lit "~/certifications") (lit "cloud")
  = lit "~/certifications/cloud".
Proof. vm_compute. reflexivity. Qed.

Example resolve_parent :
  resolvePath (lit "~/certifications/cloud") (lit "..")
  = lit "~/certifications"
  /\ resolvePath (lit "~") (lit "..") = lit "~".
Proof. vm_compute. split; reflexivity. Qed.

Example resolve_from_home_prefix :
  resolvePath (lit "~/projects") (lit "~/certifications/leadership")
  = lit "~/certifications/leadership"
  /\ resolvePath (lit "~/projects") (lit "~/") = lit "~".
Proof. vm_compute. split; reflexivity. Qed.

Example list_participations :
  map name (listDirectory (lit "~/certifications/participations/"))
  = [ lit "participationCertificate1.txt"; lit "participationCertificate2.txt";
      lit "participationCertificate3.txt"; lit "participationCertificate4.txt";
      lit "on-going.txt" ].
Proof. vm_compute. reflexivity. Qed.

Example list_home :
  map name (listDirectory (lit "~"))
  = [ lit "about"; lit "certifications"; lit "contact"; lit "experience";
      lit "password.txt"; lit "projects" ].
Proof. vm_compute. reflexivity. Qed.

End TerminalFacts.

(** ** The capture-the-flag shell *)

Module CTFFacts.
Import JS JSFacts CTF.

(** Reads the fields of a state the setters have built, leaving the texts
    alone. *)
Ltac fields :=
  cbn [lines input solved root revealedHidden awaitingPassword startTime
       bestTime celebrated help append setLines setInput setSolved setRoot
       setRevealedHidden setAwaitingPassword setStartTime setBestTime
       setCelebrated fst snd];
  rewrite <- ?app_assoc; cbn [app].

(** Evaluates the comparisons of two literals. *)
Ltac literal_tests :=
  repeat match goal with
         | |- context [eqb (lit ?a) (lit ?b)] =>
           let v := eval vm_compute in (eqb (lit a) (lit b)) in
           let E := fresh "E" in
           assert (E : eqb (lit a) (lit b) = v) by (vm_compute; reflexivity);
           rewrite E; clear E
         end.

(** Enters the [switch] of [onCommand] for a line that is not blank and is
    read outside the password phase, given its tokens. *)
Ltac dispatch Haw Hs :=
  unfold onCommand;
  rewrite (first_token_not_blank _ Hs ltac:(vm_compute; discriminate));
  rewrite Haw, Hs; cbn [negb hd_error tl]; cbv beta zeta iota;
  literal_tests; cbv beta iota.

Section Host.

Variable parseFloat : jsstring -> number.
Variable numberToString : number -> jsstring.

Local Abbreviation onCommand := (onCommand parseFloat numberToString).
Local Abbreviation run := (run parseFloat numberToString).
Local Abbreviation step := (step parseFloat numberToString).

(** *** [submit] *)

(** C1, as amended: for a line whose first token is [submit], read while
    the shell is not awaiting the password, with [arg] the rest of the
    tokens joined by one space: the puzzle is marked solved when [arg] is
    the flag literal, whatever was typed before (in particular whether a
    [cipher] line came first); on a mismatch the solved status and the
    store are unchanged and, after the echo, exactly one line is added, the
    error line [Incorrect flag]; so an unsolved puzzle becomes solved if
    and only if [arg] is the flag. *)
Theorem submit_gate (now : timestamp) (w : Storage) (st : State)
        (raw : jsstring) (rest : list jsstring) :
  awaitingPassword st = false ->
  split_ws (trim raw) = lit "submit" :: rest ->
  let arg := join (lit " ") rest in
  let st' := fst (onCommand now w st raw) in
  (arg = FINAL_FLAG -> solved st' = true)
  /\ (arg <> FINAL_FLAG ->
      solved st' = solved st
      /\ lines st' =
           lines st ++ echo st raw
             ++ [ {| content := lit "Incorrect flag"; kind := kErr |} ]
      /\ snd (onCommand now w st raw) = w)
  /\ (solved st = false -> (solved st' = true <-> arg = FINAL_FLAG))
  /\ (forall (now0 : timestamp) (raw0 : jsstring) (rest0 : list jsstring),
      split_ws (trim raw0) = lit "cipher" :: rest0 ->
      solved (fst (onCommand now w (fst (onCommand now0 w st raw0)) raw))
      = solved st').
Proof.
  intros Haw Hs arg st'.
  assert (Hsolved : forall s w0 n, awaitingPassword s = false ->
             solved (fst (onCommand n w0 s raw))
             = solved s || eqb arg FINAL_FLAG).
  { intros s w0 n Hs0. dispatch Hs0 Hs. fold arg.
    destruct (eqb arg FINAL_FLAG).
    - rewrite orb_true_r. destruct (startTime s); [| reflexivity].
      destruct (match existingBest parseFloat w0 s with
                | Some b => lt (Num (n - t)) b | None => true end);
        reflexivity.
    - rewrite orb_false_r. destruct (startTime s); reflexivity. }
  assert (Hmiss : arg <> FINAL_FLAG ->
             onCommand now w st raw
             = (append (lit "Incorrect flag") kErr (echoed now st raw), w)).
  { intros Hne. apply eqb_neq in Hne. dispatch Haw Hs. fold arg.
    rewrite Hne. unfold echoed. destruct (startTime st); reflexivity. }
  subst st'. rewrite (Hsolved _ _ _ Haw).
  split; [| split; [| split]].
  - intros E. apply eqb_eq in E. rewrite E. apply orb_true_r.
  - intros Hne. rewrite (Hmiss Hne). apply eqb_neq in Hne. rewrite Hne.
    split; [apply orb_false_r |].
    split; [| reflexivity].
    unfold echoed, echo. destruct (startTime st); fields; reflexivity.
  - intros Hu. rewrite Hu. cbn [orb]. apply eqb_eq.
  - intros now0 raw0 rest0 Hc.
    assert (Hk : awaitingPassword (fst (onCommand now0 w st raw0)) = false
                 /\ solved (fst (onCommand now0 w st raw0)) = solved st).
    { dispatch Haw Hc. unfold tryCipher.
      destruct (eqb _ FINAL_CIPHER), (startTime st); fields; auto. }
    destruct Hk as [Hk1 Hk2].
    rewrite (Hsolved _ _ _ Hk1), Hk2. reflexivity.
Qed.

(** *** [ls] and [cat] *)

Lemma hidden_truthy : truthy HIDDEN_FILENAME = true.
Proof. reflexivity. Qed.

Lemma hidden_not_readme : eqb HIDDEN_FILENAME READ_ME = false.
Proof. vm_compute. reflexivity. Qed.

Lemma cat_hidden_text :
  lit "cat: " ++ HIDDEN_FILENAME ++ lit ": No such file or directory"
  = lit "cat: .shadow: No such file or directory".
Proof. vm_compute. reflexivity. Qed.

(** C2, as amended: the one line [ls] adds to the transcript holds the
    hidden file name if and only if the shell is root and [-a] is among the
    argument tokens, whatever the other tokens are (a path among them is not
    read: the shell's [ls] has no listing target); when the name is listed,
    that same call sets [revealedHidden].  [ls] is what the shell runs, on
    the echoed transcript, for every line read as a command whose first
    token is [ls]. *)
Theorem ls_hidden_gate (rest : list jsstring) (st s : State) :
  let s' := doLs (arrayIncludes (lit "-a") rest) st s in
  (exists listing : jsstring,
      lines s' = lines s ++ [ {| content := listing; kind := kOut |} ]
      /\ (includes HIDDEN_FILENAME listing = true <->
          root st = true /\ In (lit "-a") rest)
      /\ (includes HIDDEN_FILENAME listing = true ->
          revealedHidden s' = true))
  /\ (forall (now : timestamp) (w : Storage) (raw : jsstring),
      awaitingPassword st = false ->
      split_ws (trim raw) = lit "ls" :: rest ->
      onCommand now w st raw
      = (doLs (arrayIncludes (lit "-a") rest) st (echoed now st raw), w)).
Proof.
  cbv zeta. split.
  - unfold doLs. destruct (arrayIncludes (lit "-a") rest) eqn:Ha.
    + apply arrayIncludes_In in Ha. destruct (root st) eqn:Hr; cbn [andb].
      * eexists. split; [reflexivity |].
        split; [| intros _; reflexivity].
        split; [intros _; split; [reflexivity | exact Ha]
               | intros _; vm_compute; reflexivity].
      * eexists. split; [reflexivity |].
        split; [| vm_compute; discriminate].
        split; [vm_compute; discriminate | intros (? & _); discriminate].
    + assert (Hn : ~ In (lit "-a") rest).
      { intros Hin. apply arrayIncludes_In in Hin. congruence. }
      rewrite andb_false_r. eexists. split; [reflexivity |].
      split; [| vm_compute; discriminate].
      split; [vm_compute; discriminate | intros (_ & ?); contradiction].
  - intros now w raw Haw Hs. dispatch Haw Hs. unfold echoed.
    destruct (startTime st); reflexivity.
Qed.

(** C3: [cat] of the hidden file adds exactly one line: the not-found
    error when the shell is not root, the permission-denied error when it
    is root and the file has not been revealed, the riddle as output when
    it is root and the file has been revealed; the three lines differ from
    one another, so exactly one of the three outcomes occurs.  [cat] of the
    hidden file is what the shell runs, on the echoed transcript, for every
    line read as a command whose first token is [cat] and whose argument is
    the hidden file name. *)
Theorem cat_hidden_outcomes (st s : State) :
  let notFound :=
    {| content := lit "cat: .shadow: No such file or directory";
       kind := kErr |} in
  let denied :=
    {| content := lit "Permission denied (list with -a after escalation).";
       kind := kErr |} in
  let riddle := {| content := cipherRiddle; kind := kOut |} in
  (exists l : PuzzleLine,
      lines (doCat HIDDEN_FILENAME st s) = lines s ++ [l]
      /\ (root st = false -> l = notFound)
      /\ (root st = true -> revealedHidden st = false -> l = denied)
      /\ (root st = true -> revealedHidden st = true -> l = riddle)
      /\ (l = notFound \/ l = denied \/ l = riddle))
  /\ (notFound <> denied /\ notFound <> riddle /\ denied <> riddle)
  /\ (forall (now : timestamp) (w : Storage) (raw : jsstring)
             (rest : list jsstring),
      awaitingPassword st = false ->
      split_ws (trim raw) = lit "cat" :: rest ->
      join (lit " ") rest = HIDDEN_FILENAME ->
      onCommand now w st raw
      = (doCat HIDDEN_FILENAME st (echoed now st raw), w)).
Proof.
  intros notFound denied riddle. split; [| split].
  - unfold doCat. rewrite hidden_not_readme, (eqb_refl HIDDEN_FILENAME).
    destruct (root st) eqn:Hr; [destruct (revealedHidden st) eqn:Hh |];
      cbn [negb].
    + exists riddle. split; [reflexivity |].
      split; [discriminate |]. split; [discriminate |].
      split; [reflexivity | right; right; reflexivity].
    + exists denied. split; [reflexivity |].
      split; [discriminate |]. split; [reflexivity |].
      split; [discriminate | right; left; reflexivity].
    + exists notFound. split; [fields; rewrite cat_hidden_text; reflexivity |].
      split; [reflexivity |]. split; [discriminate |].
      split; [discriminate | left; reflexivity].
  - subst notFound denied riddle. vm_compute. repeat split; discriminate.
  - intros now w raw rest Haw Hs Harg. dispatch Haw Hs.
    rewrite Harg, hidden_truthy. cbn [negb]. unfold echoed.
    destruct (startTime st); reflexivity.
Qed.

(** *** The password phase *)

(** C6, as amended: in the password phase a submitted line whose trimmed
    text is not empty and is not the password adds exactly one line, the
    error line [Sorry, try again.], keeps the phase, empties the input box
    and leaves the store alone; the outcome carries nothing of the guess:
    any two such guesses made in the same state at the same clock reading
    give the same transcript, state and store. *)
Theorem wrong_secret_opaque (now : timestamp) (w : Storage) (st : State)
        (g : jsstring) :
  awaitingPassword st = true ->
  trim g <> [] -> trim g <> PASSWORD ->
  let r := onCommand now w (setInput g st) g in
  lines (fst r) =
    lines st ++ [ {| content := lit "Sorry, try again."; kind := kErr |} ]
  /\ awaitingPassword (fst r) = true
  /\ input (fst r) = []
  /\ snd r = w
  /\ (forall g' : jsstring,
      trim g' <> [] -> trim g' <> PASSWORD ->
      onCommand now w (setInput g' st) g' = r).
Proof.
  intros Haw Hne Hpw r.
  assert (Hform : forall x : jsstring,
             trim x <> [] -> trim x <> PASSWORD ->
             onCommand now w (setInput x st) x =
             (append (lit "Sorry, try again.") kErr
                (match startTime st with
                 | None => setStartTime (Some now) (setInput [] st)
                 | Some _ => setInput [] st
                 end), w)).
  { intros x Hx Hxp. unfold onCommand.
    apply truthy_true in Hx. apply eqb_neq in Hxp.
    rewrite Hx. cbn [negb awaitingPassword setInput startTime].
    rewrite Haw, Hxp. destruct (startTime st); reflexivity. }
  subst r. rewrite (Hform g Hne Hpw).
  split; [destruct (startTime st); fields; reflexivity |].
  split; [destruct (startTime st); fields; assumption |].
  split; [destruct (startTime st); reflexivity |].
  split; [reflexivity |].
  intros g' Hg Hgp. apply (Hform g' Hg Hgp).
Qed.

(** *** What a command leaves alone *)

(** Splits on every test the goal branches on. *)
Ltac branches :=
  repeat match goal with
         | |- context [if ?b then _ else _] => destruct b eqn:?
         | |- context [match ?x with _ => _ end] => destruct x eqn:?
         end.

Lemma onCommand_privilege (now : timestamp) (w : Storage) (st : State)
      (raw : jsstring) :
  (root st = true -> root (fst (onCommand now w st raw)) = true)
  /\ (revealedHidden st = true ->
      revealedHidden (fst (onCommand now w st raw)) = true).
Proof.
  unfold onCommand, doLs, doCat, tryCipher. cbv beta zeta.
  split; intros H; branches; fields; auto; congruence.
Qed.

Lemma onCommand_startTime (now : timestamp) (w : Storage) (st : State)
      (raw : jsstring) :
  startTime (fst (onCommand now w st raw)) =
  if truthy (trim raw)
  then match startTime st with Some t => Some t | None => Some now end
  else startTime st.
Proof.
  unfold onCommand, doLs, doCat, tryCipher. cbv beta zeta.
  destruct (truthy (trim raw)); cbn [negb]; [| reflexivity].
  destruct (startTime st) eqn:Hst; branches; fields; auto; congruence.
Qed.

Lemma celebrate_frame (s : State) :
  root (celebrate s) = root s
  /\ revealedHidden (celebrate s) = revealedHidden s
  /\ startTime (celebrate s) = startTime s
  /\ bestTime (celebrate s) = bestTime s
  /\ solved (celebrate s) = solved s
  /\ awaitingPassword (celebrate s) = awaitingPassword s
  /\ lines (celebrate s) = lines s.
Proof. unfold celebrate. destruct (_ && _); repeat split. Qed.

(** Replay resets the transcript, the solved status, the celebration flag
    and the timer, and nothing else. *)
Lemma replay_frame (s : State) :
  replay s =
  {| lines := [ {| content := firstGreeting; kind := kSys |} ];
     input := input s; solved := false; root := root s;
     revealedHidden := revealedHidden s;
     awaitingPassword := awaitingPassword s; startTime := None;
     bestTime := bestTime s; celebrated := false |}.
Proof. reflexivity. Qed.

Lemma step_privilege (c : State * Storage) (e : Event) :
  (root (fst c) = true -> root (fst (step c e)) = true)
  /\ (revealedHidden (fst c) = true -> revealedHidden (fst (step c e)) = true).
Proof.
  destruct c as [s w], e as [now raw |]; cbn [step fst snd].
  - destruct (onCommand now w (setInput raw s) raw) as [s' w'] eqn:E.
    cbn [fst].
    destruct (celebrate_frame s') as (-> & -> & _).
    destruct (onCommand_privilege now w (setInput raw s) raw) as [Hr Hh].
    rewrite E in Hr, Hh. split; assumption.
  - destruct (celebrate_frame (replay s)) as (-> & -> & _).
    rewrite replay_frame. split; auto.
Qed.

(** The password is only asked of a shell that is not root, and root ends
    the asking: no reachable state is both root and awaiting the password. *)
Lemma onCommand_phase (now : timestamp) (w : Storage) (st : State)
      (raw : jsstring) :
  (awaitingPassword st = true -> root st = false) ->
  awaitingPassword (fst (onCommand now w st raw)) = true ->
  root (fst (onCommand now w st raw)) = false.
Proof.
  unfold onCommand, doLs, doCat, tryCipher. cbv beta zeta.
  intros Hinv; branches; fields; auto; try congruence;
    intros Ha; rewrite Ha in *; auto; congruence.
Qed.

Lemma run_phase (es : list Event) (c : State * Storage) :
  (awaitingPassword (fst c) = true -> root (fst c) = false) ->
  awaitingPassword (fst (run c es)) = true -> root (fst (run c es)) = false.
Proof.
  revert c. induction es as [|e es IH]; intros c Hinv; [exact Hinv |].
  cbn [run fold_left]. apply IH. clear IH.
  destruct c as [s w], e as [now raw |]; cbn [step fst snd].
  - destruct (onCommand now w (setInput raw s) raw) as [s' w'] eqn:E.
    cbn [fst].
    destruct (celebrate_frame s') as (-> & _ & _ & _ & _ & -> & _).
    change s' with (fst (s', w')). rewrite <- E.
    apply onCommand_phase. exact Hinv.
  - destruct (celebrate_frame (replay s)) as (-> & _ & _ & _ & _ & -> & _).
    rewrite replay_frame. exact Hinv.
Qed.

(** C10: over every sequence of submitted lines and Replay presses, root
    privilege and [revealedHidden], once true, stay true; Replay itself
    changes nothing but the transcript, the solved status, the celebration
    flag and the timer. *)
Theorem privilege_monotone (es : list Event) (c : State * Storage) :
  (root (fst c) = true -> root (fst (run c es)) = true)
  /\ (revealedHidden (fst c) = true ->
      revealedHidden (fst (run c es)) = true)
  /\ (forall s : State,
      replay s =
      {| lines := [ {| content := firstGreeting; kind := kSys |} ];
         input := input s; solved := false; root := root s;
         revealedHidden := revealedHidden s;
         awaitingPassword := awaitingPassword s; startTime := None;
         bestTime := bestTime s; celebrated := false |}).
Proof.
  split; [| split].
  - revert c. induction es as [|e es IH]; intros c H; [exact H |].
    cbn [run fold_left]. apply IH. now apply step_privilege.
  - revert c. induction es as [|e es IH]; intros c H; [exact H |].
    cbn [run fold_left]. apply IH. now apply step_privilege.
  - intros s. reflexivity.
Qed.

(** *** The timer and the best time *)

Lemma step_startTime (c : State * Storage) (now : timestamp) (raw : jsstring) :
  startTime (fst (step c (Line now raw))) =
  if truthy (trim raw)
  then match startTime (fst c) with Some t => Some t | None => Some now end
  else startTime (fst c).
Proof.
  destruct c as [s w]. cbn [step fst snd].
  destruct (onCommand now w (setInput raw s) raw) as [s' w'] eqn:E.
  cbn [fst]. destruct (celebrate_frame s') as (_ & _ & -> & _).
  change s' with (fst (s', w')). rewrite <- E.
  rewrite onCommand_startTime. reflexivity.
Qed.

(** Within a session (no Replay), the timer holds the clock reading of the
    first line that is not blank. *)
Lemma session_timer (es : list Event) (c : State * Storage) :
  ~ In Replay es ->
  startTime (fst (run c es)) =
  match startTime (fst c) with
  | Some t => Some t
  | None => firstCommandTime es
  end.
Proof.
  revert c. induction es as [|e es IH]; intros c Hn.
  - cbn. destruct (startTime (fst c)); reflexivity.
  - cbn [run fold_left]. change (fold_left step es (step c e))
      with (run (step c e) es).
    rewrite IH by (intros H; apply Hn; right; exact H).
    destruct e as [now raw |]; [| exfalso; apply Hn; left; reflexivity].
    rewrite step_startTime. cbn [firstCommandTime].
    destruct (truthy (trim raw)), (startTime (fst c)); reflexivity.
Qed.

(** A correct flag, read outside the password phase while the timer runs. *)
Lemma submit_flag_timed (now t0 : timestamp) (w : Storage) (st : State)
      (raw : jsstring) (rest : list jsstring) :
  awaitingPassword st = false ->
  split_ws (trim raw) = lit "submit" :: rest ->
  join (lit " ") rest = FINAL_FLAG ->
  startTime st = Some t0 ->
  let elapsed := Num (now - t0) in
  let best := existingBest parseFloat w st in
  let r := onCommand now w st raw in
  solved (fst r) = true
  /\ (if match best with None => true | Some b => lt elapsed b end
      then bestTime (fst r) = Some elapsed
           /\ snd r = match setItem w (numberToString elapsed) with
                      | Some w' => w'
                      | None => w
                      end
      else bestTime (fst r) = best /\ snd r = w).
Proof.
  intros Haw Hs Harg Ht elapsed best r. subst r.
  dispatch Haw Hs. rewrite Harg, (eqb_refl FINAL_FLAG), Ht.
  fold elapsed. fold best.
  destruct (match best with None => true | Some b => lt elapsed b end);
    split; try split; reflexivity.
Qed.

(** The part of C5 the code keeps: take a session (from a state whose
    timer is unset, with no Replay inside) in which some line before the
    submission was not blank, the first such at clock reading [t0]; let a
    correct flag then be submitted at [now], outside the password phase.
    The puzzle is solved and elapsed is [now - t0].  With [best] the best
    time in memory or, when there is none, the number read from the store:
    when there is no [best] or elapsed is strictly smaller, elapsed becomes
    the best time and is written to the store (a store that accepts the
    write then holds the text of elapsed); otherwise the store is left as it
    is and [best] stays the best time. *)
Lemma best_time_policy (es : list Event) (c0 : State * Storage)
        (t0 now : timestamp) (raw : jsstring) (rest : list jsstring) :
  startTime (fst c0) = None ->
  ~ In Replay es ->
  firstCommandTime es = Some t0 ->
  let st := fst (run c0 es) in
  let w := snd (run c0 es) in
  awaitingPassword st = false ->
  split_ws (trim raw) = lit "submit" :: rest ->
  join (lit " ") rest = FINAL_FLAG ->
  let elapsed := Num (now - t0) in
  let best := existingBest parseFloat w st in
  let r := step (run c0 es) (Line now raw) in
  solved (fst r) = true
  /\ (best = None \/ (exists b, best = Some b /\ lt elapsed b = true) ->
      bestTime (fst r) = Some elapsed
      /\ (writable w = true -> item (snd r) = Some (numberToString elapsed))
      /\ (writable w = false -> snd r = w))
  /\ (forall b, best = Some b -> lt elapsed b = false ->
      bestTime (fst r) = Some b /\ snd r = w).
Proof.
  intros H0 Hn Hf st w Haw Hs Harg elapsed best r.
  assert (Ht : startTime st = Some t0).
  { subst st. rewrite (session_timer es c0 Hn), H0. exact Hf. }
  assert (Haw' : awaitingPassword (setInput raw st) = false) by exact Haw.
  assert (Ht' : startTime (setInput raw st) = Some t0) by exact Ht.
  pose proof (submit_flag_timed now w (setInput raw st) raw
                                Haw' Hs Harg Ht') as [Hsolved Hbest].
  change (existingBest parseFloat w (setInput raw st)) with best in Hbest.
  fold elapsed in Hbest.
  assert (Er : r = (celebrate (fst (onCommand now w (setInput raw st) raw)),
                    snd (onCommand now w (setInput raw st) raw))).
  { subst r. unfold CTF.step. fold st. fold w.
    destruct (onCommand now w (setInput raw st) raw); reflexivity. }
  rewrite Er. cbn [fst snd].
  destruct (celebrate_frame (fst (onCommand now w (setInput raw st) raw)))
    as (_ & _ & _ & -> & -> & _).
  split; [exact Hsolved |]. split.
  - intros Hc.
    assert (Hcond : match best with None => true | Some b => lt elapsed b end
                    = true).
    { destruct Hc as [-> | (b & -> & Hb)]; [reflexivity | exact Hb]. }
    rewrite Hcond in Hbest. destruct Hbest as [Hb Hw].
    split; [exact Hb |]. rewrite Hw. unfold setItem.
    split; intros Hwr; rewrite Hwr; reflexivity.
  - intros b Hb Hlt. rewrite Hb, Hlt in Hbest. exact Hbest.
Qed.

Lemma firstCommandTime_app (es es' : list Event) :
  firstCommandTime es = None ->
  firstCommandTime (es ++ es') = firstCommandTime es'.
Proof.
  induction es as [|[now raw |] es IH]; cbn [app firstCommandTime];
    [reflexivity | | exact IH].
  destruct (truthy (trim raw)); [discriminate | exact IH].
Qed.

(** C5 at the failing input: a correct flag submitted as the first line of
    a session that is not blank (from a state whose timer is unset, with no
    Replay inside, outside the password phase).  That line is the first
    non-empty command: it solves the puzzle and starts the timer at its own
    clock reading, so the time since the first non-empty command is zero.
    Yet the handler reads the timer of the render, still unset, and records
    nothing: the best time in memory and the store stay as they were, also
    when no best time exists. *)
Theorem first_line_solve_unrecorded (es : list Event) (c0 : State * Storage)
        (now : timestamp) (raw : jsstring) (rest : list jsstring) :
  startTime (fst c0) = None ->
  ~ In Replay es ->
  firstCommandTime es = None ->
  let st := fst (run c0 es) in
  let w := snd (run c0 es) in
  awaitingPassword st = false ->
  split_ws (trim raw) = lit "submit" :: rest ->
  join (lit " ") rest = FINAL_FLAG ->
  let r := step (run c0 es) (Line now raw) in
  solved (fst r) = true
  /\ firstCommandTime (es ++ [Line now raw]) = Some now
  /\ startTime (fst r) = Some now
  /\ bestTime (fst r) = bestTime st
  /\ snd r = w.
Proof.
  intros H0 Hn Hf st w Haw Hs Harg r.
  assert (Ht : startTime st = None).
  { subst st. rewrite (session_timer es c0 Hn), H0. exact Hf. }
  assert (Hnb : truthy (trim raw) = true).
  { apply (first_token_not_blank _ Hs). vm_compute. discriminate. }
  assert (Haw' : awaitingPassword (setInput raw st) = false) by exact Haw.
  assert (E : onCommand now w (setInput raw st) raw
              = (setSolved true
                   (append (lit "✔ Correct flag. Challenge complete.") kRoot
                      (echoed now (setInput raw st) raw)), w)).
  { dispatch Haw' Hs. rewrite Harg, (eqb_refl FINAL_FLAG).
    unfold echoed. cbn [startTime setInput]. rewrite Ht. reflexivity. }
  assert (Er : r = (celebrate (fst (onCommand now w (setInput raw st) raw)),
                    snd (onCommand now w (setInput raw st) raw))).
  { subst r. unfold CTF.step. fold st. fold w.
    destruct (onCommand now w (setInput raw st) raw); reflexivity. }
  rewrite Er, E. cbn [fst snd].
  match goal with
  | |- context [celebrate ?x] =>
    destruct (celebrate_frame x) as (_ & _ & -> & -> & -> & _)
  end.
  unfold echoed. cbn [startTime setInput]. rewrite Ht. fields.
  split; [reflexivity |].
  split; [rewrite (@firstCommandTime_app es [Line now raw] Hf);
          cbn [firstCommandTime];
          rewrite Hnb; reflexivity |].
  repeat split.
Qed.

(** C9 at the failing input: a stored text that does not parse as a number
    ([parseFloat] gives [NaN]) is not read as "no best time".  At startup
    the best time becomes [NaN]; read lazily at solve time it makes the
    solve keep the store as it is and set the best time to [NaN], where the
    same solve with no stored value records elapsed. *)
Theorem unparsable_best_sticks (stored : jsstring) (w : Storage) (st : State)
        (t0 now : timestamp) (raw : jsstring) (rest : list jsstring) :
  item w = Some stored -> readable w = true ->
  truthy stored = true -> parseFloat stored = NaN ->
  awaitingPassword st = false ->
  split_ws (trim raw) = lit "submit" :: rest ->
  join (lit " ") rest = FINAL_FLAG ->
  startTime st = Some t0 -> bestTime st = None ->
  bestTime (loadBest parseFloat w init) = Some NaN
  /\ (let r := onCommand now w st raw in
      solved (fst r) = true /\ bestTime (fst r) = Some NaN /\ snd r = w)
  /\ (let w0 := {| item := None; readable := true; writable := true |} in
      let r0 := onCommand now w0 st raw in
      bestTime (fst r0) = Some (Num (now - t0))
      /\ item (snd r0) = Some (numberToString (Num (now - t0)))).
Proof.
  intros Hi Hr Ht Hp Haw Hs Harg Hst Hb.
  split; [| split].
  - unfold loadBest, getItem. rewrite Hr, Hi, Ht, Hp. reflexivity.
  - cbv zeta.
    pose proof (submit_flag_timed now w st raw Haw Hs Harg Hst) as [H1 H2].
    unfold existingBest, getItem in H2. rewrite Hb, Hr, Hi, Ht, Hp in H2.
    cbn [lt] in H2. destruct H2 as [H2 H3]. auto.
  - cbv zeta.
    pose proof (submit_flag_timed now
                  {| item := None; readable := true; writable := true |}
                  st raw Haw Hs Harg Hst) as [H1 H2].
    unfold existingBest, getItem in H2. rewrite Hb in H2.
    cbn [readable item] in H2. destruct H2 as [H2 H3].
    split; [exact H2 |]. rewrite H3. reflexivity.
Qed.

(** The parts of C9 the code does keep. *)

(** No stored value, an empty one, or a store that refuses the read: no
    best time, at startup and at solve time. *)
Lemma absent_best_is_none (w : Storage) (st : State) :
  item w = None \/ item w = Some [] \/ readable w = false ->
  bestTime (loadBest parseFloat w init) = None
  /\ (bestTime st = None -> existingBest parseFloat w st = None).
Proof.
  intros H. unfold loadBest, existingBest, getItem.
  destruct (readable w) eqn:Hr.
  - destruct H as [-> | [-> | H]]; [| | discriminate];
      split; try reflexivity; intros ->; reflexivity.
  - split; [reflexivity | intros ->; reflexivity].
Qed.

(** A rejected write is swallowed: the solve goes through, the best time in
    memory is updated, the store is unchanged and no error line is added. *)
Lemma write_failure_swallowed (now t0 : timestamp) (w : Storage) (st : State)
      (raw : jsstring) (rest : list jsstring) :
  writable w = false ->
  awaitingPassword st = false ->
  split_ws (trim raw) = lit "submit" :: rest ->
  join (lit " ") rest = FINAL_FLAG ->
  startTime st = Some t0 ->
  let r := onCommand now w st raw in
  solved (fst r) = true
  /\ snd r = w
  /\ lines (fst r) =
       lines st ++ echo st raw
         ++ [ {| content := lit "✔ Correct flag. Challenge complete.";
                 kind := kRoot |} ].
Proof.
  intros Hw Haw Hs Harg Ht r. subst r.
  dispatch Haw Hs. rewrite Harg, (eqb_refl FINAL_FLAG), Ht.
  unfold setItem, echo. rewrite Hw.
  destruct (match existingBest parseFloat w st with
            | None => true | Some b => lt (Num (now - t0)) b end);
    fields; auto.
Qed.

End Host.

(** *** The statements at concrete sessions *)

(** Settles a closed side condition by evaluation. *)
Ltac by_eval :=
  vm_compute;
  first [ reflexivity | discriminate
        | let H := fresh in intros [H | []]; discriminate H ].

Import SampleHost.

(** The intended path through the puzzle. *)
Example full_session :
  let r := CTF.run parseFloat numberToString fresh
             [ Line 1000 (lit "sudo su"); Line 2000 PASSWORD;
               Line 3000 (lit "ls -a"); Line 4000 (lit "cat .shadow");
               Line 5000 (lit "cipher c3Nz.blk"); Line 6000 flagLine ] in
  solved (fst r) = true /\ celebrated (fst r) = true
  /\ root (fst r) = true /\ revealedHidden (fst r) = true
  /\ startTime (fst r) = Some 1000%Z
  /\ bestTime (fst r) = Some (Num 5000)
  /\ item (snd r) = Some (lit "5000").
Proof. vm_compute. repeat split. Qed.

(** What [ls -a] prints before and after the escalation. *)
Example listing_before_and_after :
  map (@content) (skipn 3 (lines (fst (CTF.run parseFloat numberToString fresh
                                      [Line 1000 (lit "ls -a")]))))
  = [lit "readme.txt"]
  /\ map (@content) (skipn 8 (lines (fst (CTF.run parseFloat numberToString
                                           rooted [Line 3000 (lit "ls -a")]))))
     = [lit "readme.txt  .shadow"].
Proof. vm_compute. split; reflexivity. Qed.

Local Abbreviation onCommand := (onCommand parseFloat numberToString).
Local Abbreviation run := (run parseFloat numberToString).
Local Abbreviation step := (step parseFloat numberToString).

(** C1 as stated fails at the password prompt: after [sudo su] the line
    [submit FLAG{ur_cr@ck3d_brUh}] is read as a wrong password; the puzzle
    is not solved and the one line added is [Sorry, try again.]. *)
Lemma submit_at_prompt_counterexample :
  let r := onCommand 1500 (snd asked) (fst asked) flagLine in
  split_ws (trim flagLine) = [lit "submit"; FINAL_FLAG]
  /\ awaitingPassword (fst asked) = true
  /\ solved (fst r) = false
  /\ lines (fst r) =
       lines (fst asked)
         ++ [ {| content := lit "Sorry, try again."; kind := kErr |} ].
Proof. vm_compute. repeat split. Qed.

(** C1, as amended, at a first line [submit FLAG{ur_cr@ck3d_brUh}] of a
    fresh session. *)
Lemma submit_gate_witness :
  awaitingPassword (fst fresh) = false
  /\ split_ws (trim flagLine) = [lit "submit"; FINAL_FLAG]
  /\ solved (fst (onCommand 1000 (snd fresh) (fst fresh) flagLine)) = true.
Proof.
  split; [by_eval |]. split; [by_eval |].
  pose proof (submit_gate parseFloat numberToString 1000 (snd fresh)
                (fst fresh) flagLine (rest := [FINAL_FLAG])
                ltac:(by_eval) ltac:(by_eval))
    as (Hflag & _).
  exact (Hflag ltac:(by_eval)).
Defined.

(** C2, as amended, at [ls -a] typed as root. *)
Lemma ls_hidden_gate_witness :
  awaitingPassword (fst rooted) = false
  /\ split_ws (trim (lit "ls -a")) = [lit "ls"; lit "-a"]
  /\ revealedHidden
       (fst (onCommand 3000 (snd rooted) (fst rooted) (lit "ls -a"))) = true.
Proof.
  split; [by_eval |]. split; [by_eval |].
  pose proof (ls_hidden_gate parseFloat numberToString [lit "-a"] (fst rooted)
                (echoed 3000 (fst rooted) (lit "ls -a")))
    as ((listing & _ & Hiff & Hrev) & Hrun).
  rewrite (Hrun 3000%Z (snd rooted) (lit "ls -a")
                ltac:(by_eval) ltac:(by_eval)).
  apply Hrev. apply Hiff.
  split; [by_eval | left; reflexivity].
Defined.

(** C2 as stated fails on the listing target: typed as root, [ls -a projects]
    names [projects], which is not the root directory, and still the
    listing holds the hidden file and the call sets [revealedHidden]. *)
Lemma ls_other_target_counterexample :
  let raw := lit "ls -a projects" in
  let r := onCommand 3000 (snd rooted) (fst rooted) raw in
  split_ws (trim raw) = [lit "ls"; lit "-a"; lit "projects"]
  /\ specLsTarget [lit "-a"; lit "projects"] = lit "projects"
  /\ specLsTarget [lit "-a"; lit "projects"] <> lit "~"
  /\ root (fst rooted) = true
  /\ revealedHidden (fst rooted) = false
  /\ map (@content) (skipn (List.length (lines (fst rooted)) + 2)
                            (lines (fst r)))
     = [lit "readme.txt  .shadow"]
  /\ revealedHidden (fst r) = true.
Proof.
  vm_compute. repeat split. discriminate.
Qed.

(** C3 at [cat .shadow] typed as root before the file was revealed. *)
Lemma cat_hidden_outcomes_witness :
  awaitingPassword (fst rooted) = false
  /\ split_ws (trim (lit "cat .shadow")) = [lit "cat"; lit ".shadow"]
  /\ exists l : PuzzleLine,
       lines (fst (onCommand 3000 (snd rooted) (fst rooted) (lit "cat .shadow")))
       = lines (echoed 3000 (fst rooted) (lit "cat .shadow")) ++ [l]
       /\ l = {| content :=
                   lit "Permission denied (list with -a after escalation).";
                 kind := kErr |}.
Proof.
  split; [by_eval |]. split; [by_eval |].
  pose proof (cat_hidden_outcomes parseFloat numberToString (fst rooted)
                (echoed 3000 (fst rooted) (lit "cat .shadow")))
    as ((l & Hl & _ & Hden & _) & _ & Hrun).
  rewrite (Hrun 3000%Z (snd rooted) (lit "cat .shadow") [lit ".shadow"]
                ltac:(by_eval) ltac:(by_eval) ltac:(by_eval)).
  exists l. split; [exact Hl |].
  exact (Hden ltac:(by_eval) ltac:(by_eval)).
Defined.

(** The policy with a best time of 5000 ms stored: after a first line
    at 1000, the flag at 4000 (elapsed 3000) rewrites the store to [3000];
    the flag at 9000 (elapsed 8000) leaves the store at [5000]. *)
Lemma best_time_policy_witness :
  firstCommandTime [Line 1000 (lit "help")] = Some 1000%Z
  /\ existingBest parseFloat (snd withBest) (fst withBest) = Some (Num 5000)
  /\ item (snd (run withBest [Line 1000 (lit "help"); Line 4000 flagLine]))
     = Some (lit "3000")
  /\ snd (run withBest [Line 1000 (lit "help"); Line 9000 flagLine])
     = snd withBest.
Proof.
  split; [vm_compute; reflexivity |]. split; [vm_compute; reflexivity |].
  split.
  - pose proof (best_time_policy parseFloat numberToString
                  [Line 1000 (lit "help")] withBest (t0 := 1000) 4000 flagLine
                  (rest := [FINAL_FLAG])
                  ltac:(by_eval) ltac:(by_eval) ltac:(by_eval) ltac:(by_eval)
                  ltac:(by_eval) ltac:(by_eval))
      as (_ & Hnew & _).
    destruct Hnew as (_ & Hw & _).
    { right. exists (Num 5000). vm_compute. split; reflexivity. }
    specialize (Hw ltac:(by_eval)).
    vm_compute in Hw |- *. exact Hw.
  - pose proof (best_time_policy parseFloat numberToString
                  [Line 1000 (lit "help")] withBest (t0 := 1000) 9000 flagLine
                  (rest := [FINAL_FLAG])
                  ltac:(by_eval) ltac:(by_eval) ltac:(by_eval) ltac:(by_eval)
                  ltac:(by_eval) ltac:(by_eval))
      as (_ & _ & Hold).
    destruct (Hold (Num 5000) ltac:(by_eval) ltac:(by_eval)) as (_ & Hw).
    vm_compute in Hw |- *. exact Hw.
Defined.

(** C5 at the failing input, in a fresh session with nothing stored: the
    flag submitted as the first line, at 1000, solves the puzzle; elapsed
    since the first non-empty command is zero and no best time exists, yet
    no best time is set and the store stays empty. *)
Lemma first_line_solve_unrecorded_witness :
  let r := run fresh [Line 1000 flagLine] in
  item (snd fresh) = None
  /\ bestTime (fst fresh) = None
  /\ solved (fst r) = true
  /\ firstCommandTime [Line 1000 flagLine] = Some 1000%Z
  /\ bestTime (fst r) = None
  /\ item (snd r) = None.
Proof.
  pose proof (@first_line_solve_unrecorded parseFloat numberToString [] fresh
                1000 flagLine [FINAL_FLAG]
                ltac:(by_eval) ltac:(intros []) ltac:(reflexivity)
                ltac:(by_eval) ltac:(by_eval) ltac:(by_eval))
    as (H1 & H2 & _ & H4 & H5).
  unfold CTF.run in H1, H4, H5. cbn [fold_left] in H1, H4, H5.
  unfold CTF.run. cbn [fold_left].
  split; [by_eval |]. split; [by_eval |].
  split; [exact H1 |]. split; [exact H2 |].
  split; [rewrite H4; by_eval | rewrite H5; by_eval].
Defined.

(** C6, as amended, at the guess [letmein]. *)
Lemma wrong_secret_opaque_witness :
  awaitingPassword (fst asked) = true
  /\ trim (lit "letmein") <> []
  /\ trim (lit "letmein") <> PASSWORD
  /\ onCommand 1500 (snd asked) (setInput (lit "hunter2") (fst asked))
               (lit "hunter2")
     = onCommand 1500 (snd asked) (setInput (lit "letmein") (fst asked))
                 (lit "letmein").
Proof.
  split; [by_eval |]. split; [by_eval |]. split; [by_eval |].
  pose proof (wrong_secret_opaque parseFloat numberToString 1500 (snd asked)
                (fst asked) (lit "letmein")
                ltac:(by_eval) ltac:(by_eval) ltac:(by_eval))
    as (_ & _ & _ & _ & Hsame).
  exact (Hsame (lit "hunter2") ltac:(by_eval) ltac:(by_eval)).
Defined.

(** C6 as stated fails: in the password phase the line made of the
    password and one space differs from the password, yet it is accepted:
    root is granted, the phase ends and no error line is added. *)
Lemma padded_secret_counterexample :
  let raw := PASSWORD ++ lit " " in
  let r := onCommand 1500 (snd asked) (setInput raw (fst asked)) raw in
  awaitingPassword (fst asked) = true
  /\ raw <> PASSWORD
  /\ root (fst r) = true
  /\ awaitingPassword (fst r) = false
  /\ filter (fun l => match kind l with kErr => true | _ => false end)
            (lines (fst r)) = [].
Proof.
  vm_compute. repeat split. discriminate.
Qed.

(** C9's failing input on the sample host: the stored text [abc]. *)
Lemma unparsable_best_sticks_witness :
  let w := storeOf (Some (lit "abc")) in
  parseFloat (lit "abc") = NaN
  /\ bestTime (loadBest parseFloat w init) = Some NaN
  /\ snd (run (init, w) [Line 1000 (lit "help"); Line 4000 flagLine]) = w.
Proof.
  cbv zeta. split; [by_eval |].
  pose proof (unparsable_best_sticks parseFloat numberToString
                (stored := lit "abc") (storeOf (Some (lit "abc")))
                (setInput flagLine
                   (fst (run (init, storeOf (Some (lit "abc")))
                             [Line 1000 (lit "help")])))
                (t0 := 1000) 4000 flagLine (rest := [FINAL_FLAG])
                ltac:(by_eval) ltac:(by_eval) ltac:(by_eval) ltac:(by_eval)
                ltac:(by_eval) ltac:(by_eval) ltac:(by_eval) ltac:(by_eval)
                ltac:(by_eval))
    as (Hload & (_ & _ & Hw) & _).
  split; [exact Hload |].
  vm_compute in Hw |- *. exact Hw.
Defined.

(** C10 at a rooted session that goes on with [clear], a wrong flag, the
    flag and Replay. *)
Lemma privilege_monotone_witness :
  root (fst rooted) = true
  /\ root (fst (run rooted [Line 3000 (lit "clear");
                            Line 4000 (lit "submit FLAG{no}");
                            Line 5000 flagLine; Replay])) = true.
Proof.
  split; [by_eval |].
  pose proof (privilege_monotone parseFloat numberToString
                [Line 3000 (lit "clear"); Line 4000 (lit "submit FLAG{no}");
                 Line 5000 flagLine; Replay] rooted)
    as (Hroot & _).
  exact (Hroot ltac:(by_eval)).
Defined.

End CTFFacts.

(** ** The order of the listings *)

Module ListingFacts.
Import JS JSFacts Listing.

Lemma sortedb_sound (l : list jsstring) :
  sortedb l = true -> StronglySorted lex_le l.
Proof.
  induction l as [|x l IH]; intros H; [constructor |].
  cbn [sortedb] in H. apply andb_true_iff in H. destruct H as [Hx Hl].
  constructor; [apply IH; exact Hl |].
  apply Forall_forall. intros y Hy.
  rewrite forallb_forall in Hx. apply Hx. exact Hy.
Qed.

Lemma stripLast_spec (sentinel : jsstring) (names : list jsstring) :
  names = stripLast sentinel names
  \/ names = stripLast sentinel names ++ [sentinel].
Proof.
  unfold stripLast. destruct (rev names) as [|x r] eqn:E; [left; reflexivity |].
  destruct (eqb x sentinel) eqn:Hx; [| left; reflexivity].
  apply eqb_eq in Hx. subst x. right.
  rewrite <- (rev_involutive names), E. reflexivity.
Qed.

Lemma sentinelLastb_sound (sentinel : jsstring) (names : list jsstring) :
  sentinelLastb sentinel names = true -> sentinelLast sentinel names.
Proof.
  unfold sentinelLastb. intros H. apply andb_true_iff in H.
  destruct H as [Hn Hs]. exists (stripLast sentinel names).
  split; [apply stripLast_spec |]. split.
  - intros Hin. apply arrayIncludes_In in Hin. rewrite Hin in Hn. discriminate.
  - apply sortedb_sound. exact Hs.
Qed.

(** C8: the names [listDirectory] returns for any path are in lexicographic
    order except that [on-going.txt], when listed, comes last; and the line
    [ls] prints in the puzzle shell lists names in lexicographic order
    except that the hidden file, when listed, comes after every other
    name. *)
Theorem listing_order :
  (forall path : jsstring,
      sentinelLast (lit "on-going.txt")
                   (map Terminal.name (Terminal.listDirectory path)))
  /\ (forall (all : bool) (st s : CTF.State),
      exists names : list jsstring,
        CTF.lines (CTF.doLs all st s) =
          CTF.lines s
            ++ [ {| CTF.content := join (lit "  ") names; CTF.kind := CTF.kOut |} ]
        /\ (In CTF.HIDDEN_FILENAME names <-> CTF.root st && all = true)
        /\ sentinelLast CTF.HIDDEN_FILENAME names).
Proof.
  split.
  - intros path. apply sentinelLastb_sound. unfold Terminal.listDirectory.
    generalize (Terminal.normalizePath path). intros n. cbv zeta.
    destruct (eqb n (lit "~")); [vm_compute; reflexivity |].
    destruct (eqb n (lit "~/certifications")); [vm_compute; reflexivity |].
    destruct (Terminal.isCategoryPath n) eqn:Hc.
    + unfold Terminal.isCategoryPath in Hc. apply existsb_exists in Hc.
      destruct Hc as (c & Hin & He). apply eqb_eq in He. subst n.
      cbn [In] in Hin.
      repeat (destruct Hin as [<- | Hin]; [vm_compute; reflexivity |]).
      contradiction.
    + destruct (eqb n (lit "~/projects")); vm_compute; reflexivity.
  - intros all st s. unfold CTF.doLs. cbv zeta.
    destruct (CTF.root st && all).
    + exists ([CTF.READ_ME] ++ [CTF.HIDDEN_FILENAME]).
      split; [reflexivity |]. split.
      * split; [reflexivity | intros _; right; left; reflexivity].
      * apply sentinelLastb_sound. vm_compute. reflexivity.
    + exists [CTF.READ_ME].
      split; [reflexivity |]. split.
      * split; [| discriminate].
        intros [H | []]. vm_compute in H. discriminate.
      * apply sentinelLastb_sound. vm_compute. reflexivity.
Qed.

End ListingFacts.

(** ** More on strings *)

Module JSMore.
Import JS JSFacts.

Lemma trimStart_snoc (l : jsstring) (c : N) :
  is_space c = false -> exists x, trimStart (l ++ [c]) = x ++ [c].
Proof.
  intros Hc. induction l as [|a l IH]; cbn [app trimStart].
  - rewrite Hc. exists []. reflexivity.
  - destruct (is_space a); [exact IH | exists (a :: l); reflexivity].
Qed.

Lemma trimStart_head (s : jsstring) :
  trimStart s = [] \/ exists c r, trimStart s = c :: r /\ is_space c = false.
Proof.
  induction s as [|a s IH]; cbn [trimStart]; [left; reflexivity |].
  destruct (is_space a) eqn:E; [exact IH | right; eauto].
Qed.

(** A trimmed line is empty or starts with a character that is not white
    space. *)
Lemma trim_head (s : jsstring) :
  trim s = [] \/ exists c r, trim s = c :: r /\ is_space c = false.
Proof.
  unfold trim, trimEnd.
  destruct (trimStart_head s) as [-> | (c & r & -> & Hc)];
    [left; reflexivity | right].
  cbn [rev]. destruct (trimStart_snoc (rev r) c Hc) as (x & ->).
  rewrite rev_app_distr. cbn [rev app]. eauto.
Qed.

Lemma split_go_head (s cur : jsstring) :
  cur <> [] -> exists p ps, split_go false cur s = p :: ps /\ p <> [].
Proof.
  revert cur. induction s as [|c s IH]; intros cur Hc; cbn [split_go].
  - eauto.
  - destruct (is_space c); [eauto |].
    apply IH. destruct cur; discriminate.
Qed.

(** The first token of a trimmed line that is not empty is not empty. *)
Lemma first_token (s : jsstring) :
  trim s <> [] ->
  exists cmd args, split_ws (trim s) = cmd :: args /\ cmd <> [].
Proof.
  intros Hne. destruct (trim_head s) as [E | (c & r & E & Hc)];
    [contradiction |].
  rewrite E. unfold split_ws. cbn [split_go]. rewrite Hc.
  apply split_go_head. discriminate.
Qed.

(** A line of white space only trims to nothing. *)
Lemma trimStart_blank (s : jsstring) :
  forallb is_space s = true -> trimStart s = [].
Proof.
  induction s as [|c s IH]; cbn [forallb trimStart]; [reflexivity |].
  intros H. apply andb_true_iff in H. destruct H as [-> H]. auto.
Qed.

Lemma trim_blank (s : jsstring) : forallb is_space s = true -> trim s = [].
Proof.
  intros H. unfold trim. rewrite (trimStart_blank s H). reflexivity.
Qed.

Lemma split_on_go_app (sep : N) (x rest cur : jsstring) :
  ~ In sep x ->
  split_on_go sep cur (x ++ rest) = split_on_go sep (cur ++ x) rest.
Proof.
  revert cur. induction x as [|a x IH]; intros cur Hx; cbn [app].
  - now rewrite app_nil_r.
  - cbn [split_on_go]. destruct (a =? sep)%N eqn:E.
    + apply N.eqb_eq in E. exfalso. apply Hx. left. exact E.
    + rewrite IH by (intros H; apply Hx; right; exact H).
      now rewrite <- app_assoc.
Qed.

(** Joining pieces that hold no separator and splitting again gives the
    pieces back. *)
Lemma split_on_join (sep : N) (segs : list jsstring) :
  segs <> [] -> Forall (fun s => ~ In sep s) segs ->
  split_on sep (join [sep] segs) = segs.
Proof.
  unfold split_on. induction segs as [|x segs IH]; intros Hne Hall;
    [contradiction |].
  inversion Hall as [|? ? Hx Hrest]; subst.
  destruct segs as [|y segs].
  - cbn [join]. rewrite <- (app_nil_r x) at 1.
    rewrite split_on_go_app by exact Hx. reflexivity.
  - change (join [sep] (x :: y :: segs))
      with (x ++ [sep] ++ join [sep] (y :: segs)).
    rewrite split_on_go_app by exact Hx. cbn [app split_on_go].
    rewrite N.eqb_refl. f_equal. apply IH; [discriminate | exact Hrest].
Qed.

Lemma split_on_go_nosep (sep : N) (s cur : jsstring) :
  ~ In sep cur -> Forall (fun p => ~ In sep p) (split_on_go sep cur s).
Proof.
  revert cur. induction s as [|c s IH]; intros cur Hc; cbn [split_on_go].
  - constructor; [exact Hc | constructor].
  - destruct (c =? sep)%N eqn:E.
    + constructor; [exact Hc |]. apply IH. intros [].
    + apply IH. intros H. apply in_app_or in H. destruct H as [H | [H | []]].
      * exact (Hc H).
      * apply N.eqb_neq in E. exact (E H).
Qed.

Lemma split_on_nosep (sep : N) (s : jsstring) :
  Forall (fun p => ~ In sep p) (split_on sep s).
Proof. apply split_on_go_nosep. intros []. Qed.

End JSMore.

(** ** More on the general-purpose shell *)

Module TerminalMore.
Import JS JSFacts JSMore Terminal TerminalFacts Keys.

Lemma commands_cases (k : jsstring) (c : Command) (s : State) :
  lookup k commands = Some c ->
  (k = lit "clear" /\ execute c s = ([], setLines (fun _ => []) s))
  \/ (k <> lit "clear" /\ snd (execute c s) = s).
Proof.
  unfold commands. cbn [lookup].
  destruct (eqb k (lit "clear")) eqn:E1.
  { intros E; inversion E. apply eqb_eq in E1. left. split; [exact E1 | reflexivity]. }
  apply eqb_neq in E1.
  destruct (eqb k (lit "whoami")); [intros E; inversion E; right; split; [exact E1 | reflexivity] |].
  destruct (eqb k (lit "help")); [intros E; inversion E; right; split; [exact E1 | reflexivity] |].
  discriminate.
Qed.

Lemma lowered_token (cmd : jsstring) :
  cmd <> [] -> negb (truthy (toLowerCase cmd)) = false.
Proof. destruct cmd; [congruence | reflexivity]. Qed.

(** Closes a branch whose command name is known to be two things. *)
Ltac clash :=
  match goal with
  | H1 : eqb ?x (lit ?a) = true, H2 : ?x = lit ?b |- _ =>
    apply eqb_eq in H1; rewrite H1 in H2; vm_compute in H2; discriminate H2
  | H1 : eqb ?x (lit ?a) = true, H2 : ?x <> lit ?a |- _ =>
    apply eqb_eq in H1; contradiction
  end.

Ltac framed :=
  split; [reflexivity | split; [reflexivity |]];
  split; [ intros; first [clash | contradiction]
         | intros _; eexists; cbn [app]; reflexivity ].

(** What every executed line does to the state. *)
Lemma executeCommand_frame (st : State) (input cmd : jsstring)
      (args : list jsstring) :
  split_ws (trim input) = cmd :: args -> cmd <> [] ->
  commandHistory (executeCommand st input) = commandHistory st ++ [trim input]
  /\ historyIndex (executeCommand st input) = (-1)%Z
  /\ (toLowerCase cmd = lit "clear" ->
      lines (executeCommand st input) = []
      /\ currentPath (executeCommand st input) = currentPath st)
  /\ (toLowerCase cmd <> lit "clear" ->
      exists out, lines (executeCommand st input) = lines st ++ out).
Proof.
  intros Hs Hc. unfold executeCommand. rewrite Hs, (lowered_token Hc).
  cbv zeta.
  destruct (eqb (toLowerCase cmd) (lit "cd")) eqn:Ecd.
  { destruct (eqb (resolvePath _ _) (currentPath st));
      [destruct (_ && _) |]; state_fields;
      framed. }
  destruct (eqb (toLowerCase cmd) (lit "pwd")) eqn:Epwd.
  { state_fields.
    framed. }
  destruct (eqb (toLowerCase cmd) (lit "ls")) eqn:Els.
  { state_fields.
    framed. }
  destruct (eqb (toLowerCase cmd) (lit "cat")) eqn:Ecat.
  { destruct (negb _);
      [| destruct (match lookup _ fileContents with
                   | Some c => truthy c | None => false end)];
      state_fields;
      framed. }
  destruct (lookup (toLowerCase cmd) commands) as [c |] eqn:L.
  - destruct (commands_cases _
                (setHistoryIndex (-1)
                   (setCommandHistory (fun prev => prev ++ [trim input]) st))
                L) as [[Ek Ex] | [Ek Ex]].
    + rewrite Ek. change (eqb (lit "clear") (lit "clear")) with true.
      cbv iota. rewrite Ex. state_fields.
      split; [reflexivity | split; [reflexivity |]].
      split; [intros _; split; reflexivity | intros H; contradiction].
    + apply eqb_neq in Ek. rewrite Ek.
      destruct (arrayIncludes _ _).
      * state_fields. apply eqb_neq in Ek.
        framed.
      * destruct (execute c _) as [out s'] eqn:E. cbn [snd] in Ex. subst s'.
        state_fields. apply eqb_neq in Ek.
        framed.
  - assert (Hn : toLowerCase cmd <> lit "clear").
    { intros E. rewrite E in L. vm_compute in L. discriminate L. }
    destruct (arrayIncludes _ _); state_fields; [| framed].
    split; [reflexivity | split; [reflexivity |]].
    split; [intros; contradiction |].
    intros _. exists []. rewrite app_nil_r. reflexivity.
Qed.

(** A name inherited from [Object.prototype]: the call raises after the
    history was queued; nothing is printed and the input box keeps its
    text. *)
Example inherited_name_raises :
  let st := setCurrentInput (lit "Constructor") init in
  let st' := executeCommand st (lit "Constructor") in
  commandHistory st' = [lit "Constructor"]
  /\ historyIndex st' = (-1)%Z
  /\ lines st' = lines st
  /\ currentInput st' = lit "Constructor".
Proof. vm_compute. repeat split. Qed.

End TerminalMore.

Module TerminalSession.
Import JS JSFacts JSMore Terminal TerminalFacts Keys TerminalMore.

Lemma executeCommand_idle (st : State) (input : jsstring) :
  trim input = [] -> executeCommand st input = st.
Proof. intros H. unfold executeCommand. rewrite H. reflexivity. Qed.

(** X1: a line that is not blank is appended once, trimmed, to the command
    history and the history cursor is reset to [-1], whatever the command
    and whether or not it is known. *)
Theorem line_recorded_in_history (st : State) (input : jsstring) :
  trim input <> [] ->
  commandHistory (executeCommand st input) = commandHistory st ++ [trim input]
  /\ historyIndex (executeCommand st input) = (-1)%Z.
Proof.
  intros H. destruct (first_token input H) as (cmd & args & Hs & Hc).
  destruct (executeCommand_frame st input Hs Hc) as (A & B & _).
  auto.
Qed.

(** X1 at the line [  ls  projects ] typed first. *)
Lemma line_recorded_in_history_witness :
  commandHistory (executeCommand init (lit "  ls  projects "))
  = [lit "ls  projects"].
Proof.
  pose proof (line_recorded_in_history init (lit "  ls  projects ")
                ltac:(vm_compute; discriminate)) as (H & _).
  exact H.
Defined.

(** X2: [executeCommand] leaves the state as it was exactly when the line
    is blank (empty once trimmed); every other line changes it. *)
Theorem only_blank_lines_ignored (st : State) (input : jsstring) :
  executeCommand st input = st <-> trim input = [].
Proof.
  split.
  - intros E. destruct (trim input) as [|c t] eqn:Ht; [reflexivity | exfalso].
    assert (Hn : trim input <> []) by (rewrite Ht; discriminate).
    destruct (first_token input Hn) as (cmd & args & Hs & Hc).
    destruct (executeCommand_frame st input Hs Hc) as (A & _).
    rewrite E in A. apply (f_equal (@List.length _)) in A.
    rewrite length_app in A. simpl in A. lia.
  - apply executeCommand_idle.
Qed.

(** X3: only [clear] removes lines: for a line whose first word does not
    lower-case to [clear], the transcript before the command is a prefix of
    the transcript after it. *)
Theorem transcript_grows_unless_clear (st : State) (input cmd : jsstring)
        (args : list jsstring) :
  split_ws (trim input) = cmd :: args ->
  toLowerCase cmd <> lit "clear" ->
  exists out, lines (executeCommand st input) = lines st ++ out.
Proof.
  intros Hs Hn. destruct cmd as [|c cmd'].
  - exists []. rewrite app_nil_r. unfold executeCommand. rewrite Hs. reflexivity.
  - destruct (executeCommand_frame st input Hs ltac:(discriminate))
      as (_ & _ & _ & H).
    exact (H Hn).
Qed.

(** X3 at [cat about]. *)
Lemma transcript_grows_unless_clear_witness :
  exists out, lines (executeCommand init (lit "cat about")) = lines init ++ out.
Proof.
  exact (transcript_grows_unless_clear init (lit "cat about")
           (cmd := lit "cat") (args := [lit "about"])
           ltac:(vm_compute; reflexivity) ltac:(vm_compute; discriminate)).
Defined.

(** X4: a line whose first word lower-cases to [clear], with whatever
    arguments, empties the transcript, prints nothing (not even its own
    prompt), keeps the current directory and is still recorded in the
    history. *)
Theorem clear_wipes_transcript_only (st : State) (input cmd : jsstring)
        (args : list jsstring) :
  split_ws (trim input) = cmd :: args ->
  toLowerCase cmd = lit "clear" ->
  lines (executeCommand st input) = []
  /\ currentPath (executeCommand st input) = currentPath st
  /\ commandHistory (executeCommand st input) = commandHistory st ++ [trim input].
Proof.
  intros Hs Hc.
  assert (Hne : cmd <> []) by (intros ->; vm_compute in Hc; discriminate Hc).
  destruct (executeCommand_frame st input Hs Hne) as (A & _ & H & _).
  destruct (H Hc) as (L & P). auto.
Qed.

(** X4 at [CLEAR everything]. *)
Lemma clear_wipes_transcript_only_witness :
  lines (executeCommand init (lit "CLEAR everything")) = [].
Proof.
  pose proof (clear_wipes_transcript_only init (lit "CLEAR everything")
                (cmd := lit "CLEAR") (args := [lit "everything"])
                ltac:(vm_compute; reflexivity) ltac:(vm_compute; reflexivity))
    as (H & _).
  exact H.
Defined.

Lemma executeCommand_index (st : State) (input : jsstring) :
  (-1 <= historyIndex st < Z.of_nat (List.length (commandHistory st)))%Z ->
  (-1 <= historyIndex (executeCommand st input)
      < Z.of_nat (List.length (commandHistory (executeCommand st input))))%Z.
Proof.
  intros H. destruct (trim input) as [|c t] eqn:Ht.
  - rewrite (executeCommand_idle st input Ht). exact H.
  - assert (Hn : trim input <> []) by (rewrite Ht; discriminate).
    destruct (first_token input Hn) as (cmd & args & Hs & Hc).
    destruct (executeCommand_frame st input Hs Hc) as (A & B & _).
    rewrite A, B, length_app. simpl. lia.
Qed.

Lemma recall_in_bounds (st : State) (i : Z) :
  (0 <= i < Z.of_nat (List.length (commandHistory st)))%Z ->
  nth_error (rev (commandHistory st)) (Z.to_nat i) = Some (recall st i).
Proof.
  intros H. unfold recall, arrayAt.
  set (h := commandHistory st) in *.
  destruct (Z.ltb_spec (Z.of_nat (List.length h) - 1 - i) 0); [lia |].
  rewrite nth_error_rev.
  destruct (Nat.ltb_spec (Z.to_nat i) (List.length h)); [| lia].
  replace (Z.to_nat (Z.of_nat (List.length h) - 1 - i))
    with (List.length h - S (Z.to_nat i))%nat by lia.
  destruct (nth_error h (List.length h - S (Z.to_nat i))) eqn:E; [reflexivity |].
  apply nth_error_None in E. lia.
Qed.

Lemma act_consistent (st : State) (a : Action) :
  has (currentPath st) = true ->
  (-1 <= historyIndex st < Z.of_nat (List.length (commandHistory st)))%Z ->
  has (currentPath (act st a)) = true
  /\ (-1 <= historyIndex (act st a)
         < Z.of_nat (List.length (commandHistory (act st a))))%Z.
Proof.
  intros Hp Hi. destruct a as [[] | v]; cbn [act handleKeyDown].
  - split; [apply executeCommand_path_registered; exact Hp
           | apply executeCommand_index; exact Hi].
  - destruct (0 <? _)%nat; [| auto]. cbv zeta.
    destruct (Z.ltb_spec (historyIndex st + 1)
                         (Z.of_nat (List.length (commandHistory st))));
      [| auto].
    state_fields. split; [exact Hp | lia].
  - destruct (Z.ltb_spec 0 (historyIndex st)).
    + cbv zeta. state_fields. split; [exact Hp | lia].
    + destruct (Z.eqb_spec (historyIndex st) 0); [| auto].
      state_fields. split; [exact Hp | lia].
  - cbv zeta. destruct (filter _ _) as [|m [|m' r]]; auto.
  - auto.
  - auto.
Qed.

(** X5: after any sequence of key presses and edits of the input box,
    starting from the mounted component, the current directory is a
    registered one and the history cursor lies between [-1] and the last
    index of the history; so the reads [commandHistory[length - 1 - i]] of
    the arrow keys stay inside the history. *)
Theorem session_consistent (acts : list Action) :
  has (currentPath (session init acts)) = true
  /\ (-1 <= historyIndex (session init acts)
         < Z.of_nat (List.length (commandHistory (session init acts))))%Z.
Proof.
  unfold session.
  assert (H0 : has (currentPath init) = true
               /\ (-1 <= historyIndex init
                      < Z.of_nat (List.length (commandHistory init)))%Z)
    by (split; [reflexivity | cbn; lia]).
  revert H0. generalize init as st.
  induction acts as [|a acts IH]; intros st [Hp Hi]; cbn [fold_left].
  - auto.
  - apply IH. apply act_consistent; assumption.
Qed.

(** X6: with the cursor at rest ([-1]) and a history that is not empty,
    pressing ArrowUp [k + 1] times shows the entry [k] places back from the
    most recent one, and stops at the oldest entry when pressed more often;
    the history, the transcript and the directory are untouched. *)
Theorem arrow_up_recalls (st : State) (k : nat) :
  historyIndex st = (-1)%Z -> commandHistory st <> [] ->
  let oldest := (List.length (commandHistory st) - 1)%nat in
  let st' := session st (repeat (Press ArrowUp) (S k)) in
  historyIndex st' = Z.of_nat (Nat.min k oldest)
  /\ nth_error (rev (commandHistory st)) (Nat.min k oldest)
     = Some (currentInput st')
  /\ commandHistory st' = commandHistory st
  /\ lines st' = lines st /\ currentPath st' = currentPath st.
Proof.
  intros Hi Hh oldest st'. subst st'.
  assert (Hlen : (0 < List.length (commandHistory st))%nat)
    by (destruct (commandHistory st); [congruence | simpl; lia]).
  induction k as [|k IH].
  - cbn [repeat session fold_left act handleKeyDown].
    destruct (Nat.ltb_spec 0 (List.length (commandHistory st))); [| lia].
    cbv zeta. rewrite Hi.
    destruct (Z.ltb_spec (-1 + 1) (Z.of_nat (List.length (commandHistory st))));
      [| lia].
    state_fields. rewrite Nat.min_0_l.
    repeat split. apply (@recall_in_bounds st 0%Z). lia.
  - replace (repeat (Press ArrowUp) (S (S k)))
      with (repeat (Press ArrowUp) (S k) ++ [Press ArrowUp])
      by (rewrite <- repeat_cons; reflexivity).
    unfold session in *. rewrite fold_left_app.
    set (s1 := fold_left act (repeat (Press ArrowUp) (S k)) st) in *.
    destruct IH as (I1 & I2 & I3 & I4 & I5).
    cbn [fold_left act handleKeyDown]. rewrite I3.
    destruct (Nat.ltb_spec 0 (List.length (commandHistory st))); [| lia].
    cbv zeta. rewrite I1.
    destruct (Z.ltb_spec (Z.of_nat (Nat.min k oldest) + 1)
                         (Z.of_nat (List.length (commandHistory st)))).
    + state_fields.
      assert (Hm : Nat.min (S k) oldest = S (Nat.min k oldest))
        by (subst oldest; lia).
      rewrite Hm. repeat split; try assumption; try lia.
      unfold recall. rewrite I3. fold (recall st (Z.of_nat (Nat.min k oldest) + 1)).
      rewrite <- (@recall_in_bounds st (Z.of_nat (Nat.min k oldest) + 1)) by lia.
      f_equal. lia.
    + assert (Hm : Nat.min (S k) oldest = Nat.min k oldest)
        by (subst oldest; lia).
      rewrite Hm. auto.
Qed.

(** X6 with two entries in the history and three presses. *)
Lemma arrow_up_recalls_witness :
  let st := executeCommand (executeCommand init (lit "pwd")) (lit "ls") in
  nth_error (rev (commandHistory st))
            (Nat.min 2 (List.length (commandHistory st) - 1))
  = Some (currentInput (session st (repeat (Press ArrowUp) 3))).
Proof.
  intros st.
  pose proof (@arrow_up_recalls st 2 ltac:(vm_compute; reflexivity)
                ltac:(vm_compute; discriminate)) as (_ & H & _).
  exact H.
Defined.

End TerminalSession.

Module TerminalKeys.
Import JS JSFacts JSMore Terminal TerminalFacts Keys TerminalMore TerminalSession.

(** X7: ArrowDown undoes ArrowUp: when ArrowUp can move (there is an older
    entry), ArrowUp followed by ArrowDown restores the cursor, and shows the
    entry the cursor was at; from the rest position it leaves the input box
    empty, so a draft typed before ArrowUp is not brought back. *)
Theorem arrow_down_undoes_up (st : State) :
  (-1 <= historyIndex st)%Z ->
  (historyIndex st + 1 < Z.of_nat (List.length (commandHistory st)))%Z ->
  let st' := session st [Press ArrowUp; Press ArrowDown] in
  historyIndex st' = historyIndex st
  /\ currentInput st'
     = (if (historyIndex st =? -1)%Z then [] else recall st (historyIndex st))
  /\ commandHistory st' = commandHistory st
  /\ lines st' = lines st /\ currentPath st' = currentPath st.
Proof.
  intros Hlo Hhi st'. subst st'.
  cbn [session fold_left act].
  assert (Up : handleKeyDown st ArrowUp
               = setCurrentInput (recall st (historyIndex st + 1))
                   (setHistoryIndex (historyIndex st + 1) st)).
  { cbn [handleKeyDown].
    destruct (Nat.ltb_spec 0 (List.length (commandHistory st))); [| lia].
    cbv zeta.
    destruct (Z.ltb_spec (historyIndex st + 1)
                         (Z.of_nat (List.length (commandHistory st)))); [| lia].
    reflexivity. }
  rewrite Up. cbn [handleKeyDown]. state_fields.
  destruct (Z.ltb_spec 0 (historyIndex st + 1)).
  - cbv zeta. state_fields.
    destruct (Z.eqb_spec (historyIndex st) (-1)); [lia |].
    replace (historyIndex st + 1 - 1)%Z with (historyIndex st) by lia.
    repeat split.
  - destruct (Z.eqb_spec (historyIndex st + 1) 0); [| lia].
    state_fields.
    destruct (Z.eqb_spec (historyIndex st) (-1)); [| lia].
    repeat split. lia.
Qed.

(** X7 at the rest position with a draft in the input box. *)
Lemma arrow_down_undoes_up_witness :
  let st := setCurrentInput (lit "draft")
              (executeCommand (executeCommand init (lit "pwd")) (lit "ls")) in
  currentInput (session st [Press ArrowUp; Press ArrowDown]) = [].
Proof.
  intros st.
  pose proof (@arrow_down_undoes_up st ltac:(vm_compute; discriminate)
                ltac:(vm_compute; reflexivity)) as (_ & H & _).
  exact H.
Defined.

Lemma startsWith_head (c : N) (p m : jsstring) :
  startsWith (c :: p) m = true -> hd 0%N m = c.
Proof.
  destruct m as [|d m]; simpl; [discriminate |].
  intros H. apply andb_true_iff in H. destruct H as [H _].
  apply N.eqb_eq in H. auto.
Qed.

Lemma command_names :
  map fst commands = [lit "help"; lit "whoami"; lit "clear"].
Proof. vm_compute. reflexivity. Qed.

(** X8: Tab either completes or does nothing.  It completes when the
    lower-cased input is a non-empty prefix of a name of the [commands]
    table ([help], [whoami], [clear]; the built-ins [cd], [ls], [pwd] and
    [cat] are not in the table), and the input then becomes that name; it
    does nothing on an empty input and on an input that is a prefix of no
    name. *)
Theorem tab_completes_unique_prefix (st : State) :
  let p := toLowerCase (currentInput st) in
  (exists m, In m (map fst commands) /\ p <> [] /\ startsWith p m = true
             /\ handleKeyDown st Tab = setCurrentInput m st)
  \/ ((p = [] \/ forall m, In m (map fst commands) -> startsWith p m = false)
      /\ handleKeyDown st Tab = st).
Proof.
  intros p. cbn [handleKeyDown]. cbv zeta. fold p.
  rewrite command_names. cbn [filter In].
  destruct p as [|c p'].
  - right. split; [left; reflexivity | reflexivity].
  - destruct (startsWith (c :: p') (lit "help")) eqn:E1;
      destruct (startsWith (c :: p') (lit "whoami")) eqn:E2;
      destruct (startsWith (c :: p') (lit "clear")) eqn:E3;
      try (pose proof (startsWith_head _ _ _ E1) as H1; vm_compute in H1);
      try (pose proof (startsWith_head _ _ _ E2) as H2; vm_compute in H2);
      try (pose proof (startsWith_head _ _ _ E3) as H3; vm_compute in H3);
      try congruence.
    + left. exists (lit "help").
      repeat split; auto. discriminate.
    + left. exists (lit "whoami").
      repeat split; auto. discriminate.
    + left. exists (lit "clear").
      repeat split; auto. discriminate.
    + right. split; [right | reflexivity].
      intros m [<- | [<- | [<- | []]]]; assumption.
Qed.

End TerminalKeys.

Module TerminalFiles.
Import JS JSFacts JSMore Terminal TerminalFacts Keys TerminalMore TerminalSession.

Ltac enter_branch Hs Hc :=
  unfold executeCommand; rewrite Hs, Hc; cbv zeta;
  match goal with
  | |- context [negb (truthy (lit ?w))] =>
    change (negb (truthy (lit w))) with false
  end; cbv iota.

Lemma executeCommand_cd_path (st : State) (input cmd : jsstring)
      (args : list jsstring) :
  split_ws (trim input) = cmd :: args -> toLowerCase cmd = lit "cd" ->
  currentPath (executeCommand st input)
  = resolvePath (currentPath st) (join (lit " ") args).
Proof.
  intros Hs Hc. enter_branch Hs Hc.
  change (eqb (lit "cd") (lit "cd")) with true. cbv iota.
  destruct (eqb (resolvePath _ _) (currentPath st)) eqn:E.
  - apply eqb_eq in E. destruct (_ && _); state_fields; symmetry; exact E.
  - state_fields. reflexivity.
Qed.

Lemma executeCommand_pwd (st : State) (input cmd : jsstring)
      (args : list jsstring) :
  split_ws (trim input) = cmd :: args -> toLowerCase cmd = lit "pwd" ->
  lines (executeCommand st input)
  = lines st ++ echo st input ++ [outLine (currentPath st)].
Proof.
  intros Hs Hc. enter_branch Hs Hc.
  change (eqb (lit "pwd") (lit "cd")) with false.
  change (eqb (lit "pwd") (lit "pwd")) with true. cbv iota.
  state_fields. reflexivity.
Qed.

(** X9: [pwd] after [cd] prints the path [resolvePath] gave for the
    argument of [cd], whether the [cd] moved or was refused: the last line
    of the transcript is that path. *)
Theorem cd_then_pwd (st : State) (i1 c1 : jsstring) (a1 : list jsstring)
        (i2 c2 : jsstring) (a2 : list jsstring) :
  split_ws (trim i1) = c1 :: a1 -> toLowerCase c1 = lit "cd" ->
  split_ws (trim i2) = c2 :: a2 -> toLowerCase c2 = lit "pwd" ->
  exists before,
    lines (executeCommand (executeCommand st i1) i2)
    = before ++ [outLine (resolvePath (currentPath st) (join (lit " ") a1))].
Proof.
  intros H1 C1 H2 C2.
  rewrite (executeCommand_pwd (executeCommand st i1) i2 H2 C2).
  rewrite (executeCommand_cd_path st i1 H1 C1).
  eexists. rewrite app_assoc. reflexivity.
Qed.

(** X9 at [cd certifications/cloud] and [PWD] typed at home. *)
Lemma cd_then_pwd_witness :
  exists before,
    lines (executeCommand (executeCommand init (lit "cd certifications/cloud"))
                          (lit "PWD"))
    = before ++ [outLine (resolvePath (currentPath init)
                            (join (lit " ") [lit "certifications/cloud"]))].
Proof.
  exact (@cd_then_pwd init (lit "cd certifications/cloud") (lit "cd")
           [lit "certifications/cloud"] (lit "PWD") (lit "PWD") []
           ltac:(vm_compute; reflexivity) ltac:(vm_compute; reflexivity)
           ltac:(vm_compute; reflexivity) ltac:(vm_compute; reflexivity)).
Defined.

(** *** Paths *)

Lemma normalizePath_other (p : jsstring) :
  p <> lit "~" ->
  normalizePath p
  = rev ((fix strip (r : jsstring) : jsstring :=
            match r with
            | c :: r' => if (c =? 47)%N then strip r' else r
            | [] => []
            end) (rev p)).
Proof.
  intros H. unfold normalizePath. apply eqb_neq in H. rewrite H. reflexivity.
Qed.

Lemma normalizePath_idem (p : jsstring) :
  normalizePath (normalizePath p) = normalizePath p.
Proof.
  set (strip := fix strip (r : jsstring) : jsstring :=
                  match r with
                  | c :: r' => if (c =? 47)%N then strip r' else r
                  | [] => []
                  end).
  assert (Hidem : forall l, strip (strip l) = strip l).
  { induction l as [|c l IH]; [reflexivity |].
    simpl. destruct (c =? 47)%N eqn:E; [exact IH | simpl; rewrite E; reflexivity]. }
  destruct (eqb p (lit "~")) eqn:E.
  - apply eqb_eq in E. subst p. reflexivity.
  - apply eqb_neq in E. rewrite (normalizePath_other E). fold strip.
    destruct (eqb (rev (strip (rev p))) (lit "~")) eqn:E2.
    + apply eqb_eq in E2. rewrite E2. reflexivity.
    + apply eqb_neq in E2. rewrite (normalizePath_other E2). fold strip.
      rewrite rev_involutive, Hidem. reflexivity.
Qed.

Lemma normalizePath_slash (p : jsstring) :
  normalizePath (p ++ lit "/") = normalizePath p.
Proof.
  assert (Hn : p ++ lit "/" <> lit "~").
  { destruct p as [|a [|b p]]; simpl; discriminate. }
  rewrite (normalizePath_other Hn).
  rewrite rev_app_distr.
  change (rev (lit "/") ++ rev p) with (47%N :: rev p).
  cbn [N.eqb Pos.eqb]. cbv iota.
  destruct (eqb p (lit "~")) eqn:E.
  - apply eqb_eq in E. subst p. reflexivity.
  - apply eqb_neq in E. rewrite (normalizePath_other E). reflexivity.
Qed.

(** Case analysis on a registered directory. *)
Ltac each_directory H :=
  apply has_true in H; unfold directorySet in H; cbn [In] in H;
  repeat (destruct H as [H | H]); [subst .. | contradiction H].

Lemma listDirectory_registered (p : jsstring) :
  listDirectory p <> [] -> has (normalizePath p) = true.
Proof.
  unfold listDirectory. cbv zeta.
  destruct (eqb (normalizePath p) (lit "~")) eqn:E1.
  { intros _. apply eqb_eq in E1. rewrite E1. reflexivity. }
  destruct (eqb (normalizePath p) (lit "~/certifications")) eqn:E2.
  { intros _. apply eqb_eq in E2. rewrite E2. reflexivity. }
  destruct (isCategoryPath (normalizePath p)) eqn:E3.
  { intros _. unfold isCategoryPath in E3. apply existsb_exists in E3.
    destruct E3 as (c & Hc & E). apply eqb_eq in E. rewrite E.
    cbn [In] in Hc.
    repeat (destruct Hc as [Hc | Hc]); try (subst c; reflexivity).
    contradiction Hc. }
  destruct (eqb (normalizePath p) (lit "~/projects")) eqn:E4.
  { intros _. apply eqb_eq in E4. rewrite E4. reflexivity. }
  congruence.
Qed.

Lemma listDirectory_normalized (p : jsstring) :
  listDirectory p = listDirectory (normalizePath p).
Proof.
  unfold listDirectory. rewrite (normalizePath_idem p). reflexivity.
Qed.

Lemma registered_listed (p : jsstring) :
  has (normalizePath p) = true -> listDirectory p <> [].
Proof.
  intros H. rewrite listDirectory_normalized.
  remember (normalizePath p) as q eqn:Eq. clear Eq.
  each_directory H; vm_compute; discriminate.
Qed.

(** X10: trailing slashes are ignored: [normalizePath] and
    [listDirectory] give the same result on a path and on the path followed
    by any number of slashes, and normalizing twice is normalizing once. *)
Theorem trailing_slashes_ignored (p : jsstring) (n : nat) :
  normalizePath (p ++ repeat 47%N n) = normalizePath p
  /\ listDirectory (p ++ repeat 47%N n) = listDirectory p
  /\ normalizePath (normalizePath p) = normalizePath p.
Proof.
  assert (H : normalizePath (p ++ repeat 47%N n) = normalizePath p).
  { induction n as [|n IH].
    - cbn [repeat]. rewrite app_nil_r. reflexivity.
    - cbn [repeat]. rewrite repeat_cons, app_assoc.
      change [47%N] with (lit "/"). rewrite normalizePath_slash. exact IH. }
  split; [exact H |]. split; [| apply normalizePath_idem].
  unfold listDirectory. rewrite H. reflexivity.
Qed.

(** X11: a path has a listing that is not empty exactly when, once
    normalized, it is a registered directory: no registered directory is
    empty and nothing else can be listed. *)
Theorem listing_nonempty_iff_registered (p : jsstring) :
  listDirectory p <> [] <-> has (normalizePath p) = true.
Proof.
  split; [apply listDirectory_registered | apply registered_listed].
Qed.

(** Case analysis on an entry of a known listing. *)
Ltac each_entry H :=
  vm_compute in H; repeat (destruct H as [H | H]); [subst .. | contradiction H].

(** X12: every directory entry that [ls] shows in a registered directory
    can be entered: resolving its name from that directory gives the
    directory path, a slash and the name, and that path is registered. *)
Theorem listed_directories_enterable (p : jsstring) (e : Entry) :
  has p = true -> In e (listDirectory p) -> kind e = dir ->
  resolvePath p (name e) = p ++ lit "/" ++ name e
  /\ has (resolvePath p (name e)) = true.
Proof.
  intros Hp He Hk.
  each_directory Hp; each_entry He; try discriminate Hk;
    vm_compute; split; reflexivity.
Qed.

(** X12 at [leadership] under [~/certifications]. *)
Lemma listed_directories_enterable_witness :
  resolvePath (lit "~/certifications") (lit "leadership")
  = lit "~/certifications" ++ lit "/" ++ lit "leadership"
  /\ has (resolvePath (lit "~/certifications") (lit "leadership")) = true.
Proof.
  exact (@listed_directories_enterable (lit "~/certifications")
           {| name := lit "leadership"; kind := dir |}
           ltac:(vm_compute; reflexivity)
           ltac:(vm_compute; tauto)
           ltac:(reflexivity)).
Defined.

Lemma executeCommand_cat (st : State) (input cmd : jsstring)
      (args : list jsstring) :
  split_ws (trim input) = cmd :: args -> toLowerCase cmd = lit "cat" ->
  join (lit " ") args <> [] ->
  let targetArg := join (lit " ") args in
  let candidate :=
    if startsWith (lit "~/") targetArg then targetArg
    else if eqb (currentPath st) (lit "~") then lit "~/" ++ targetArg
    else currentPath st ++ lit "/" ++ targetArg in
  lines (executeCommand st input)
  = lines st ++ echo st input
    ++ match lookup (normalizePath candidate) fileContents with
       | Some (u :: c) => map outLine (split_on 10 (u :: c))
       | _ => [errLine (lit "cat: " ++ targetArg ++ lit ": No such file")]
       end.
Proof.
  intros Hs Hc Ha targetArg candidate. enter_branch Hs Hc.
  change (eqb (lit "cat") (lit "cd")) with false.
  change (eqb (lit "cat") (lit "pwd")) with false.
  change (eqb (lit "cat") (lit "ls")) with false.
  change (eqb (lit "cat") (lit "cat")) with true. cbv iota.
  fold targetArg. apply truthy_true in Ha. fold targetArg in Ha. rewrite Ha.
  cbn [negb]. fold candidate.
  destruct (lookup (normalizePath candidate) fileContents) as [[|u c] |];
    cbn [truthy]; state_fields; reflexivity.
Qed.

(** X13: every file entry of the listing of the current directory can be
    read with [cat <name>]: the store of file contents holds a text that is
    not empty under the directory path, a slash and the name, and [cat]
    prints its lines after the prompt; a directory entry gives the error
    line [cat: <name>: No such file]. *)
Theorem listed_files_readable (st : State) (e : Entry) (input cmd : jsstring)
        (args : list jsstring) :
  has (currentPath st) = true -> In e (listDirectory (currentPath st)) ->
  split_ws (trim input) = cmd :: args -> toLowerCase cmd = lit "cat" ->
  join (lit " ") args = name e ->
  match kind e with
  | file =>
    exists text, text <> []
      /\ lookup (currentPath st ++ lit "/" ++ name e) fileContents = Some text
      /\ lines (executeCommand st input)
         = lines st ++ echo st input ++ map outLine (split_on 10 text)
  | dir =>
    lines (executeCommand st input)
    = lines st ++ echo st input
      ++ [errLine (lit "cat: " ++ name e ++ lit ": No such file")]
  end.
Proof.
  intros Hp He Hs Hc Ha.
  assert (Hne : join (lit " ") args <> []).
  { rewrite Ha. remember (currentPath st) as p eqn:Ep. clear Ep.
    each_directory Hp; each_entry He; vm_compute; discriminate. }
  rewrite (executeCommand_cat st input Hs Hc Hne). cbv zeta. rewrite Ha.
  generalize (lines st) (echo st input). intros l0 l1.
  remember (currentPath st) as p eqn:Ep. clear Ep.
  each_directory Hp; each_entry He; cbn [kind name];
    first [ eexists; split; [| split; [vm_compute; reflexivity |]];
            [ discriminate | vm_compute; reflexivity ]
          | vm_compute; reflexivity ].
Qed.

(** X13 at [cat about] typed at home. *)
Lemma listed_files_readable_witness :
  exists text, text <> []
    /\ lookup (currentPath init ++ lit "/" ++ lit "about") fileContents
       = Some text
    /\ lines (executeCommand init (lit "cat about"))
       = lines init ++ echo init (lit "cat about")
         ++ map outLine (split_on 10 text).
Proof.
  exact (@listed_files_readable init {| name := lit "about"; kind := file |}
           (lit "cat about") (lit "cat") [lit "about"]
           ltac:(vm_compute; reflexivity) ltac:(vm_compute; tauto)
           ltac:(vm_compute; reflexivity) ltac:(vm_compute; reflexivity)
           ltac:(vm_compute; reflexivity)).
Defined.

(** *** Listing lines *)

Lemma stripMarker_marker (x : jsstring) : stripMarker (lit "__ls__:" ++ x) = x.
Proof. vm_compute. reflexivity. Qed.

Lemma item_clean (sep : N) (e : Entry) :
  sep = 32%N \/ sep = 124%N ->
  ~ In sep (name e) -> ~ In sep (kindName (kind e)).
Proof.
  intros Hsep _. destruct (kind e); vm_compute;
    intros H; repeat (destruct H as [H | H]; [destruct Hsep; congruence |]);
    exact H.
Qed.

Lemma item_split (e : Entry) :
  ~ In 124%N (name e) ->
  split_on 124 (name e ++ lit "|" ++ kindName (kind e))
  = [name e; kindName (kind e)].
Proof.
  intros H.
  change (name e ++ lit "|" ++ kindName (kind e))
    with (join [124%N] [name e; kindName (kind e)]).
  apply split_on_join; [discriminate |].
  constructor; [exact H |]. constructor; [| constructor].
  apply item_clean; [right; reflexivity | exact H].
Qed.

(** The renderer reads back the entries a listing line was built from,
    when no name holds a space or a bar. *)
Lemma decodeLs_marker (entries : list Entry) :
  entries <> [] ->
  Forall (fun e => ~ In 32%N (name e) /\ ~ In 124%N (name e)) entries ->
  decodeLs (marker entries)
  = map (fun e => (name e, Some (kindName (kind e)))) entries.
Proof.
  intros Hne Hall. unfold decodeLs, marker. rewrite stripMarker_marker.
  cbv zeta.
  set (item := fun e : Entry => name e ++ lit "|" ++ kindName (kind e)).
  assert (Ht : truthy (join (lit " ") (map item entries)) = true).
  { destruct entries as [|e [|e' es]]; [contradiction | |];
      cbn [map join]; unfold item; destruct (name e); reflexivity. }
  rewrite Ht. change (lit " ") with [32%N].
  rewrite split_on_join.
  - rewrite map_map. apply map_ext_in. intros e He.
    rewrite Forall_forall in Hall. destruct (Hall e He) as [_ Hbar].
    unfold item. rewrite (item_split e Hbar). reflexivity.
  - destruct entries; [contradiction | discriminate].
  - apply Forall_map. apply (Forall_impl _ (P := fun e =>
        ~ In 32%N (name e) /\ ~ In 124%N (name e))); [| exact Hall].
    intros e [Hsp _]. unfold item. intros H.
    apply in_app_or in H. destruct H as [H | H]; [exact (Hsp H) |].
    apply in_app_or in H. destruct H as [H | H].
    + vm_compute in H. destruct H as [H | []]. discriminate H.
    + exact (@item_clean 32%N e (or_introl eq_refl) Hsp H).
Qed.

Lemma clean_sound (n : jsstring) :
  negb (existsb (N.eqb 32) n) && negb (existsb (N.eqb 124) n) = true ->
  ~ In 32%N n /\ ~ In 124%N n.
Proof.
  rewrite andb_true_iff, !negb_true_iff.
  intros [H1 H2]. split; intros H.
  - assert (existsb (N.eqb 32) n = true)
      by (apply existsb_exists; exists 32%N; split; [exact H | apply N.eqb_refl]).
    congruence.
  - assert (existsb (N.eqb 124) n = true)
      by (apply existsb_exists; exists 124%N; split; [exact H | apply N.eqb_refl]).
    congruence.
Qed.

Lemma listDirectory_names (p : jsstring) :
  Forall (fun e => ~ In 32%N (name e) /\ ~ In 124%N (name e)) (listDirectory p).
Proof.
  apply Forall_forall. intros e He. apply clean_sound.
  assert (Hne : listDirectory p <> []) by (intros E; rewrite E in He; exact He).
  apply listDirectory_registered in Hne.
  rewrite listDirectory_normalized in He.
  remember (normalizePath p) as q eqn:Eq. clear Eq.
  each_directory Hne; each_entry He; vm_compute; reflexivity.
Qed.

(** X14: [ls] never prints an error.  After the prompt it adds one output
    line when the (normalized) target is a registered directory and nothing
    otherwise, the directory is unchanged, and the renderer's decoding of
    the line ([__ls__:] stripped, split at spaces, each item split at [|])
    gives back the names and kinds of [listDirectory], in order. *)
Theorem ls_prints_listing_or_nothing (st : State) (input cmd : jsstring)
        (args : list jsstring) :
  split_ws (trim input) = cmd :: args -> toLowerCase cmd = lit "ls" ->
  let targetArg := join (lit " ") args in
  let targetPath := if truthy targetArg
                    then resolvePath (currentPath st) targetArg
                    else currentPath st in
  let entries := listDirectory (normalizePath targetPath) in
  currentPath (executeCommand st input) = currentPath st
  /\ exists out,
       lines (executeCommand st input) = lines st ++ echo st input ++ out
       /\ Forall (fun l => type l = output) out
       /\ List.length out = (if has (normalizePath targetPath) then 1 else 0)%nat
       /\ List.concat (map (fun l => decodeLs (content l)) out)
          = map (fun e => (name e, Some (kindName (kind e)))) entries.
Proof.
  intros Hs Hc targetArg targetPath entries. enter_branch Hs Hc.
  change (eqb (lit "ls") (lit "cd")) with false.
  change (eqb (lit "ls") (lit "pwd")) with false.
  change (eqb (lit "ls") (lit "ls")) with true. cbv iota.
  fold targetArg. fold targetPath.
  rewrite <- (listDirectory_normalized targetPath).
  pose proof (@listDirectory_registered targetPath) as Hreg1.
  pose proof (@registered_listed targetPath) as Hreg2.
  pose proof (listDirectory_names targetPath) as Hnames.
  subst entries. rewrite <- (listDirectory_normalized targetPath).
  fold (marker (listDirectory targetPath)).
  destruct (listDirectory targetPath) as [|e es] eqn:El.
  - state_fields. split; [reflexivity |]. exists [].
    split; [reflexivity |]. split; [constructor |]. split; [| reflexivity].
    destruct (has (normalizePath targetPath)); [| reflexivity].
    exfalso. apply Hreg2; reflexivity.
  - state_fields. split; [reflexivity |].
    exists [outLine (marker (e :: es))].
    split; [reflexivity |].
    split; [constructor; [reflexivity | constructor] |].
    split.
    + rewrite Hreg1 by discriminate. reflexivity.
    + cbn [map List.concat outLine content]. rewrite app_nil_r.
      apply decodeLs_marker; [discriminate | exact Hnames].
Qed.

(** X14 at [ls projects/] typed at home. *)
Lemma ls_prints_listing_or_nothing_witness :
  let targetArg := join (lit " ") [lit "projects/"] in
  let targetPath := if truthy targetArg
                    then resolvePath (currentPath init) targetArg
                    else currentPath init in
  let entries := listDirectory (normalizePath targetPath) in
  currentPath (executeCommand init (lit "ls projects/")) = currentPath init
  /\ exists out,
       lines (executeCommand init (lit "ls projects/"))
       = lines init ++ echo init (lit "ls projects/") ++ out
       /\ Forall (fun l => type l = output) out
       /\ List.length out = (if has (normalizePath targetPath) then 1 else 0)%nat
       /\ List.concat (map (fun l => decodeLs (content l)) out)
          = map (fun e => (name e, Some (kindName (kind e)))) entries.
Proof.
  exact (@ls_prints_listing_or_nothing init (lit "ls projects/")
           (lit "ls") [lit "projects/"]
           ltac:(vm_compute; reflexivity) ltac:(vm_compute; reflexivity)).
Defined.

(** *** Moving around *)

Lemma currentSegments_join (segs : list jsstring) :
  segs <> [] -> Forall (fun s => ~ In 47%N s) segs ->
  currentSegments (lit "~/" ++ join (lit "/") segs) = segs.
Proof.
  intros Hne Hall. unfold currentSegments.
  change (lit "~/" ++ join (lit "/") segs)
    with (126%N :: 47%N :: join [47%N] segs).
  cbn [eqb N.eqb Pos.eqb andb startsWith slice_from skipn].
  change (lit "~/") with [126%N; 47%N].
  cbn [eqb N.eqb Pos.eqb andb startsWith slice_from skipn].
  apply split_on_join; assumption.
Qed.

Lemma resolvePath_up (current : jsstring) :
  resolvePath current (lit "..")
  = match currentSegments current with
    | [] => lit "~"
    | segs => match removelast segs with
              | [] => lit "~"
              | popped => lit "~/" ++ join (lit "/") popped
              end
    end.
Proof.
  unfold resolvePath.
  assert (E : trim (lit "..") = lit "..") by (vm_compute; reflexivity).
  rewrite E. cbv zeta.
  change (negb (truthy (lit ".."))) with false.
  change (eqb (lit "..") (lit "~")) with false.
  change (eqb (lit "..") (lit ".")) with false.
  change (eqb (lit "..") (lit "..")) with true.
  cbv iota. destruct (currentSegments current) as [|x l]; [reflexivity |].
  destruct (removelast (x :: l)); reflexivity.
Qed.

Lemma home_is_top : resolvePath (lit "~") (lit "..") = lit "~".
Proof. vm_compute. reflexivity. Qed.

Lemma up_from (l : list jsstring) (x : jsstring) :
  Forall (fun s => ~ In 47%N s) (l ++ [x]) ->
  resolvePath (lit "~/" ++ join (lit "/") (l ++ [x])) (lit "..")
  = match l with
    | [] => lit "~"
    | _ => lit "~/" ++ join (lit "/") l
    end.
Proof.
  intros Hall. rewrite resolvePath_up.
  rewrite currentSegments_join;
    [| destruct l; discriminate | exact Hall].
  destruct (l ++ [x]) as [|a r] eqn:E; [destruct l; discriminate |].
  rewrite <- E, removelast_last. destruct l; reflexivity.
Qed.

(** X15: [cd ..] climbs one segment at a time and stops at home: from
    [~/s1/.../sk] (segments without a slash), resolving [..] at least [k]
    times gives [~]. *)
Theorem cd_up_reaches_home (segs : list jsstring) (n : nat) :
  segs <> [] -> Forall (fun s => ~ In 47%N s) segs ->
  (List.length segs <= n)%nat ->
  Nat.iter n (fun p => resolvePath p (lit ".."))
           (lit "~/" ++ join (lit "/") segs)
  = lit "~".
Proof.
  set (up := fun p => resolvePath p (lit "..")).
  assert (Hhome : forall k, Nat.iter k up (lit "~") = lit "~").
  { induction k as [|k IH]; [reflexivity |].
    cbn [Nat.iter nat_rect]. fold (Nat.iter k up (lit "~")). rewrite IH.
    apply home_is_top. }
  revert n. induction segs as [|x l IH] using rev_ind; [congruence |].
  intros n _ Hall Hn. rewrite length_app in Hn. cbn [List.length] in Hn.
  destruct n as [|n]; [lia |].
  rewrite Nat.iter_succ_r. unfold up at 2. rewrite (up_from l x Hall).
  destruct l as [|y l'].
  - apply Hhome.
  - apply IH; [discriminate | | lia].
    apply Forall_app in Hall. tauto.
Qed.

(** X15 from [~/certifications/cloud]. *)
Lemma cd_up_reaches_home_witness :
  Nat.iter 2 (fun p => resolvePath p (lit ".."))
           (lit "~/" ++ join (lit "/") [lit "certifications"; lit "cloud"])
  = lit "~".
Proof.
  apply (@cd_up_reaches_home [lit "certifications"; lit "cloud"] 2).
  - discriminate.
  - repeat constructor; vm_compute; intros H;
      repeat (destruct H as [H | H]; [discriminate H |]); exact H.
  - apply le_n.
Defined.

(** X16: a registered directory given by its full path is reached from
    any current directory, registered or not. *)
Theorem cd_registered_path_from_anywhere (current q : jsstring) :
  has q = true -> resolvePath current q = q.
Proof.
  intros H. each_directory H; vm_compute; reflexivity.
Qed.

(** X16 from [~/projects] to [~/certifications/cloud]. *)
Lemma cd_registered_path_from_anywhere_witness :
  resolvePath (lit "~/projects") (lit "~/certifications/cloud")
  = lit "~/certifications/cloud".
Proof.
  exact (@cd_registered_path_from_anywhere (lit "~/projects")
           (lit "~/certifications/cloud") ltac:(vm_compute; reflexivity)).
Defined.

(** *** The certificates *)

(** X17: the table of certificates is consistent with the rest of the
    filesystem, as the comments of the source ask: the category of every
    certificate is a registered directory under [~/certifications], the
    certificate is listed there as a file, its text (which is not empty) is
    what the store of file contents holds under that path, it has a preview
    and a label, and the label is flagged on-going exactly for
    [on-going.txt]. *)
Theorem certificates_registered (f : CertFile) :
  In f certificationFiles ->
  has (lit "~/certifications/" ++ category f) = true
  /\ In {| name := cf_name f; kind := file |}
        (listDirectory (lit "~/certifications/" ++ category f))
  /\ lookup (lit "~/certifications/" ++ category f ++ lit "/" ++ cf_name f)
            fileContents = Some (cf_content f)
  /\ cf_content f <> []
  /\ lookup (cf_name f) certImageMap <> None
  /\ exists meta, lookup (cf_name f) certMeta = Some meta
                  /\ (ongoing meta = Some true
                      <-> cf_name f = lit "on-going.txt").
Proof.
  intros H. unfold certificationFiles in H. cbn [In] in H.
  repeat (destruct H as [H | H]); [subst f .. | contradiction H];
    cbn [cf_name category];
    cbn [cf_content];
    (split; [vm_compute; reflexivity |]);
    (split; [vm_compute; tauto |]);
    (split; [vm_compute; reflexivity |]);
    (split; [vm_compute; discriminate |]);
    (split; [vm_compute; discriminate |]);
    (eexists; split; [vm_compute; reflexivity |]);
    cbn [ongoing]; (split; intros E; [| reflexivity || (vm_compute in E; discriminate E)]);
    (reflexivity || discriminate E).
Qed.

(** X17 at the on-going entry of [cloud]. *)
Lemma certificates_registered_witness :
  has (lit "~/certifications/" ++ lit "cloud") = true.
Proof.
  pose proof (@certificates_registered
                {| cf_name := lit "on-going.txt"; category := lit "cloud";
                   cf_content := lit "Additional cloud certifications in progress." |}
                ltac:(vm_compute; tauto)) as (H & _).
  exact H.
Defined.

(** *** Files by their full path, and the names that are not commands *)

Lemma lookup_In (V : Type) (k : jsstring) (o : list (jsstring * V)) (v : V) :
  lookup k o = Some v -> In (k, v) o.
Proof.
  induction o as [|[k' v'] o IH]; cbn [lookup]; [discriminate |].
  destruct (lookup k o) as [u |].
  - intros E. right. apply IH. exact E.
  - destruct (eqb k k') eqn:Ek; [| discriminate].
    intros E. apply eqb_eq in Ek. left. congruence.
Qed.

(** X29: every stored file can be read by its full path from any
    directory: [cat <key>], for a key of the store of file contents, prints
    the lines of the text stored under it, and no error. *)
Theorem stored_files_readable_by_full_path (st : State) (k text : jsstring)
        (input cmd : jsstring) (args : list jsstring) :
  lookup k fileContents = Some text ->
  split_ws (trim input) = cmd :: args -> toLowerCase cmd = lit "cat" ->
  join (lit " ") args = k ->
  lines (executeCommand st input)
  = lines st ++ echo st input ++ map outLine (split_on 10 text).
Proof.
  intros Hk Hs Hc Ha. apply lookup_In in Hk.
  assert (Hne : join (lit " ") args <> []).
  { rewrite Ha. clear Ha. vm_compute in Hk.
    repeat (destruct Hk as [Hk | Hk];
            [apply (f_equal fst) in Hk; cbn [fst] in Hk; rewrite <- Hk;
             discriminate |]).
    contradiction Hk. }
  rewrite (executeCommand_cat st input Hs Hc Hne). cbv zeta. rewrite Ha.
  generalize (lines st) (echo st input) (currentPath st). intros l0 l1 p.
  clear Hs Hc Ha Hne. vm_compute in Hk.
  repeat (destruct Hk as [Hk | Hk];
          [pose proof (f_equal fst Hk) as K1; pose proof (f_equal snd Hk) as K2;
           cbn [fst snd] in K1, K2; rewrite <- K1, <- K2;
           vm_compute; reflexivity |]).
  contradiction Hk.
Qed.

(** X29 at [cat ~/projects/guilds.md] typed in a category directory. *)
Lemma stored_files_readable_by_full_path_witness :
  let st := executeCommand init (lit "cd certifications/cloud") in
  lines (executeCommand st (lit "cat ~/projects/guilds.md"))
  = lines st ++ echo st (lit "cat ~/projects/guilds.md")
    ++ map outLine
         (split_on 10
            (lit "GDG On Campus UIC Guilds Platform - https://guilds.gdgocuic.org"
             ++ nl ++ lit "For the University Club Fair")).
Proof.
  intros st.
  exact (@stored_files_readable_by_full_path st (lit "~/projects/guilds.md")
           (lit "GDG On Campus UIC Guilds Platform - https://guilds.gdgocuic.org"
            ++ nl ++ lit "For the University Club Fair")
           (lit "cat ~/projects/guilds.md") (lit "cat")
           [lit "~/projects/guilds.md"]
           ltac:(vm_compute; reflexivity) ltac:(vm_compute; reflexivity)
           ltac:(vm_compute; reflexivity) ltac:(vm_compute; reflexivity)).
Defined.

(** X30: the names of the content files are not commands, and the branch
    that would answer them with [<name>: command not found] is never taken:
    a line whose first word lower-cases to one of [about], [experience],
    [contact], [skills], [projects], [certifications], [password.txt] gets
    the answer of every unknown command. *)
Theorem content_names_are_unknown_commands (st : State) (input cmd : jsstring)
        (args : list jsstring) :
  split_ws (trim input) = cmd :: args ->
  In (toLowerCase cmd)
     [lit "about"; lit "experience"; lit "contact"; lit "skills";
      lit "projects"; lit "certifications"; lit "password.txt"] ->
  lines (executeCommand st input)
  = lines st ++ echo st input
    ++ [errLine (lit "Command not found: " ++ toLowerCase cmd
                 ++ lit ". Type 'help' for available commands.")].
Proof.
  intros Hs Hin. unfold executeCommand. rewrite Hs. cbv zeta.
  cbn [In] in Hin.
  repeat (destruct Hin as [Hin | Hin];
          [rewrite <- Hin;
           match goal with
           | |- context [lookup (lit ?w) commands] =>
             change (negb (truthy (lit w))) with false;
             change (eqb (lit w) (lit "cd")) with false;
             change (eqb (lit w) (lit "pwd")) with false;
             change (eqb (lit w) (lit "ls")) with false;
             change (eqb (lit w) (lit "cat")) with false;
             change (lookup (lit w) commands) with (@None Command)
           end;
           cbv iota; state_fields; reflexivity |]).
  contradiction Hin.
Qed.

(** X30 at [About]. *)
Lemma content_names_are_unknown_commands_witness :
  lines (executeCommand init (lit "About"))
  = lines init ++ echo init (lit "About")
    ++ [errLine (lit "Command not found: " ++ toLowerCase (lit "About")
                 ++ lit ". Type 'help' for available commands.")].
Proof.
  exact (@content_names_are_unknown_commands init (lit "About") (lit "About") []
           ltac:(vm_compute; reflexivity) ltac:(vm_compute; tauto)).
Defined.

End TerminalFiles.

(** ** More on the capture-the-flag shell *)

Module CTFMore.
Import JS JSFacts JSMore CTF CTFFacts Panel.

(** Splits on every test the goal branches on. *)
Ltac branches :=
  repeat match goal with
         | |- context [if ?b then _ else _] => destruct b eqn:?
         | |- context [match ?x with _ => _ end] => destruct x eqn:?
         end.

Section Host.

Variable parseFloat : jsstring -> number.
Variable numberToString : number -> jsstring.

Local Abbreviation onCommand := (onCommand parseFloat numberToString).
Local Abbreviation run := (run parseFloat numberToString).
Local Abbreviation step := (step parseFloat numberToString).

(** *** Flags of the reachable states *)

Lemma onCommand_reveal (now : timestamp) (w : Storage) (st : State)
      (raw : jsstring) :
  (revealedHidden st = true -> root st = true) ->
  revealedHidden (fst (onCommand now w st raw)) = true ->
  root (fst (onCommand now w st raw)) = true.
Proof.
  unfold CTF.onCommand, doLs, doCat, tryCipher. cbv beta zeta.
  intros Hinv; branches; fields; auto;
    try match goal with
        | H : _ && _ = true |- _ =>
          apply andb_true_iff in H; destruct H as [H _]; intros _; exact H
        end;
    let H := fresh in intros H; specialize (Hinv H); congruence.
Qed.

Lemma onCommand_solved (now : timestamp) (w : Storage) (st : State)
      (raw : jsstring) :
  celebrated (fst (onCommand now w st raw)) = celebrated st
  /\ (solved (fst (onCommand now w st raw)) = solved st
      \/ solved (fst (onCommand now w st raw)) = true).
Proof.
  unfold CTF.onCommand, doLs, doCat, tryCipher. cbv beta zeta.
  branches; fields; auto.
Qed.

Lemma step_flags (c : State * Storage) (e : Event) :
  (awaitingPassword (fst c) = true -> root (fst c) = false)
  /\ (revealedHidden (fst c) = true -> root (fst c) = true)
  /\ solved (fst c) = celebrated (fst c) ->
  (awaitingPassword (fst (step c e)) = true -> root (fst (step c e)) = false)
  /\ (revealedHidden (fst (step c e)) = true -> root (fst (step c e)) = true)
  /\ solved (fst (step c e)) = celebrated (fst (step c e)).
Proof.
  intros (Ha & Hr & Hs). destruct c as [s w], e as [now raw |];
    cbn [CTF.step fst snd] in *.
  - destruct (onCommand now w (setInput raw s) raw) as [s' w'] eqn:E.
    cbn [fst].
    pose proof (@onCommand_phase parseFloat numberToString now w
                  (setInput raw s) raw Ha) as P1.
    pose proof (@onCommand_reveal now w (setInput raw s) raw Hr) as P2.
    pose proof (@onCommand_solved now w (setInput raw s) raw) as (P3 & P4).
    rewrite E in P1, P2, P3, P4. cbn [fst] in P1, P2, P3, P4.
    cbn [celebrated solved setInput] in P3, P4.
    destruct (celebrate_frame s') as (-> & -> & _ & _ & F5 & -> & _).
    split; [exact P1 |]. split; [exact P2 |].
    unfold celebrate.
    destruct (solved s') eqn:S1, (celebrated s') eqn:S2; cbn [andb negb];
      fields; try congruence.
    destruct P4; congruence.
  - rewrite replay_frame in *. unfold celebrate. fields. cbn [andb].
    auto.
Qed.

(** X18: in every state reached from the mounted component by submitted
    lines and Replay presses, whatever the store holds: the shell is never
    both root and waiting for the password, the hidden file is revealed
    only to root, and once the effects have run the puzzle is celebrated
    exactly when it is solved. *)
Theorem reachable_flags (w0 : Storage) (es : list Event) :
  let s := fst (run (loadBest parseFloat w0 init, w0) es) in
  (awaitingPassword s = true -> root s = false)
  /\ (revealedHidden s = true -> root s = true)
  /\ solved s = celebrated s.
Proof.
  cbv zeta. unfold CTF.run.
  assert (H0 : (awaitingPassword (fst (loadBest parseFloat w0 init, w0)) = true
                -> root (fst (loadBest parseFloat w0 init, w0)) = false)
               /\ (revealedHidden (fst (loadBest parseFloat w0 init, w0)) = true
                   -> root (fst (loadBest parseFloat w0 init, w0)) = true)
               /\ solved (fst (loadBest parseFloat w0 init, w0))
                  = celebrated (fst (loadBest parseFloat w0 init, w0))).
  { cbn [fst]. unfold loadBest. branches; fields; cbn; auto;
      repeat split; congruence. }
  revert H0. generalize (loadBest parseFloat w0 init, w0) as c.
  induction es as [|e es IH]; intros c H0; cbn [fold_left]; [exact H0 |].
  apply IH. apply step_flags. exact H0.
Qed.

(** *** Escalation *)

Lemma sudo_su_asks (now : timestamp) (w : Storage) (st : State)
      (raw : jsstring) (rest : list jsstring) :
  awaitingPassword st = false -> root st = false ->
  split_ws (trim raw) = lit "sudo" :: lit "su" :: rest ->
  onCommand now w st raw
  = (append (lit "[sudo] password for yyerf:") kSys
       (setAwaitingPassword true (echoed now st raw)), w).
Proof.
  intros Haw Hr Hs. dispatch Haw Hs. rewrite Hr. reflexivity.
Qed.

Lemma password_accepted (now : timestamp) (w : Storage) (st : State)
      (raw : jsstring) :
  awaitingPassword st = true -> trim raw = PASSWORD ->
  onCommand now w st raw
  = (append rootRiddle kOut
       (append (lit "Privilege escalation successful. Welcome root.") kRoot
          (setRoot true
             (setAwaitingPassword false
                (match startTime st with
                 | None => setStartTime (Some now) (setInput [] st)
                 | Some _ => setInput [] st
                 end)))), w).
Proof.
  intros Haw Hp. unfold CTF.onCommand. rewrite Hp, Haw.
  assert (E1 : negb (truthy PASSWORD) = false) by (vm_compute; reflexivity).
  rewrite E1, eqb_refl. reflexivity.
Qed.

(** X19: escalation takes two lines.  From a shell that is neither root
    nor waiting for the password, [sudo su] (whatever follows) and then a
    line that trims to the password give root; the transcript gains the echo
    of the first line, the password prompt, the announcement and the next
    riddle; the password itself is not echoed and the store is untouched. *)
Theorem escalation_protocol (t1 t2 : timestamp) (w : Storage) (s : State)
        (l1 l2 : jsstring) (rest : list jsstring) :
  awaitingPassword s = false -> root s = false ->
  split_ws (trim l1) = lit "sudo" :: lit "su" :: rest ->
  trim l2 = PASSWORD ->
  let c := run (s, w) [Line t1 l1; Line t2 l2] in
  root (fst c) = true
  /\ awaitingPassword (fst c) = false
  /\ snd c = w
  /\ lines (fst c)
     = lines s ++ echo s l1
       ++ [ {| content := lit "[sudo] password for yyerf:"; kind := kSys |};
            {| content := lit "Privilege escalation successful. Welcome root.";
               kind := kRoot |};
            {| content := rootRiddle; kind := kOut |} ].
Proof.
  intros Haw Hr Hs Hp c. subst c. cbn [CTF.run fold_left CTF.step fst snd].
  rewrite (@sudo_su_asks t1 w (setInput l1 s) l1 rest Haw Hr Hs).
  cbn [fst snd].
  set (s1 := celebrate _).
  assert (F : awaitingPassword s1 = true
              /\ lines s1 = lines s ++ echo s l1
                   ++ [ {| content := lit "[sudo] password for yyerf:";
                           kind := kSys |} ]).
  { subst s1. destruct (celebrate_frame
      (append (lit "[sudo] password for yyerf:") kSys
         (setAwaitingPassword true (echoed t1 (setInput l1 s) l1))))
      as (_ & _ & _ & _ & _ & -> & ->).
    unfold echoed, echo.
    destruct (startTime (setInput l1 s)); fields; split; reflexivity. }
  destruct F as [F1 F2].
  rewrite (@password_accepted t2 w (setInput l2 s1) l2 F1 Hp).
  cbn [fst snd].
  match goal with
  | |- context [celebrate ?x] =>
    destruct (celebrate_frame x) as (-> & _ & _ & _ & _ & -> & ->)
  end.
  destruct (startTime (setInput l2 s1)); fields; rewrite F2;
    rewrite <- ?app_assoc; cbn [app]; repeat split.
Qed.

(** *** Commands the shell does not know *)

(** X20: command words are case-sensitive and closed: outside the
    password phase, a line whose first word is none of [help], [clear],
    [sudo], [ls], [cat], [submit], [cipher] is echoed and answered with the
    one error line [Unknown command]; the timer starts if it was not
    running, and nothing else changes, in the state or in the store. *)
Theorem unknown_command_harmless (now : timestamp) (w : Storage) (st : State)
        (raw c : jsstring) (rest : list jsstring) :
  awaitingPassword st = false ->
  split_ws (trim raw) = c :: rest -> c <> [] ->
  ~ In c [lit "help"; lit "clear"; lit "sudo"; lit "ls"; lit "cat";
          lit "submit"; lit "cipher"] ->
  onCommand now w st raw
  = (append (lit "Unknown command") kErr (echoed now st raw), w).
Proof.
  intros Haw Hs Hc Hn. unfold CTF.onCommand.
  rewrite (first_token_not_blank _ Hs Hc), Haw, Hs.
  cbn [negb hd_error tl]. cbv beta zeta iota.
  repeat match goal with
         | |- context [eqb c (lit ?k)] =>
           let E := fresh "E" in
           assert (E : eqb c (lit k) = false)
             by (apply eqb_neq; intros ->; apply Hn; cbn [In]; tauto);
           rewrite E; clear E
         end.
  reflexivity.
Qed.

(** *** The store and the best time *)


Lemma onCommand_best (now : timestamp) (w : Storage) (st : State)
      (raw : jsstring) (b : Z) :
  bestTime st = Some (Num b) ->
  exists b', bestTime (fst (onCommand now w st raw)) = Some (Num b')
             /\ (b' <= b)%Z.
Proof.
  intros Hb. unfold CTF.onCommand, doLs, doCat, tryCipher, existingBest.
  cbv beta zeta. rewrite Hb.
  branches; fields; rewrite ?Hb;
    try (exists b; split; [reflexivity | lia]);
    try match goal with
        | H : Some _ = Some _ |- _ => inversion H; subst; clear H
        end;
    try match goal with
        | H : lt (Num _) (Num _) = true |- _ =>
          cbn [lt] in H; apply Z.ltb_lt in H
        end;
    try (eexists; split; [reflexivity | lia]);
    try discriminate.
Qed.

(** X22: a best time in memory that is a number never gets worse: after
    any sequence of lines and Replay presses the best time is a number not
    above it. *)
Theorem best_time_never_worsens (c : State * Storage) (es : list Event)
        (b : Z) :
  bestTime (fst c) = Some (Num b) ->
  exists b', bestTime (fst (run c es)) = Some (Num b') /\ (b' <= b)%Z.
Proof.
  revert c b. induction es as [|e es IH]; intros c b Hb.
  - exists b. split; [exact Hb | lia].
  - cbn [CTF.run fold_left].
    assert (H1 : exists b1, bestTime (fst (step c e)) = Some (Num b1)
                            /\ (b1 <= b)%Z).
    { destruct c as [s w], e as [now raw |]; cbn [CTF.step fst snd] in *.
      - destruct (onCommand now w (setInput raw s) raw) as [s' w'] eqn:E.
        cbn [fst].
        destruct (celebrate_frame s') as (_ & _ & _ & -> & _).
        change s' with (fst (s', w')). rewrite <- E.
        apply onCommand_best. exact Hb.
      - destruct (celebrate_frame (replay s)) as (_ & _ & _ & -> & _).
        rewrite replay_frame. exists b. split; [exact Hb | lia]. }
    destruct H1 as (b1 & Hb1 & Hle).
    destruct (IH (step c e) b1 Hb1) as (b' & Hb' & Hle').
    exists b'. split; [exact Hb' | lia].
Qed.

(** X23: Replay restarts the clock: after a Replay, the timer is the
    clock reading of the first line that is not blank submitted after it
    (and is unset until then). *)
Theorem replay_restarts_timer (c : State * Storage) (es : list Event) :
  ~ In Replay es ->
  startTime (fst (run c (Replay :: es))) = firstCommandTime es.
Proof.
  intros Hn. cbn [CTF.run fold_left].
  change (fold_left step es (step c Replay)) with (run (step c Replay) es).
  rewrite (session_timer parseFloat numberToString es (step c Replay) Hn).
  cbn [CTF.step fst].
  destruct (celebrate_frame (replay (fst c))) as (_ & _ & -> & _).
  rewrite replay_frame. reflexivity.
Qed.

(** *** The celebration *)

Lemma step_celebrated (c : State * Storage) (e : Event) :
  solved (fst c) = celebrated (fst c) ->
  solved (fst (step c e)) = celebrated (fst (step c e))
  /\ (if fires (fst (handled parseFloat numberToString c e)) then 1 else 0)
     + (if solved (fst (step c e)) then 0 else 1)
     <= (if solved (fst c) then 0 else 1)
        + match e with Replay => 1 | Line _ _ => 0 end.
Proof.
  intros Hs. destruct c as [s w], e as [now raw |];
    cbn [CTF.step handled fst snd] in *.
  - destruct (onCommand now w (setInput raw s) raw) as [s' w'] eqn:E.
    cbn [fst].
    pose proof (@onCommand_solved now w (setInput raw s) raw) as (P3 & P4).
    rewrite E in P3, P4. cbn [fst celebrated solved setInput] in P3, P4.
    unfold celebrate, fires.
    destruct (solved s') eqn:S1, (celebrated s') eqn:S2,
             (solved s) eqn:S3;
      try (exfalso; destruct P4; congruence);
      cbn [andb negb]; fields; rewrite ?S1, ?S2; cbn;
      (split; [congruence | lia]).
  - rewrite replay_frame. unfold celebrate, fires. fields. cbn [andb].
    fields. destruct (solved s); cbn; split; try lia; reflexivity.
Qed.

(** X24: the celebration (chord and confetti) runs at most once per solve:
    from a state where celebrated and solved agree, it runs at most once
    before the first Replay and at most once more after each Replay, however
    many correct flags are submitted. *)
Theorem celebrated_once_per_solve (c : State * Storage) (es : list Event) :
  solved (fst c) = celebrated (fst c) ->
  celebrations parseFloat numberToString c es
  <= (if solved (fst c) then 0 else 1) + replays es.
Proof.
  revert c. induction es as [|e es IH]; intros c Hs; cbn [celebrations replays].
  - lia.
  - destruct (step_celebrated c e Hs) as [H1 H2].
    specialize (IH (step c e) H1).
    destruct e as [now raw |]; cbn [replays]; lia.
Qed.

(** *** The hidden riddle *)

(** A line whose kind is not [kOut], or whose text is a literal other than
    the riddle, is not the riddle line. *)
Ltac not_riddle H :=
  first [ apply (f_equal kind) in H; cbn [kind] in H; discriminate H
        | apply (f_equal content) in H; cbn [content] in H;
          vm_compute in H; discriminate H ].

Ltac no_riddle_added :=
  let H := fresh "H" in
  cbn [In]; intros H;
  repeat (destruct H as [H | H]; [exfalso; not_riddle H |]);
  contradiction H.

Lemma onCommand_riddle (now : timestamp) (w : Storage) (st : State)
      (raw : jsstring) :
  exists added,
    (lines (fst (onCommand now w st raw)) = lines st ++ added
     \/ lines (fst (onCommand now w st raw)) = [])
    /\ (In {| content := cipherRiddle; kind := kOut |} added ->
        root st = true /\ revealedHidden st = true).
Proof.
  unfold CTF.onCommand, doLs, doCat, tryCipher. cbv beta zeta.
  branches; fields;
    try (exists []; split; [right; reflexivity | intros []]);
    try (exists []; split; [left; rewrite app_nil_r; reflexivity | intros []]);
    try (eexists; split; [left; reflexivity | no_riddle_added]).
  all: eexists; (split; [left; reflexivity |]); intros _;
    split; apply negb_false_iff; assumption.
Qed.

Lemma step_riddle (c : State * Storage) (e : Event) :
  (In {| content := cipherRiddle; kind := kOut |} (lines (fst c)) ->
   root (fst c) = true /\ revealedHidden (fst c) = true) ->
  In {| content := cipherRiddle; kind := kOut |} (lines (fst (step c e))) ->
  root (fst (step c e)) = true /\ revealedHidden (fst (step c e)) = true.
Proof.
  intros Hinv. destruct (step_privilege parseFloat numberToString c e)
    as [Mr Mh].
  destruct c as [s w], e as [now raw |]; cbn [CTF.step fst snd] in *.
  - destruct (onCommand_riddle now w (setInput raw s) raw)
      as (added & Hl & Ha).
    destruct (onCommand now w (setInput raw s) raw) as [s' w'] eqn:E.
    cbn [fst] in *. cbn [lines root revealedHidden setInput] in Hl, Ha.
    destruct (celebrate_frame s') as (R1 & R2 & _ & _ & _ & _ & R3).
    rewrite R3. intros Hin. destruct Hl as [Hl | Hl]; rewrite Hl in Hin.
    + apply in_app_or in Hin. destruct Hin as [Hin | Hin].
      * destruct (Hinv Hin). split; auto.
      * destruct (Ha Hin). split; auto.
    + contradiction Hin.
  - destruct (celebrate_frame (replay s)) as (_ & _ & _ & _ & _ & _ & R3).
    rewrite R3, replay_frame. cbn [lines In].
    intros [H | []]. exfalso. not_riddle H.
Qed.

(** X25: the final riddle is shown only after the escalation and the
    reveal: in every state reached from the mounted component, if the
    transcript holds the riddle as an output line then the shell is root
    and the hidden file has been revealed.  (What the user types is echoed
    as a system line behind the prompt, so typing the riddle does not count.) *)
Theorem riddle_needs_reveal (w0 : Storage) (es : list Event) :
  let s := fst (run (loadBest parseFloat w0 init, w0) es) in
  In {| content := cipherRiddle; kind := kOut |} (lines s) ->
  root s = true /\ revealedHidden s = true.
Proof.
  cbv zeta. unfold CTF.run.
  assert (H0 : In {| content := cipherRiddle; kind := kOut |}
                  (lines (fst (loadBest parseFloat w0 init, w0))) ->
               root (fst (loadBest parseFloat w0 init, w0)) = true
               /\ revealedHidden (fst (loadBest parseFloat w0 init, w0)) = true).
  { cbn [fst]. unfold loadBest. branches; fields; cbn [init lines In];
      intros [H | []]; exfalso; not_riddle H. }
  revert H0. generalize (loadBest parseFloat w0 init, w0) as c.
  induction es as [|e es IH]; intros c H0; cbn [fold_left]; [exact H0 |].
  apply IH. apply step_riddle. exact H0.
Qed.

End Host.

(** *** The badge *)

Lemma pad2_two_digits (k : Z) :
  (0 <= k < 100)%Z ->
  pad2 (intToString k) = [Z.to_N (48 + k / 10); Z.to_N (48 + k mod 10)].
Proof.
  intros Hk.
  assert (Hall : forallb
            (fun n => eqb (pad2 (intToString (Z.of_nat n)))
                          [Z.to_N (48 + Z.of_nat n / 10);
                           Z.to_N (48 + Z.of_nat n mod 10)])
            (seq 0 100) = true) by (vm_compute; reflexivity).
  rewrite forallb_forall in Hall.
  specialize (Hall (Z.to_nat k)). rewrite Z2Nat.id in Hall by lia.
  apply eqb_eq. apply Hall. apply in_seq. lia.
Qed.

(** X26: below one hundred minutes, [formatTime] prints [MM:SS]: two
    digits of whole minutes, a colon, two digits of the remaining whole
    seconds. *)
Theorem formatTime_minutes_seconds (ms : Z) :
  (0 <= ms < 6000000)%Z ->
  let m := (ms / 60000)%Z in
  let s := ((ms / 1000) mod 60)%Z in
  formatTime (Num ms)
  = [Z.to_N (48 + m / 10); Z.to_N (48 + m mod 10); 58%N;
     Z.to_N (48 + s / 10); Z.to_N (48 + s mod 10)].
Proof.
  intros H m s. unfold formatTime. cbv zeta.
  assert (Ht : (0 <= ms / 1000 < 6000)%Z).
  { split; [apply Z.div_pos; lia | apply Z.div_lt_upper_bound; lia]. }
  assert (Em : (ms / 1000 / 60 = m)%Z).
  { subst m. rewrite Z.div_div by lia. reflexivity. }
  assert (Es : Z.rem (ms / 1000) 60 = s).
  { subst s. apply Z.rem_mod_nonneg; lia. }
  rewrite Em, Es.
  assert (Hm : (0 <= m < 100)%Z).
  { rewrite <- Em. split; [apply Z.div_pos; lia
                          | apply Z.div_lt_upper_bound; lia]. }
  assert (Hs : (0 <= s < 60)%Z) by (subst s; apply Z.mod_pos_bound; lia).
  rewrite (pad2_two_digits Hm), (pad2_two_digits (k := s)) by lia.
  reflexivity.
Qed.

(** X26 at 125999 ms. *)
Lemma formatTime_minutes_seconds_witness :
  formatTime (Num 125999) = lit "02:05".
Proof.
  exact (@formatTime_minutes_seconds 125999
           ltac:(split; [discriminate | reflexivity])).
Defined.

(** *** The statements at concrete sessions *)

Import SampleHost.

(** X19 in a fresh session. *)
Lemma escalation_protocol_witness :
  root (fst (CTF.run parseFloat numberToString fresh
               [Line 1000 (lit "sudo su"); Line 2000 PASSWORD])) = true.
Proof.
  pose proof (@escalation_protocol parseFloat numberToString 1000 2000
                (snd fresh) (fst fresh) (lit "sudo su") PASSWORD []
                ltac:(vm_compute; reflexivity) ltac:(vm_compute; reflexivity)
                ltac:(vm_compute; reflexivity) ltac:(vm_compute; reflexivity))
    as (H & _).
  exact H.
Defined.

(** X20 at [LS]: the command words are not lower-cased. *)
Lemma unknown_command_harmless_witness :
  CTF.onCommand parseFloat numberToString 1000 (snd fresh) (fst fresh) (lit "LS")
  = (append (lit "Unknown command") kErr (echoed 1000 (fst fresh) (lit "LS")),
     snd fresh).
Proof.
  exact (@unknown_command_harmless parseFloat numberToString 1000 (snd fresh)
           (fst fresh) (lit "LS") (lit "LS") []
           ltac:(vm_compute; reflexivity) ltac:(vm_compute; reflexivity)
           ltac:(vm_compute; discriminate)
           ltac:(vm_compute; intros H;
                 repeat (destruct H as [H | H]; [discriminate H |]);
                 exact H)).
Defined.

(** X22 with a best time of 5000 ms and a solve in 3000 ms. *)
Lemma best_time_never_worsens_witness :
  exists b', bestTime (fst (CTF.run parseFloat numberToString withBest
                              [Line 1000 (lit "ls"); Line 4000 flagLine]))
             = Some (Num b')
             /\ (b' <= 5000)%Z.
Proof.
  exact (@best_time_never_worsens parseFloat numberToString withBest
           [Line 1000 (lit "ls"); Line 4000 flagLine] 5000
           ltac:(vm_compute; reflexivity)).
Defined.

(** X23 at a blank line and [ls] after Replay. *)
Lemma replay_restarts_timer_witness :
  startTime (fst (CTF.run parseFloat numberToString rooted
                    [Replay; Line 7000 (lit "  "); Line 8000 (lit "ls")]))
  = firstCommandTime [Line 7000 (lit "  "); Line 8000 (lit "ls")].
Proof.
  exact (@replay_restarts_timer parseFloat numberToString rooted
           [Line 7000 (lit "  "); Line 8000 (lit "ls")]
           ltac:(intros [H | [H | []]]; discriminate H)).
Defined.

(** X24 at three correct flags around one Replay. *)
Lemma celebrated_once_per_solve_witness :
  celebrations parseFloat numberToString fresh
    [Line 1000 flagLine; Line 2000 flagLine; Replay; Line 3000 flagLine]
  <= (if solved (fst fresh) then 0 else 1)
     + replays [Line 1000 flagLine; Line 2000 flagLine; Replay;
                Line 3000 flagLine].
Proof.
  exact (@celebrated_once_per_solve parseFloat numberToString fresh
           [Line 1000 flagLine; Line 2000 flagLine; Replay; Line 3000 flagLine]
           ltac:(vm_compute; reflexivity)).
Defined.

(** X25 along the intended path to the riddle. *)
Lemma riddle_needs_reveal_witness :
  root (fst (CTF.run parseFloat numberToString
               (loadBest parseFloat (storeOf None) init, storeOf None)
               [Line 1000 (lit "sudo su"); Line 2000 PASSWORD;
                Line 3000 (lit "ls -a"); Line 4000 (lit "cat .shadow")]))
  = true.
Proof.
  pose proof (@riddle_needs_reveal parseFloat numberToString (storeOf None)
                [Line 1000 (lit "sudo su"); Line 2000 PASSWORD;
                 Line 3000 (lit "ls -a"); Line 4000 (lit "cat .shadow")]
                ltac:(vm_compute;
                      repeat (first [left; reflexivity | right])))
    as (H & _).
  exact H.
Defined.

End CTFMore.

(** ** The simulated cipher *)

Module VisualizerFacts.
Import JS JSFacts CTF Visualizer.

(** *** Only the first eighteen bytes count *)

Lemma btoa_group (a b c : N) (r : list N) :
  btoa (a :: b :: c :: r)
  = [b64char (a / 4); b64char ((a mod 4) * 16 + b / 16);
     b64char ((b mod 16) * 4 + c / 64); b64char (c mod 64)]%N ++ btoa r.
Proof. reflexivity. Qed.

Lemma btoa_prefix (k : nat) (bs : list N) :
  firstn (4 * k) (btoa bs) = firstn (4 * k) (btoa (firstn (3 * k) bs)).
Proof.
  revert bs. induction k as [|k IH]; intros bs; [reflexivity |].
  replace (4 * S k)%nat with (S (S (S (S (4 * k))))) by lia.
  replace (3 * S k)%nat with (S (S (S (3 * k)))) by lia.
  destruct bs as [|a [|b [|c r]]]; try reflexivity.
  cbn [firstn]. rewrite !btoa_group. cbn [app firstn].
  rewrite IH. reflexivity.
Qed.

(** X27: the simulated cipher reads at most the first eighteen bytes of
    the UTF-8 encoding of the plaintext: two plaintexts that agree on these
    bytes get the same output, under both algorithms. *)
Theorem cipher_reads_eighteen_bytes (algo : Algo) (p1 p2 : jsstring)
        (b1 b2 : list N) :
  binaryString p1 = Some b1 -> binaryString p2 = Some b2 ->
  firstn 18 b1 = firstn 18 b2 ->
  generateSimCipher algo p1 = generateSimCipher algo p2.
Proof.
  intros H1 H2 E. unfold generateSimCipher. rewrite H1, H2. cbv zeta.
  assert (D : firstn 24 (btoa b1) = firstn 24 (btoa b2)).
  { change 24%nat with (4 * 6)%nat.
    rewrite (btoa_prefix 6 b1), (btoa_prefix 6 b2).
    change (3 * 6)%nat with 18%nat. rewrite E. reflexivity. }
  rewrite D. reflexivity.
Qed.

(** X27 at two plaintexts that agree on [correct horse batt]. *)
Lemma cipher_reads_eighteen_bytes_witness :
  generateSimCipher RSAOAEP (lit "correct horse battery staple")
  = generateSimCipher RSAOAEP (lit "correct horse battle").
Proof.
  exact (@cipher_reads_eighteen_bytes RSAOAEP
           (lit "correct horse battery staple") (lit "correct horse battle")
           _ _ ltac:(vm_compute; reflexivity) ltac:(vm_compute; reflexivity)
           ltac:(vm_compute; reflexivity)).
Defined.

(** *** The cipher the puzzle accepts *)

(** Replaces [x / k] and [x mod k] by a quotient and a remainder. *)
Ltac divmod x k :=
  let Hd := fresh "Hd" in
  let Hm := fresh "Hm" in
  pose proof (N.div_mod' x k) as Hd;
  pose proof (N.mod_lt x k ltac:(discriminate)) as Hm;
  generalize dependent (N.div x k); generalize dependent (N.modulo x k);
  intros.

Lemma below_64 (P : N -> bool) :
  forallb P (map N.of_nat (seq 0 64)) = true ->
  forall i, (i < 64)%N -> P i = true.
Proof.
  intros H i Hi. rewrite forallb_forall in H. apply H.
  apply in_map_iff. exists (N.to_nat i). split; [lia |].
  apply in_seq. lia.
Qed.

Lemma b64char_out (i : N) : (64 <= i)%N -> b64char i = 0%N.
Proof.
  intros H. unfold b64char. apply nth_overflow.
  assert (E : List.length alphabet = 64%nat) by (vm_compute; reflexivity).
  rewrite E. lia.
Qed.

Lemma b64char_not_pad (i : N) : b64char i <> 61%N.
Proof.
  destruct (N.ltb_spec i 64) as [H | H].
  - assert (E : negb (b64char i =? 61)%N = true).
    { revert i H. apply below_64. vm_compute. reflexivity. }
    apply negb_true_iff, N.eqb_neq in E. exact E.
  - rewrite (b64char_out H). discriminate.
Qed.

Lemma b64char_is (i j : N) :
  (j < 64)%N -> b64char i = b64char j -> i = j.
Proof.
  intros Hj E. destruct (N.ltb_spec i 64) as [H | H].
  - assert (A : forallb (fun y => negb (b64char i =? b64char y)%N || (i =? y)%N)
                        (map N.of_nat (seq 0 64)) = true).
    { revert i H E. intros i H _. revert i H.
      apply (@below_64 (fun i =>
               forallb (fun y => negb (b64char i =? b64char y)%N || (i =? y)%N)
                       (map N.of_nat (seq 0 64)))).
      vm_compute. reflexivity. }
    pose proof (@below_64 _ A j Hj) as B. cbv beta in B.
    rewrite E, N.eqb_refl in B. cbn [negb orb] in B.
    apply N.eqb_eq in B. exact B.
  - rewrite (b64char_out H) in E.
    assert (A : negb (0 =? b64char j)%N = true).
    { clear E. revert j Hj. apply below_64. vm_compute. reflexivity. }
    apply negb_true_iff, N.eqb_neq in A. congruence.
Qed.

Lemma dropEquals_keeps (l m : jsstring) (x : N) :
  x <> 61%N -> exists l', dropEquals (l ++ x :: m) = l' ++ x :: m.
Proof.
  intros Hx. induction l as [|c l IH]; cbn [app dropEquals].
  - apply N.eqb_neq in Hx. rewrite Hx. exists []. reflexivity.
  - destruct (c =? 61)%N; [exact IH | exists (c :: l); reflexivity].
Qed.

Lemma stripPadding_keeps (pre post : jsstring) (x : N) :
  x <> 61%N ->
  exists rest, stripPadding (pre ++ x :: post) = pre ++ x :: rest.
Proof.
  intros Hx. unfold stripPadding. rewrite rev_app_distr. cbn [rev].
  rewrite <- app_assoc. cbn [app].
  destruct (dropEquals_keeps (rev post) (rev pre) Hx) as (l' & E).
  rewrite E. exists (rev l'). rewrite rev_app_distr. cbn [rev].
  rewrite rev_involutive, <- app_assoc. reflexivity.
Qed.

Lemma stripPadding_short (s : jsstring) :
  (List.length (stripPadding s) <= List.length s)%nat.
Proof.
  unfold stripPadding. rewrite length_rev, <- (length_rev s).
  induction (rev s) as [|c l IH]; cbn [dropEquals]; [lia |].
  destruct (c =? 61)%N; cbn [List.length]; lia.
Qed.

Lemma stripPadding_pad (s : jsstring) :
  stripPadding (s ++ [61%N]) = stripPadding s.
Proof.
  unfold stripPadding. rewrite rev_app_distr. reflexivity.
Qed.

Lemma btoa_head (d : N) (r : list N) :
  exists ys, btoa (d :: r) = b64char (d / 4) :: ys.
Proof. destruct r as [|e [|f r']]; eexists; reflexivity. Qed.

Lemma utf8Bytes_small (c : N) :
  (c < 65536)%N -> Forall (fun b => (b < 256)%N) (utf8Bytes c).
Proof.
  intros H. unfold utf8Bytes.
  destruct (N.ltb_spec c 128); [repeat constructor; lia |].
  destruct (N.ltb_spec c 2048).
  { divmod c 64%N. repeat constructor; lia. }
  destruct (N.ltb_spec c 65536); [| lia].
  repeat constructor.
  - divmod c 4096%N. lia.
  - pose proof (N.mod_lt (c / 64) 64 ltac:(discriminate)). lia.
  - pose proof (N.mod_lt c 64 ltac:(discriminate)). lia.
Qed.

Lemma utf8Bytes_four (c : N) :
  (65536 <= c)%N -> List.length (utf8Bytes c) = 4%nat.
Proof.
  intros H. unfold utf8Bytes.
  destruct (N.ltb_spec c 128); [lia |].
  destruct (N.ltb_spec c 2048); [lia |].
  destruct (N.ltb_spec c 65536); [lia | reflexivity].
Qed.

Lemma some_eq (A : Type) (x y : A) : Some x = Some y -> x = y.
Proof. congruence. Qed.

Lemma cons_eq (A : Type) (x y : A) (l m : list A) :
  x :: l = y :: m -> x = y /\ l = m.
Proof. intros H. split; congruence. Qed.

Lemma binaryString_cons (c : N) (s' : jsstring) :
  binaryString (c :: s')
  = if isHighSurrogate c then
      match s' with
      | d :: s'' =>
        if isLowSurrogate d then
          option_map
            (app (utf8Bytes (65536 + (c - 55296) * 1024 + (d - 56320))%N))
            (binaryString s'')
        else None
      | [] => None
      end
    else if isLowSurrogate c then None
    else option_map (app (utf8Bytes c)) (binaryString s').
Proof. reflexivity. Qed.

(** A byte above 255 can only open a four-byte sequence. *)
Lemma bytes_small_or_many (p : jsstring) (bs : list N) :
  binaryString p = Some bs ->
  Forall (fun b => (b < 256)%N) bs \/ (4 <= List.length bs)%nat.
Proof.
  revert bs. induction p as [|c p IH]; intros bs;
    [| rewrite binaryString_cons].
  - intros E. apply some_eq in E. subst bs. left. constructor.
  - destruct (isHighSurrogate c).
    { destruct p as [|d p']; [discriminate |].
      destruct (isLowSurrogate d); [| discriminate].
      destruct (binaryString p') as [rest |]; [| discriminate].
      unfold option_map. intros E. apply some_eq in E. subst bs. right.
      rewrite length_app, utf8Bytes_four by lia. lia. }
    destruct (isLowSurrogate c); [discriminate |].
    destruct (binaryString p) as [rest |]; [| discriminate].
    unfold option_map. intros E. apply some_eq in E. subst bs.
    destruct (N.ltb_spec c 65536) as [Hc | Hc].
    + destruct (IH rest eq_refl) as [Hs | Hl].
      * left. apply Forall_app. split; [apply utf8Bytes_small; exact Hc | exact Hs].
      * right. rewrite length_app. lia.
    + right. rewrite length_app, utf8Bytes_four by exact Hc. lia.
Qed.

(** A byte below 128 is a code unit of the text. *)
Lemma binaryString_ascii (p : jsstring) (a : N) (bs : list N) :
  binaryString p = Some (a :: bs) -> (a < 128)%N ->
  exists p', p = a :: p' /\ binaryString p' = Some bs.
Proof.
  destruct p as [|c p]; [discriminate | rewrite binaryString_cons].
  intros E Ha. destruct (isHighSurrogate c) eqn:Hh.
  { destruct p as [|d p']; [discriminate |].
    destruct (isLowSurrogate d); [| discriminate].
    destruct (binaryString p') as [rest |]; [| discriminate].
    unfold option_map in E. apply some_eq in E. rename E into E'.
    set (cp := (65536 + (c - 55296) * 1024 + (d - 56320))%N) in *.
    assert (Hcp : (65536 <= cp)%N) by (subst cp; lia).
    unfold utf8Bytes in E'.
    destruct (N.ltb_spec cp 128); [lia |].
    destruct (N.ltb_spec cp 2048); [lia |].
    destruct (N.ltb_spec cp 65536); [lia |].
    cbn [app] in E'. apply cons_eq in E'. destruct E' as [E1 _].
    generalize dependent (cp / 262144)%N. intros. lia. }
  destruct (isLowSurrogate c); [discriminate |].
  destruct (binaryString p) as [rest |] eqn:Bp; [| discriminate].
  unfold option_map in E. apply some_eq in E. rename E into E'.
  unfold utf8Bytes in E'.
  destruct (N.ltb_spec c 128).
  { cbn [app] in E'. apply cons_eq in E'. destruct E' as [-> ->].
    exists p. split; [reflexivity | exact Bp]. }
  destruct (N.ltb_spec c 2048).
  { cbn [app] in E'. apply cons_eq in E'. destruct E' as [E1 _].
    generalize dependent (c / 64)%N. intros. lia. }
  destruct (N.ltb_spec c 65536); cbn [app] in E'; apply cons_eq in E';
    destruct E' as [E1 _].
  - generalize dependent (c / 4096)%N. intros. lia.
  - generalize dependent (c / 262144)%N. intros. lia.
Qed.

Lemma sss_bytes (a b c : N) :
  (a < 256)%N -> (b < 256)%N -> (c < 256)%N ->
  (a / 4 = 28)%N -> ((a mod 4) * 16 + b / 16 = 55)%N ->
  ((b mod 16) * 4 + c / 64 = 13)%N -> (c mod 64 = 51)%N ->
  a = 115%N /\ b = 115%N /\ c = 115%N.
Proof.
  intros. divmod a 4%N. divmod b 16%N. divmod c 64%N. lia.
Qed.

(** X28: the cipher that the puzzle accepts ([FINAL_CIPHER], the value
    [tryCipher] compares with) is the AES-256 output of the visualizer for
    the plaintext [sss] and for no other plaintext. *)
Theorem only_sss_gives_the_cipher (p : jsstring) :
  generateSimCipher AES256 p = Some FINAL_CIPHER <-> p = lit "sss".
Proof.
  split; [| intros ->; vm_compute; reflexivity].
  unfold generateSimCipher.
  destruct (binaryString p) as [bytes |] eqn:B; [| discriminate].
  cbv zeta. intros E. apply some_eq in E. rename E into E'.
  change FINAL_CIPHER with (lit "c3Nz" ++ lit ".blk") in E'.
  apply app_inv_tail in E'.
  change (lit "c3Nz") with [99%N; 51%N; 78%N; 122%N] in E'.
  destruct bytes as [|a [|b [|c [|d r]]]].
  - vm_compute in E'. discriminate E'.
  - exfalso. cbn [btoa firstn] in E'.
    pose proof (stripPadding_short
                  [b64char (a / 4); b64char (a mod 4 * 16)]) as L.
    change [b64char (a / 4); b64char (a mod 4 * 16); 61%N; 61%N]
      with (([b64char (a / 4); b64char (a mod 4 * 16)] ++ [61%N]) ++ [61%N])
      in E'.
    rewrite !stripPadding_pad in E'. rewrite E' in L. cbn in L. lia.
  - exfalso. cbn [btoa firstn] in E'.
    pose proof (stripPadding_short
                  [b64char (a / 4); b64char (a mod 4 * 16 + b / 16);
                   b64char (b mod 16 * 4)]) as L.
    change [b64char (a / 4); b64char (a mod 4 * 16 + b / 16);
            b64char (b mod 16 * 4); 61%N]
      with ([b64char (a / 4); b64char (a mod 4 * 16 + b / 16);
             b64char (b mod 16 * 4)] ++ [61%N]) in E'.
    rewrite stripPadding_pad in E'. rewrite E' in L. cbn in L. lia.
  - cbn [btoa firstn app] in E'.
    destruct (@stripPadding_keeps
                [b64char (a / 4); b64char (a mod 4 * 16 + b / 16);
                 b64char (b mod 16 * 4 + c / 64)] [] (b64char (c mod 64))
                (b64char_not_pad _)) as (rest & S).
    cbn [app] in S. rewrite S in E'. injection E' as E1 E2 E3 E4 E5.
    change 99%N with (b64char 28) in E1.
    change 51%N with (b64char 55) in E2.
    change 78%N with (b64char 13) in E3.
    change 122%N with (b64char 51) in E4.
    apply b64char_is in E1, E2, E3, E4; try lia.
    destruct (bytes_small_or_many p B) as [Hs | Hl]; [| cbn in Hl; lia].
    inversion Hs as [|? ? Ha Hs1]; subst.
    inversion Hs1 as [|? ? Hb Hs2]; subst.
    inversion Hs2 as [|? ? Hc _]; subst.
    destruct (sss_bytes Ha Hb Hc E1 E2 E3 E4) as (-> & -> & ->).
    destruct (binaryString_ascii p B ltac:(lia)) as (p1 & -> & B1).
    destruct (binaryString_ascii p1 B1 ltac:(lia)) as (p2 & -> & B2).
    destruct (binaryString_ascii p2 B2 ltac:(lia)) as (p3 & -> & B3).
    destruct p3 as [|u p3]; [reflexivity | exfalso].
    rewrite binaryString_cons in B3.
    destruct (isHighSurrogate u).
    { destruct p3 as [|d p3]; [discriminate |].
      destruct (isLowSurrogate d); [| discriminate].
      destruct (binaryString p3); [| discriminate].
      unfold option_map in B3. apply some_eq in B3. rename B3 into B4.
      apply (f_equal (@List.length N)) in B4.
      rewrite length_app, utf8Bytes_four in B4 by lia. cbn in B4. lia. }
    destruct (isLowSurrogate u); [discriminate |].
    destruct (binaryString p3); [| discriminate].
    unfold option_map in B3. apply some_eq in B3. rename B3 into B4.
    unfold utf8Bytes in B4.
    destruct (u <? 128)%N; [discriminate |].
    destruct (u <? 2048)%N; [discriminate |].
    destruct (u <? 65536)%N; discriminate.
  - exfalso. rewrite btoa_group in E'.
    destruct (btoa_head d r) as (ys & Y). rewrite Y in E'.
    cbn [app] in E'. rewrite !firstn_cons in E'.
    destruct (@stripPadding_keeps
                [b64char (a / 4); b64char (a mod 4 * 16 + b / 16);
                 b64char (b mod 16 * 4 + c / 64); b64char (c mod 64)]
                (firstn 19 ys) (b64char (d / 4)) (b64char_not_pad _))
      as (rest & S).
    cbn [app] in S. rewrite S in E'. discriminate E'.
Qed.

End VisualizerFacts.
